(** * ClawCloud: the entitlement ledger and the provisioning listener

    A shallow embedding of
    - [contracts/ClawCloudVMs.sol], the ledger contract, and
    - the backend event listener ([handleVMPurchased]) together with
      [backend/provisioner.js] ([provisionVM], [provisionAWS], [provisionGCP],
      [updateVMStatus]).

    Solidity values of type [uint256] are integers in [Z]; arithmetic is the
    checked arithmetic of Solidity 0.8 (an overflow reverts).  A Solidity
    [mapping] is a finite map read with the all-zero default.  A call either
    returns or reverts; a reverted call leaves the storage as it was. *)

From Stdlib Require Import ZArith Lia Bool List.
From stdpp Require Import base option gmap strings list pretty.
Import ListNotations.

Local Open Scope string_scope.
Local Open Scope Z_scope.

(** ** Result of a call: a value, or a revert with its reason *)

Inductive Result (A : Type) : Type :=
| Ok (a : A)
| Revert (reason : string).
Arguments Ok {A} a.
Arguments Revert {A} reason.

#[global] Instance Result_ret : MRet Result := fun A a => Ok a.
#[global] Instance Result_bind : MBind Result := fun A B f m =>
  match m with
  | Ok a => f a
  | Revert r => Revert r
  end.

Definition require (b : bool) (reason : string) : Result unit :=
  if b then Ok tt else Revert reason.

Definition is_ok {A} (r : Result A) : bool :=
  match r with Ok _ => true | Revert _ => false end.

(** ** Checked machine arithmetic *)

Definition MAX_UINT256 : Z := 2 ^ 256 - 1.

Definition panic_overflow : string := "Panic(0x11)".

Definition checked_add (a b : Z) : Result Z :=
  if a + b <=? MAX_UINT256 then Ok (a + b) else Revert panic_overflow.

Definition checked_mul (a b : Z) : Result Z :=
  if a * b <=? MAX_UINT256 then Ok (a * b) else Revert panic_overflow.

(** Calldata that does not decode to the declared unsigned type reverts. *)
Definition abi_uint (bits : Z) (x : Z) : Result unit :=
  require ((0 <=? x) && (x <? 2 ^ bits)) "abi decode".

(** ** Ledger data *)

Module Ledger.

Definition address := Z.

Inductive Tier := MICRO | SMALL | MEDIUM | LARGE | XLARGE.

Inductive Status := PROVISIONING | ACTIVE | SUSPENDED | TERMINATED.

#[global] Instance Tier_eq_dec : EqDecision Tier.
Proof. solve_decision. Defined.
#[global] Instance Status_eq_dec : EqDecision Status.
Proof. solve_decision. Defined.

Definition status_eqb (a b : Status) : bool := bool_decide (a = b).

Record VM := mkVM {
  tier : Tier;
  purchasedAt : Z;
  expiresAt : Z;
  durationMonths : Z;
  instanceId : string;
  ipAddress : string;
  status : Status;
  provisionedAt : Z;
  lastRenewal : Z
}.

(** What a storage slot that was never written, or was deleted, reads as. *)
Definition zeroVM : VM :=
  mkVM MICRO 0 0 0 "" "" PROVISIONING 0 0.

Definition GRACE_PERIOD : Z := 7 * 86400.
Definition SECONDS_PER_MONTH : Z := 2629800.

Definition TIER_MICRO_PRICE : Z := 5 * 10 ^ 6.
Definition TIER_SMALL_PRICE : Z := 10 * 10 ^ 6.
Definition TIER_MEDIUM_PRICE : Z := 25 * 10 ^ 6.
Definition TIER_LARGE_PRICE : Z := 50 * 10 ^ 6.
Definition TIER_XLARGE_PRICE : Z := 100 * 10 ^ 6.

Definition tier_index (t : Tier) : Z :=
  match t with MICRO => 0 | SMALL => 1 | MEDIUM => 2 | LARGE => 3 | XLARGE => 4 end.

(** The conversion [Tier(tier)] of a [uint8]; out of range it panics. *)
Definition Tier_of_uint (n : Z) : Result Tier :=
  if n =? 0 then Ok MICRO
  else if n =? 1 then Ok SMALL
  else if n =? 2 then Ok MEDIUM
  else if n =? 3 then Ok LARGE
  else if n =? 4 then Ok XLARGE
  else Revert "Panic(0x21)".

Definition _getTierPrice (t : Tier) : Z :=
  match t with
  | MICRO => TIER_MICRO_PRICE
  | SMALL => TIER_SMALL_PRICE
  | MEDIUM => TIER_MEDIUM_PRICE
  | LARGE => TIER_LARGE_PRICE
  | XLARGE => TIER_XLARGE_PRICE
  end.

(** *** The payment token

    [paymentToken] is an external ERC-20 contract; the ledger only uses
    [safeTransferFrom] (and [safeTransfer] in the emergency withdrawal).  Its
    book is modelled as balances and allowances with the standard checks. *)

Record Token := mkToken {
  balances : gmap Z Z;
  allowances : gmap (Z * Z) Z
}.

Definition balanceOf (t : Token) (a : address) : Z :=
  default 0 (balances t !! a).

Definition allowance (t : Token) (owner spender : address) : Z :=
  default 0 (allowances t !! (owner, spender)).

Definition move (t : Token) (from to : address) (amount : Z) : Token :=
  let b1 := <[from := balanceOf t from - amount]> (balances t) in
  let b2 := <[to := default 0 (b1 !! to) + amount]> b1 in
  mkToken b2 (allowances t).

Definition safeTransferFrom (t : Token) (spender from to : address) (amount : Z)
  : Result Token :=
  require (amount <=? allowance t from spender) "ERC20: insufficient allowance" ;;
  require (amount <=? balanceOf t from) "ERC20: transfer amount exceeds balance" ;;
  let t1 := move t from to amount in
  Ok (mkToken (balances t1)
              (<[(from, spender) := allowance t from spender - amount]> (allowances t1))).

Definition safeTransfer (t : Token) (from to : address) (amount : Z) : Result Token :=
  require (amount <=? balanceOf t from) "ERC20: transfer amount exceeds balance" ;;
  Ok (move t from to amount).

(** *** Contract storage *)

Record State := mkState {
  self : address;                 (* address(this) *)
  paymentToken : address;         (* immutable *)
  token : Token;                  (* the book of [paymentToken] *)
  treasury : address;
  provisioner : address;
  _tokenIdCounter : Z;
  vms : gmap Z VM;
  everProvisioned : gmap Z bool;
  _owners : gmap Z Z;             (* ERC721: token id to owner *)
  _owner : address;               (* Ownable: the contract's owner *)
  _paused : bool                  (* Pausable *)
}.

(** The context of one call. [accepts] is the answer of the receiver hook
    that [_safeMint] consults when the buyer is a contract. *)
Record Env := mkEnv {
  sender : address;
  now : Z;
  accepts : bool
}.

Inductive Event :=
| VMPurchased (tokenId : Z) (buyer : address) (t : Tier)
              (months : Z) (expires : Z) (cost : Z)
| VMProvisioned (tokenId : Z) (instance ip : string) (timestamp : Z)
| VMRenewed (tokenId : Z) (oldExpiresAt newExpiresAt : Z) (cost : Z)
| VMTerminated (tokenId : Z) (terminatedBy : address) (timestamp : Z)
| VMSuspended (tokenId : Z) (timestamp : Z)
| VMReactivated (tokenId : Z) (timestamp : Z)
| IPAddressUpdated (tokenId : Z) (oldIP newIP : string)
| TreasuryUpdated (oldTreasury newTreasury : address)
| ProvisionerUpdated (oldProvisioner newProvisioner : address)
| EmergencyWithdraw (tok : address) (amount : Z) (to : address)
| Transfer (from to : address) (tokenId : Z)
| OwnershipTransferred (previousOwner newOwner : address)
| Paused (account : address)
| Unpaused (account : address).

(** Storage accessors and single-field updates. *)

Definition vm_at (s : State) (tokenId : Z) : VM :=
  default zeroVM (vms s !! tokenId).

Definition everProvisioned_at (s : State) (tokenId : Z) : bool :=
  default false (everProvisioned s !! tokenId).

Definition _ownerOf (s : State) (tokenId : Z) : address :=
  default 0 (_owners s !! tokenId).

Definition _exists (s : State) (tokenId : Z) : bool :=
  negb (_ownerOf s tokenId =? 0).

Definition with_token (t : Token) (s : State) : State :=
  mkState (self s) (paymentToken s) t (treasury s) (provisioner s)
          (_tokenIdCounter s) (vms s) (everProvisioned s) (_owners s)
          (_owner s) (_paused s).

Definition with_treasury (a : address) (s : State) : State :=
  mkState (self s) (paymentToken s) (token s) a (provisioner s)
          (_tokenIdCounter s) (vms s) (everProvisioned s) (_owners s)
          (_owner s) (_paused s).

Definition with_provisioner (a : address) (s : State) : State :=
  mkState (self s) (paymentToken s) (token s) (treasury s) a
          (_tokenIdCounter s) (vms s) (everProvisioned s) (_owners s)
          (_owner s) (_paused s).

Definition with_counter (c : Z) (s : State) : State :=
  mkState (self s) (paymentToken s) (token s) (treasury s) (provisioner s)
          c (vms s) (everProvisioned s) (_owners s)
          (_owner s) (_paused s).

Definition with_vms (m : gmap Z VM) (s : State) : State :=
  mkState (self s) (paymentToken s) (token s) (treasury s) (provisioner s)
          (_tokenIdCounter s) m (everProvisioned s) (_owners s)
          (_owner s) (_paused s).

Definition with_everProvisioned (m : gmap Z bool) (s : State) : State :=
  mkState (self s) (paymentToken s) (token s) (treasury s) (provisioner s)
          (_tokenIdCounter s) (vms s) m (_owners s)
          (_owner s) (_paused s).

Definition with_owners (m : gmap Z Z) (s : State) : State :=
  mkState (self s) (paymentToken s) (token s) (treasury s) (provisioner s)
          (_tokenIdCounter s) (vms s) (everProvisioned s) m
          (_owner s) (_paused s).

Definition with_owner (a : address) (s : State) : State :=
  mkState (self s) (paymentToken s) (token s) (treasury s) (provisioner s)
          (_tokenIdCounter s) (vms s) (everProvisioned s) (_owners s)
          a (_paused s).

Definition with_paused (b : bool) (s : State) : State :=
  mkState (self s) (paymentToken s) (token s) (treasury s) (provisioner s)
          (_tokenIdCounter s) (vms s) (everProvisioned s) (_owners s)
          (_owner s) b.

(** [vms[tokenId] = v] and field assignments through [vms[tokenId].f = x]. *)
Definition store_vm (tokenId : Z) (v : VM) (s : State) : State :=
  with_vms (<[tokenId := v]> (vms s)) s.

Definition set_expiresAt (x : Z) (v : VM) : VM :=
  mkVM (tier v) (purchasedAt v) x (durationMonths v) (instanceId v)
       (ipAddress v) (status v) (provisionedAt v) (lastRenewal v).

Definition set_instanceId (x : string) (v : VM) : VM :=
  mkVM (tier v) (purchasedAt v) (expiresAt v) (durationMonths v) x
       (ipAddress v) (status v) (provisionedAt v) (lastRenewal v).

Definition set_ipAddress (x : string) (v : VM) : VM :=
  mkVM (tier v) (purchasedAt v) (expiresAt v) (durationMonths v) (instanceId v)
       x (status v) (provisionedAt v) (lastRenewal v).

Definition set_status (x : Status) (v : VM) : VM :=
  mkVM (tier v) (purchasedAt v) (expiresAt v) (durationMonths v) (instanceId v)
       (ipAddress v) x (provisionedAt v) (lastRenewal v).

Definition set_provisionedAt (x : Z) (v : VM) : VM :=
  mkVM (tier v) (purchasedAt v) (expiresAt v) (durationMonths v) (instanceId v)
       (ipAddress v) (status v) x (lastRenewal v).

Definition set_lastRenewal (x : Z) (v : VM) : VM :=
  mkVM (tier v) (purchasedAt v) (expiresAt v) (durationMonths v) (instanceId v)
       (ipAddress v) (status v) (provisionedAt v) x.

Definition update_vm (tokenId : Z) (f : VM -> VM) (s : State) : State :=
  store_vm tokenId (f (vm_at s tokenId)) s.

(** *** Modifiers and the inherited ERC-721 pieces *)

Definition whenNotPaused (s : State) : Result unit :=
  require (negb (_paused s)) "Pausable: paused".

Definition whenPaused (s : State) : Result unit :=
  require (_paused s) "Pausable: not paused".

Definition onlyOwner (e : Env) (s : State) : Result unit :=
  require (_owner s =? sender e) "Ownable: caller is not the owner".

Definition ownerOf (s : State) (tokenId : Z) : Result address :=
  require (negb (_ownerOf s tokenId =? 0)) "ERC721: invalid token ID" ;;
  Ok (_ownerOf s tokenId).

Definition _safeMint (to : address) (tokenId : Z) (e : Env) (s : State)
  : Result State :=
  require (negb (to =? 0)) "ERC721: mint to the zero address" ;;
  require (negb (_exists s tokenId)) "ERC721: token already minted" ;;
  let s1 := with_owners (<[tokenId := to]> (_owners s)) s in
  require (accepts e) "ERC721: transfer to non ERC721Receiver implementer" ;;
  Ok s1.

Definition _burn (tokenId : Z) (s : State) : State :=
  with_owners (delete tokenId (_owners s)) s.

(** *** The contract's functions

    Every function takes the call context and the storage and returns the new
    storage with the events it emitted, or reverts.  The [nonReentrant]
    modifier has no counterpart: a call is one atomic step here. *)

Definition constructor (_paymentToken _treasury _provisioner : address)
    (deployer this : address) (book : Token) : Result State :=
  require (negb (_paymentToken =? 0)) "Invalid payment token" ;;
  require (negb (_treasury =? 0)) "Invalid treasury" ;;
  require (negb (_provisioner =? 0)) "Invalid provisioner" ;;
  Ok (mkState this _paymentToken book _treasury _provisioner 0 ∅ ∅ ∅ deployer false).

Definition purchaseVM (tier durationMonths : Z) (e : Env) (s : State)
  : Result (Z * State * list Event) :=
  abi_uint 8 tier ;;
  abi_uint 256 durationMonths ;;
  whenNotPaused s ;;
  require (tier <=? tier_index XLARGE) "Invalid tier" ;;
  require ((0 <? durationMonths) && (durationMonths <=? 12))
          "Duration must be 1-12 months" ;;
  t ← Tier_of_uint tier;
  let monthlyPrice := _getTierPrice t in
  totalCost ← checked_mul monthlyPrice durationMonths;
  tok ← safeTransferFrom (token s) (self s) (sender e) (treasury s) totalCost;
  let s1 := with_token tok s in
  let tokenId := _tokenIdCounter s1 in
  next ← checked_add tokenId 1;
  let s2 := with_counter next s1 in
  s3 ← _safeMint (sender e) tokenId e s2;
  secs ← checked_mul durationMonths SECONDS_PER_MONTH;
  expiresAt ← checked_add (now e) secs;
  let s4 := store_vm tokenId
              (mkVM t (now e) expiresAt durationMonths "" "" PROVISIONING 0 (now e))
              s3 in
  Ok (tokenId, s4,
      [Transfer 0 (sender e) tokenId;
       VMPurchased tokenId (sender e) t durationMonths expiresAt totalCost]).

Definition setVMProvisioned (tokenId : Z) (instanceId ipAddress : string)
    (e : Env) (s : State) : Result (State * list Event) :=
  abi_uint 256 tokenId ;;
  require (sender e =? provisioner s) "Only provisioner" ;;
  require (_exists s tokenId) "VM does not exist" ;;
  require (status_eqb (status (vm_at s tokenId)) PROVISIONING)
          "VM already provisioned" ;;
  require (now e <? expiresAt (vm_at s tokenId)) "VM expired" ;;
  require (0 <? Z.of_nat (String.length instanceId)) "Invalid instance ID" ;;
  require (0 <? Z.of_nat (String.length ipAddress)) "Invalid IP address" ;;
  let s1 := update_vm tokenId (set_instanceId instanceId) s in
  let s2 := update_vm tokenId (set_ipAddress ipAddress) s1 in
  let s3 := update_vm tokenId (set_status ACTIVE) s2 in
  let s4 := update_vm tokenId (set_provisionedAt (now e)) s3 in
  let s5 := with_everProvisioned (<[tokenId := true]> (everProvisioned s4)) s4 in
  Ok (s5, [VMProvisioned tokenId instanceId ipAddress (now e)]).

Definition renewVM (tokenId additionalMonths : Z) (e : Env) (s : State)
  : Result (State * list Event) :=
  abi_uint 256 tokenId ;;
  abi_uint 256 additionalMonths ;;
  whenNotPaused s ;;
  require (_exists s tokenId) "VM does not exist" ;;
  o ← ownerOf s tokenId;
  require (o =? sender e) "Not VM owner" ;;
  require ((0 <? additionalMonths) && (additionalMonths <=? 12)) "Invalid duration" ;;
  require (negb (status_eqb (status (vm_at s tokenId)) TERMINATED)) "VM terminated" ;;
  let vm := vm_at s tokenId in
  deadline ← checked_add (expiresAt vm) GRACE_PERIOD;
  require (now e <? deadline) "VM expired beyond grace period" ;;
  let monthlyPrice := _getTierPrice (tier vm) in
  renewalCost ← checked_mul monthlyPrice additionalMonths;
  tok ← safeTransferFrom (token s) (self s) (sender e) (treasury s) renewalCost;
  let s1 := with_token tok s in
  let oldExpiresAt := expiresAt (vm_at s1 tokenId) in
  r ← (if expiresAt (vm_at s1 tokenId) <? now e then
         secs ← checked_mul additionalMonths SECONDS_PER_MONTH;
         newExpiresAt ← checked_add (now e) secs;
         let s2 := update_vm tokenId (set_expiresAt newExpiresAt) s1 in
         if status_eqb (status (vm_at s2 tokenId)) SUSPENDED
         then Ok (update_vm tokenId (set_status ACTIVE) s2,
                  [VMReactivated tokenId (now e)])
         else Ok (s2, [])
       else
         secs ← checked_mul additionalMonths SECONDS_PER_MONTH;
         newExpiresAt ← checked_add (expiresAt (vm_at s1 tokenId)) secs;
         Ok (update_vm tokenId (set_expiresAt newExpiresAt) s1, []));
  let s3 := update_vm tokenId (set_lastRenewal (now e)) (fst r) in
  Ok (s3, (snd r ++
           [VMRenewed tokenId oldExpiresAt (expiresAt (vm_at s3 tokenId)) renewalCost])%list).

Definition terminateVM (tokenId : Z) (e : Env) (s : State)
  : Result (State * list Event) :=
  abi_uint 256 tokenId ;;
  require (_exists s tokenId) "VM does not exist" ;;
  o ← ownerOf s tokenId;
  require (o =? sender e) "Not VM owner" ;;
  require (negb (status_eqb (status (vm_at s tokenId)) TERMINATED))
          "Already terminated" ;;
  let s1 := update_vm tokenId (set_status TERMINATED) s in
  let s2 := _burn tokenId s1 in
  let s3 := with_vms (delete tokenId (vms s2)) s2 in
  Ok (s3, [VMTerminated tokenId (sender e) (now e); Transfer o 0 tokenId]).

Definition suspendVM (tokenId : Z) (e : Env) (s : State)
  : Result (State * list Event) :=
  abi_uint 256 tokenId ;;
  require (_exists s tokenId) "VM does not exist" ;;
  o ← ownerOf s tokenId;
  require ((sender e =? o) || (sender e =? provisioner s)) "Not authorized" ;;
  require (status_eqb (status (vm_at s tokenId)) ACTIVE) "VM not active" ;;
  Ok (update_vm tokenId (set_status SUSPENDED) s, [VMSuspended tokenId (now e)]).

Definition reactivateVM (tokenId : Z) (e : Env) (s : State)
  : Result (State * list Event) :=
  abi_uint 256 tokenId ;;
  require (_exists s tokenId) "VM does not exist" ;;
  o ← ownerOf s tokenId;
  require (o =? sender e) "Not VM owner" ;;
  require (status_eqb (status (vm_at s tokenId)) SUSPENDED) "VM not suspended" ;;
  require (now e <? expiresAt (vm_at s tokenId)) "VM expired, use renewVM" ;;
  Ok (update_vm tokenId (set_status ACTIVE) s, [VMReactivated tokenId (now e)]).

Definition updateIPAddress (tokenId : Z) (newIP : string) (e : Env) (s : State)
  : Result (State * list Event) :=
  abi_uint 256 tokenId ;;
  require (sender e =? provisioner s) "Only provisioner" ;;
  require (_exists s tokenId) "VM does not exist" ;;
  require (negb (status_eqb (status (vm_at s tokenId)) TERMINATED)) "VM terminated" ;;
  require (0 <? Z.of_nat (String.length newIP)) "Invalid IP" ;;
  let oldIP := ipAddress (vm_at s tokenId) in
  Ok (update_vm tokenId (set_ipAddress newIP) s, [IPAddressUpdated tokenId oldIP newIP]).

Definition setTreasury (newTreasury : address) (e : Env) (s : State)
  : Result (State * list Event) :=
  onlyOwner e s ;;
  require (negb (newTreasury =? 0)) "Invalid address" ;;
  Ok (with_treasury newTreasury s, [TreasuryUpdated (treasury s) newTreasury]).

Definition setProvisioner (newProvisioner : address) (e : Env) (s : State)
  : Result (State * list Event) :=
  onlyOwner e s ;;
  require (negb (newProvisioner =? 0)) "Invalid address" ;;
  Ok (with_provisioner newProvisioner s,
      [ProvisionerUpdated (provisioner s) newProvisioner]).

Definition pause (e : Env) (s : State) : Result (State * list Event) :=
  onlyOwner e s ;;
  whenNotPaused s ;;
  Ok (with_paused true s, [Paused (sender e)]).

Definition unpause (e : Env) (s : State) : Result (State * list Event) :=
  onlyOwner e s ;;
  whenPaused s ;;
  Ok (with_paused false s, [Unpaused (sender e)]).

(** Ether and tokens other than [paymentToken] are outside the storage
    modelled here; withdrawing them changes nothing in it. *)
Definition emergencyWithdraw (tok : address) (amount : Z) (e : Env) (s : State)
  : Result (State * list Event) :=
  abi_uint 256 amount ;;
  onlyOwner e s ;;
  let recipient := _owner s in
  s1 ← (if tok =? 0 then Ok s
        else if tok =? paymentToken s then
          book ← safeTransfer (token s) (self s) recipient amount;
          Ok (with_token book s)
        else Ok s);
  Ok (s1, [EmergencyWithdraw tok amount recipient]).

(** *** Views *)

Record Details := mkDetails {
  d_currentOwner : address;
  d_tier : Tier;
  d_purchasedAt : Z;
  d_expiresAt : Z;
  d_durationMonths : Z;
  d_instanceId : string;
  d_ipAddress : string;
  d_status : Status;
  d_active : bool
}.

Definition getVMDetails (tokenId : Z) (e : Env) (s : State) : Result Details :=
  require (_exists s tokenId) "VM does not exist" ;;
  let vm := vm_at s tokenId in
  let isActive := (now e <? expiresAt vm) && status_eqb (status vm) ACTIVE in
  o ← ownerOf s tokenId;
  Ok (mkDetails o (tier vm) (purchasedAt vm) (expiresAt vm) (durationMonths vm)
                (instanceId vm) (ipAddress vm) (status vm) isActive).

Definition isVMExpired (tokenId : Z) (e : Env) (s : State) : Result bool :=
  require (_exists s tokenId) "VM does not exist" ;;
  Ok (expiresAt (vm_at s tokenId) <=? now e).

Definition isInGracePeriod (tokenId : Z) (e : Env) (s : State) : Result bool :=
  require (_exists s tokenId) "VM does not exist" ;;
  if expiresAt (vm_at s tokenId) <=? now e then
    deadline ← checked_add (expiresAt (vm_at s tokenId)) GRACE_PERIOD;
    Ok (now e <? deadline)
  else Ok false.

(** *** Inherited entry points

    [transferFrom] of ERC-721 moves a token to another owner.  Who may call
    it (the owner, or an address it approved) is not modelled: the step is
    allowed for every caller, which only enlarges the set of reachable
    storages.  [transferOwnership] and [renounceOwnership] are Ownable's. *)

Definition transferFrom (from to : address) (tokenId : Z) (e : Env) (s : State)
  : Result (State * list Event) :=
  o ← ownerOf s tokenId;
  require (o =? from) "ERC721: transfer from incorrect owner" ;;
  require (negb (to =? 0)) "ERC721: transfer to the zero address" ;;
  Ok (with_owners (<[tokenId := to]> (_owners s)) s, [Transfer from to tokenId]).

Definition transferOwnership (newOwner : address) (e : Env) (s : State)
  : Result (State * list Event) :=
  onlyOwner e s ;;
  require (negb (newOwner =? 0)) "Ownable: new owner is the zero address" ;;
  Ok (with_owner newOwner s, [OwnershipTransferred (_owner s) newOwner]).

Definition renounceOwnership (e : Env) (s : State) : Result (State * list Event) :=
  onlyOwner e s ;;
  Ok (with_owner 0 s, [OwnershipTransferred (_owner s) 0]).

(** *** Transactions and reachable storages *)

Inductive Call :=
| CallPurchaseVM (tier durationMonths : Z)
| CallSetVMProvisioned (tokenId : Z) (instanceId ipAddress : string)
| CallRenewVM (tokenId additionalMonths : Z)
| CallTerminateVM (tokenId : Z)
| CallSuspendVM (tokenId : Z)
| CallReactivateVM (tokenId : Z)
| CallUpdateIPAddress (tokenId : Z) (newIP : string)
| CallSetTreasury (a : address)
| CallSetProvisioner (a : address)
| CallPause
| CallUnpause
| CallEmergencyWithdraw (tok : address) (amount : Z)
| CallTransferFrom (from to : address) (tokenId : Z)
| CallTransferOwnership (a : address)
| CallRenounceOwnership
| TokenActivity (book : Token).   (* anything that happens on the token alone *)

Definition call (c : Call) (e : Env) (s : State) : Result (State * list Event) :=
  match c with
  | CallPurchaseVM t d =>
      r ← purchaseVM t d e s; Ok (snd (fst r), snd r)
  | CallSetVMProvisioned i a b => setVMProvisioned i a b e s
  | CallRenewVM i m => renewVM i m e s
  | CallTerminateVM i => terminateVM i e s
  | CallSuspendVM i => suspendVM i e s
  | CallReactivateVM i => reactivateVM i e s
  | CallUpdateIPAddress i ip => updateIPAddress i ip e s
  | CallSetTreasury a => setTreasury a e s
  | CallSetProvisioner a => setProvisioner a e s
  | CallPause => pause e s
  | CallUnpause => unpause e s
  | CallEmergencyWithdraw t a => emergencyWithdraw t a e s
  | CallTransferFrom f t i => transferFrom f t i e s
  | CallTransferOwnership a => transferOwnership a e s
  | CallRenounceOwnership => renounceOwnership e s
  | TokenActivity book => Ok (with_token book s, [])
  end.

(** A transaction commits the storage of a call that returned and keeps the
    old storage, with no event, when the call reverted. *)
Definition transact (c : Call) (e : Env) (s : State) : State * list Event :=
  match call c e s with
  | Ok r => r
  | Revert _ => (s, [])
  end.

Fixpoint run (txs : list (Call * Env)) (s : State) : State :=
  match txs with
  | [] => s
  | (c, e) :: rest => run rest (fst (transact c e s))
  end.

(** Storages that a deployment followed by any transactions can produce. *)
Definition reachable (s : State) : Prop :=
  ∃ pt tr pr deployer this book s0 txs,
    constructor pt tr pr deployer this book = Ok s0 ∧ s = run txs s0.

(** *** Invariants of the storage

    Token ids below the counter are the only ones that were ever minted or
    provisioned; a record is stored only for an existing token; and a token
    that exists and was provisioned is past [PROVISIONING]. *)

Record Inv (s : State) : Prop := mkInv {
  inv_counter : 0 ≤ _tokenIdCounter s;
  inv_exists : ∀ id, _exists s id = true → id < _tokenIdCounter s;
  inv_ever : ∀ id, everProvisioned_at s id = true → id < _tokenIdCounter s;
  inv_vms : ∀ id, is_Some (vms s !! id) → _exists s id = true;
  inv_once : ∀ id, everProvisioned_at s id = true → _exists s id = true →
                   status (vm_at s id) ≠ PROVISIONING
}.


End Ledger.

(** ** The backend: event listener and provisioner

    The JavaScript code talks to the cloud provider, to the chain and to the
    clock.  These are a record of [Services] over an arbitrary world [W]; the
    code is a state-and-exception computation over the world that also keeps
    the [Effect]s it performed, in order.  [console.log] lines are left out,
    except the one that is the whole body of [updateVMStatus]. *)

Module Backend.

(** What a request to the outside world answers. *)
Inductive Answer (A : Type) : Type :=
| Returns (a : A)
| Throws (message : string).
Arguments Returns {A} a.
Arguments Throws {A} message.

(** How a piece of code completes.  [OutOfFuel] is the model's own: the
    unfolding of a loop was cut short (see [poll]). *)
Inductive Completion (A : Type) : Type :=
| Normal (a : A)
| Throw (message : string)
| OutOfFuel.
Arguments Normal {A} a.
Arguments Throw {A} message.
Arguments OutOfFuel {A}.

Definition answered {A} (x : Answer A) : Completion A :=
  match x with
  | Returns a => Normal a
  | Throws message => Throw message
  end.

Record MachineConfig := mkMachineConfig {
  machine : string;      (* machineType on GCP, instanceType on AWS *)
  diskSizeGb : Z
}.

Record TierConfig := mkTierConfig {
  gcp : MachineConfig;
  aws : MachineConfig
}.

Definition VM_CONFIGS (tier : string) : option TierConfig :=
  if String.eqb tier "MICRO" then
    Some (mkTierConfig (mkMachineConfig "e2-micro" 20) (mkMachineConfig "t3.micro" 20))
  else if String.eqb tier "SMALL" then
    Some (mkTierConfig (mkMachineConfig "e2-small" 40) (mkMachineConfig "t3.small" 40))
  else if String.eqb tier "MEDIUM" then
    Some (mkTierConfig (mkMachineConfig "e2-medium" 80) (mkMachineConfig "t3.medium" 80))
  else if String.eqb tier "LARGE" then
    Some (mkTierConfig (mkMachineConfig "e2-standard-4" 160) (mkMachineConfig "t3.large" 160))
  else if String.eqb tier "XLARGE" then
    Some (mkTierConfig (mkMachineConfig "e2-standard-8" 320) (mkMachineConfig "t3.xlarge" 320))
  else None.

Definition TIER_NAMES : list string := ["MICRO"; "SMALL"; "MEDIUM"; "LARGE"; "XLARGE"].

(** [TIER_NAMES[tier]]: [undefined] outside the array. *)
Definition tier_name (tier : Z) : option string :=
  if tier <? 0 then None else TIER_NAMES !! Z.to_nat tier.

(** A creation request, with the fields the code derives from its inputs:
    the instance name, the machine and disk of the tier, the public key that
    the startup script installs, and the labels. *)
Record CreateRequest := mkCreateRequest {
  req_name : string;
  req_machine : string;
  req_diskSizeGb : Z;
  req_publicKey : string;
  req_tokenId : string;
  req_tier : string;
  req_buyer : string
}.

Record StatusUpdate := mkStatusUpdate {
  su_status : string;
  su_instanceId : option string;
  su_ipAddress : option string;
  su_provider : option string;
  su_sshPrivateKey : option string;
  su_error : option string
}.

Inductive Effect :=
| GenerateKeyPair
| GcpCreateVM (r : CreateRequest)
| GcpOperationPromise
| GcpGetMetadata (vmName : string)
| AwsRunInstances (r : CreateRequest)
| Sleep (ms : Z)
| AwsDescribeInstances (instance : string)
| ContractSetVMProvisioned (tokenId : Z) (instance : string) (ip : option string)
| TxWait
| StatusLogged (tokenId : string) (u : StatusUpdate).

Record ProvisionResult := mkProvisionResult {
  success : bool;
  instanceId : option string;
  ipAddress : option string;
  provider : option string;
  sshPrivateKey : option string;
  error : option string
}.

(** [!publicIP] for a value that is a string or [undefined]. *)
Definition falsy (x : option string) : bool :=
  match x with
  | None => true
  | Some v => String.eqb v ""
  end.

Section Code.

Context {W : Type}.

(** What the outside world answers.  A request to the provider or to the
    chain returns or throws, and may change the world either way. *)
Record Services := mkServices {
  generateKeyPairSync : W → (string * string) * W;
  gcp_createVM : CreateRequest → W → Answer unit * W;
  gcp_operation_promise : W → Answer unit * W;
  gcp_getMetadata : string → W → Answer (option string) * W;
  ec2_RunInstances : CreateRequest → W → Answer string * W;
  ec2_DescribeInstances : string → W → Answer (option string) * W;
  setTimeout : Z → W → W;
  contract_setVMProvisioned : Z → string → option string → W → Answer unit * W;
  tx_wait : W → Answer unit * W
}.

Variable svc : Services.

(** [process.env.PREFERRED_PROVIDER] *)
Variable PREFERRED_PROVIDER : option string.

Definition St : Type := W * list Effect.

Definition M (A : Type) : Type := St → Completion A * St.

Definition ret {A} (a : A) : M A := fun st => (Normal a, st).

Definition bind {A B} (m : M A) (f : A → M B) : M B := fun st =>
  match m st with
  | (Normal a, st') => f a st'
  | (Throw msg, st') => (Throw msg, st')
  | (OutOfFuel, st') => (OutOfFuel, st')
  end.

Definition throw {A} (msg : string) : M A := fun st => (Throw msg, st).

Definition try_catch {A} (body : M A) (handler : string → M A) : M A := fun st =>
  match body st with
  | (Throw msg, st') => handler msg st'
  | r => r
  end.

Definition perform {A} (ev : Effect) (f : W → Answer A * W) : M A := fun st =>
  (answered (fst (f (fst st))), (snd (f (fst st)), (snd st ++ [ev])%list)).

Notation "x <- m ;; k" := (bind m (fun x => k))
  (at level 100, m at next level, right associativity).
Notation "m ;;; k" := (bind m (fun _ => k))
  (at level 100, right associativity).

Definition generateSSHKeyPair : M (string * string) :=
  perform GenerateKeyPair (fun w =>
    (Returns (fst (generateKeyPairSync svc w)), snd (generateKeyPairSync svc w))).

Definition lookup_config (tier : option string) : M TierConfig :=
  match tier with
  | None => throw "Cannot read properties of undefined"
  | Some t =>
      match VM_CONFIGS t with
      | None => throw "Cannot read properties of undefined"
      | Some c => ret c
      end
  end.

Definition provisionGCP (tokenId : string) (tier : option string) (buyer : string)
  : M ProvisionResult :=
  c <- lookup_config tier ;;
  let config := gcp c in
  let vmName := "clawcloud-" +:+ tokenId in
  k <- generateSSHKeyPair ;;
  let vmConfig := mkCreateRequest vmName (machine config) (diskSizeGb config)
                    (fst k) tokenId (default "" tier) buyer in
  perform (GcpCreateVM vmConfig) (gcp_createVM svc vmConfig) ;;;
  perform GcpOperationPromise (gcp_operation_promise svc) ;;;
  externalIP <- perform (GcpGetMetadata vmName) (gcp_getMetadata svc vmName) ;;
  ret (mkProvisionResult true (Some vmName) externalIP (Some "gcp") (Some (snd k)) None).

(** The loop [while (!publicIP && attempts < 30)].  [fuel] bounds the
    unfolding of the loop in this definition only. *)
Fixpoint poll (fuel : nat) (instance : string) (publicIP : option string)
    (attempts : Z) : M (option string) :=
  if falsy publicIP && (attempts <? 30) then
    match fuel with
    | O => fun st => (OutOfFuel, st)
    | S fuel' =>
        perform (Sleep 2000) (fun w => (Returns tt, setTimeout svc 2000 w)) ;;;
        ip <- perform (AwsDescribeInstances instance)
                      (ec2_DescribeInstances svc instance) ;;
        poll fuel' instance ip (attempts + 1)
    end
  else ret publicIP.

Definition provisionAWS (fuel : nat) (tokenId : string) (tier : option string)
    (buyer : string) : M ProvisionResult :=
  c <- lookup_config tier ;;
  let config := aws c in
  k <- generateSSHKeyPair ;;
  let command := mkCreateRequest ("clawcloud-" +:+ tokenId) (machine config)
                   (diskSizeGb config) (fst k) tokenId (default "" tier) buyer in
  instance <- perform (AwsRunInstances command) (ec2_RunInstances svc command) ;;
  publicIP <- poll fuel instance None 0 ;;
  if falsy publicIP then throw "Failed to get public IP for instance"
  else ret (mkProvisionResult true (Some instance) publicIP (Some "aws")
                              (Some (snd k)) None).

Definition provisionVM (fuel : nat) (tokenId : string) (buyer : string)
    (tier : option string) : M ProvisionResult :=
  try_catch
    (let provider :=
       if falsy PREFERRED_PROVIDER then "gcp" else default "" PREFERRED_PROVIDER in
     if String.eqb provider "gcp" then provisionGCP tokenId tier buyer
     else if String.eqb provider "aws" then provisionAWS fuel tokenId tier buyer
     else throw ("Unsupported provider: " +:+ provider))
    (fun message => ret (mkProvisionResult false None None None None (Some message))).

(** The body of [updateVMStatus] is one [console.log] of the update; nothing
    is stored and nothing is read back. *)
Definition updateVMStatus (tokenId : string) (u : StatusUpdate) : M unit :=
  fun st => (Normal tt, (fst st, (snd st ++ [StatusLogged tokenId u])%list)).

(** The handler of a Purchased event.  The arguments of the event are taken
    as the chain delivers them (a token id, a buyer, a tier index), so the
    logging lines ahead of the provisioning do not throw. *)
Definition handleVMPurchased (fuel : nat) (tokenId : Z) (buyer : string) (tier : Z)
  : M unit :=
  try_catch
    (provisionResult <- provisionVM fuel (pretty tokenId) buyer (tier_name tier) ;;
     if success provisionResult then
       perform (ContractSetVMProvisioned tokenId
                  (default "" (instanceId provisionResult)) (ipAddress provisionResult))
               (contract_setVMProvisioned svc tokenId
                  (default "" (instanceId provisionResult)) (ipAddress provisionResult)) ;;;
       perform TxWait (tx_wait svc) ;;;
       updateVMStatus (pretty tokenId)
         (mkStatusUpdate "running" (instanceId provisionResult)
            (ipAddress provisionResult) (provider provisionResult)
            (sshPrivateKey provisionResult) None)
     else
       updateVMStatus (pretty tokenId)
         (mkStatusUpdate "failed" None None None None (error provisionResult)))
    (fun message =>
       updateVMStatus (pretty tokenId)
         (mkStatusUpdate "error" None None None None (Some message))).

End Code.

(** Counting in a trace of effects. *)

Definition is_create (ev : Effect) : bool :=
  match ev with
  | GcpCreateVM _ | AwsRunInstances _ => true
  | _ => false
  end.

Definition is_describe (ev : Effect) : bool :=
  match ev with
  | AwsDescribeInstances _ => true
  | _ => false
  end.

Definition creations (tr : list Effect) : nat := length (List.filter is_create tr).

Definition describes (tr : list Effect) : nat :=
  length (List.filter is_describe tr).

Fixpoint rounds (n : nat) (instance : string) : list Effect :=
  match n with
  | O => []
  | S n' => Sleep 2000 :: AwsDescribeInstances instance :: rounds n' instance
  end.


End Backend.

(** ** Concrete worlds

    A small simulated world: the ledger above as the chain, and a cloud that
    keeps the instances it was asked to create.  It is used to run the
    listener end to end on concrete events. *)

Module Sim.
Import Backend.

Record World := mkWorld {
  ledger : Ledger.State;
  chain_now : Z;
  instances : list (string * CreateRequest);
  keys_made : nat;
  slept : Z
}.

Definition next_key (w : World) : (string * string) * World :=
  (("ssh-rsa-" +:+ pretty (Z.of_nat (keys_made w)),
    "private-" +:+ pretty (Z.of_nat (keys_made w))),
   mkWorld (ledger w) (chain_now w) (instances w) (S (keys_made w)) (slept w)).

(** EC2 starts a new instance for every request. *)
Definition run_instances (r : CreateRequest) (w : World) : Answer string * World :=
  let i := "i-" +:+ pretty (Z.of_nat (length (instances w))) in
  (Returns i,
   mkWorld (ledger w) (chain_now w) (instances w ++ [(i, r)])%list
           (keys_made w) (slept w)).

(** GCE refuses a second instance of the same name. *)
Definition create_vm (r : CreateRequest) (w : World) : Answer unit * World :=
  if existsb (fun x => String.eqb (fst x) (req_name r)) (instances w)
  then (Throws "already exists", w)
  else (Returns tt,
        mkWorld (ledger w) (chain_now w) (instances w ++ [(req_name r, r)])%list
                (keys_made w) (slept w)).

Definition sleep (ms : Z) (w : World) : World :=
  mkWorld (ledger w) (chain_now w) (instances w) (keys_made w) (slept w + ms).

(** The write-back is a transaction of the provisioner on the ledger. *)
Definition write_back (tokenId : Z) (instance : string) (ip : option string)
    (w : World) : Answer unit * World :=
  match ip with
  | None => (Throws "invalid string value", w)
  | Some a =>
      match Ledger.setVMProvisioned tokenId instance a
              (Ledger.mkEnv (Ledger.provisioner (ledger w)) (chain_now w) true)
              (ledger w) with
      | Ok r => (Returns tt,
                 mkWorld (fst r) (chain_now w) (instances w) (keys_made w) (slept w))
      | Revert reason => (Throws reason, w)
      end
  end.

(** A cloud that hands out an address at once. *)
Definition cloud_ready : @Services World :=
  mkServices next_key create_vm (fun w => (Returns tt, w))
    (fun _ w => (Returns (Some "203.0.113.7"), w))
    run_instances
    (fun _ w => (Returns (Some "203.0.113.7"), w))
    sleep write_back (fun w => (Returns tt, w)).

(** A cloud whose instances never get a public address. *)
Definition cloud_no_address : @Services World :=
  mkServices next_key create_vm (fun w => (Returns tt, w))
    (fun _ w => (Returns None, w))
    run_instances
    (fun _ w => (Returns None, w))
    sleep write_back (fun w => (Returns tt, w)).

(** A deployment with one funded buyer (address 100), and its first purchase. *)
Definition book0 : Ledger.Token :=
  Ledger.mkToken {[ 100 := 1000000000 ]} {[ (100, 999) := 1000000000 ]}.

Definition deployed : Ledger.State :=
  Ledger.mkState 999 55 book0 77 88 0 ∅ ∅ ∅ 1 false.

Definition buyer_env (t : Z) : Ledger.Env := Ledger.mkEnv 100 t true.

Definition provisioner_env (t : Z) : Ledger.Env := Ledger.mkEnv 88 t true.

Definition purchased : Ledger.State :=
  Ledger.run [(Ledger.CallPurchaseVM 2 3, buyer_env 1000)] deployed.

Definition provisioned : Ledger.State :=
  Ledger.run [(Ledger.CallPurchaseVM 2 3, buyer_env 1000);
              (Ledger.CallSetVMProvisioned 0 "i-0" "203.0.113.7", provisioner_env 2000)]
             deployed.

Definition suspended : Ledger.State :=
  Ledger.run [(Ledger.CallPurchaseVM 2 3, buyer_env 1000);
              (Ledger.CallSetVMProvisioned 0 "i-0" "203.0.113.7", provisioner_env 2000);
              (Ledger.CallSuspendVM 0, buyer_env 3000)]
             deployed.

Definition terminated : Ledger.State :=
  Ledger.run [(Ledger.CallPurchaseVM 2 3, buyer_env 1000);
              (Ledger.CallSetVMProvisioned 0 "i-0" "203.0.113.7", provisioner_env 2000);
              (Ledger.CallTerminateVM 0, buyer_env 4000)]
             deployed.

Definition world0 : World := mkWorld purchased 1500 [] 0 0.

(** Two deliveries of the one Purchased event of token 0. *)
Definition deliver_twice (svc : @Services World) (provider : option string)
  : Completion unit * (World * list Effect) :=
  let r1 := handleVMPurchased svc provider 30 0 "0x64" 2 (world0, []) in
  handleVMPurchased svc provider 30 0 "0x64" 2 (snd r1).

End Sim.

(** ** Facts about the ledger *)

Module LedgerProofs.
Import Ledger.

Lemma bind_Ok_inv {A B} (f : A → Result B) (m : Result A) (b : B) :
  m ≫= f = Ok b → ∃ a, m = Ok a ∧ f a = Ok b.
Proof. destruct m as [a|r]; [eauto | discriminate]. Qed.

Lemma require_Ok_inv (c : bool) (r : string) (u : unit) :
  require c r = Ok u → c = true.
Proof. by destruct c. Qed.

Lemma checked_add_Ok_inv a b c :
  checked_add a b = Ok c → c = a + b ∧ a + b ≤ MAX_UINT256.
Proof. unfold checked_add. destruct (Z.leb_spec (a + b) MAX_UINT256); naive_solver. Qed.

Lemma checked_mul_Ok_inv a b c :
  checked_mul a b = Ok c → c = a * b ∧ a * b ≤ MAX_UINT256.
Proof. unfold checked_mul. destruct (Z.leb_spec (a * b) MAX_UINT256); naive_solver. Qed.

Lemma ownerOf_Ok_inv s id o :
  ownerOf s id = Ok o → o = _ownerOf s id ∧ _exists s id = true.
Proof.
  unfold ownerOf, _exists. destruct (negb (_ownerOf s id =? 0)); cbn; [|discriminate].
  by intros [= <-].
Qed.

Lemma status_eqb_true a b : status_eqb a b = true ↔ a = b.
Proof. unfold status_eqb. apply bool_decide_eq_true. Qed.

Lemma status_eqb_false a b : status_eqb a b = false ↔ a ≠ b.
Proof. unfold status_eqb. apply bool_decide_eq_false. Qed.

(** Peel the successful binds off a hypothesis [H : ... = Ok _]. *)
Ltac bind_inv H :=
  repeat (cbv beta zeta in H;
          match type of H with
          | _ ≫= _ = Ok _ =>
              let x := fresh "x" in
              let E := fresh "E" in
              apply bind_Ok_inv in H as (x & E & H);
              first [ apply require_Ok_inv in E
                    | apply checked_add_Ok_inv in E as [-> E]
                    | apply checked_mul_Ok_inv in E as [-> E]
                    | apply ownerOf_Ok_inv in E as [-> E]
                    | unfold abi_uint, whenNotPaused, whenPaused, onlyOwner in E;
                      apply require_Ok_inv in E
                    | idtac ]
          end);
  cbv beta zeta in H.

(** Turn the boolean tests among the hypotheses into propositions. *)
Ltac bools :=
  repeat match goal with
  | H : _ && _ = true |- _ => apply andb_true_iff in H as [? ?]
  | H : _ || _ = true |- _ => apply orb_true_iff in H
  | H : negb _ = true |- _ => apply negb_true_iff in H
  | H : (_ <? _) = true |- _ => apply Z.ltb_lt in H
  | H : (_ <? _) = false |- _ => apply Z.ltb_ge in H
  | H : (_ <=? _) = true |- _ => apply Z.leb_le in H
  | H : (_ <=? _) = false |- _ => apply Z.leb_gt in H
  | H : (_ =? _) = true |- _ => apply Z.eqb_eq in H
  | H : (_ =? _) = false |- _ => apply Z.eqb_neq in H
  | H : status_eqb _ _ = true |- _ => apply status_eqb_true in H
  | H : status_eqb _ _ = false |- _ => apply status_eqb_false in H
  end.

(** Expose the maps behind the storage accessors. *)
Ltac storage :=
  unfold everProvisioned_at, _exists, _ownerOf, vm_at, update_vm, store_vm, _burn in *;
  cbn [self paymentToken token treasury provisioner _tokenIdCounter vms everProvisioned
       _owners _owner _paused with_token with_treasury with_provisioner with_counter
       with_vms with_everProvisioned with_owners with_owner with_paused] in *.

Lemma safeMint_Ok_inv to id e s s' :
  _safeMint to id e s = Ok s' →
  s' = with_owners (<[id := to]> (_owners s)) s ∧ to ≠ 0 ∧ _exists s id = false.
Proof.
  intros H. unfold _safeMint in H. bind_inv H. injection H as <-. by bools.
Qed.

(** *** Reading back what was written *)

Lemma vm_at_update_vm_eq id f s : vm_at (update_vm id f s) id = f (vm_at s id).
Proof. storage. by rewrite lookup_insert_eq. Qed.

Lemma vm_at_update_vm_ne id id' f s :
  id ≠ id' → vm_at (update_vm id f s) id' = vm_at s id'.
Proof. intros. storage. by rewrite lookup_insert_ne. Qed.

Lemma update_vm_update_vm id f g s :
  update_vm id f (update_vm id g s) = update_vm id (λ v, f (g v)) s.
Proof.
  unfold update_vm, store_vm, vm_at; cbn.
  by rewrite lookup_insert_eq, insert_insert_eq.
Qed.

(** *** The invariant holds in every reachable storage *)

Lemma Inv_constructor pt tr pr deployer this book s0 :
  constructor pt tr pr deployer this book = Ok s0 → Inv s0.
Proof.
  intros H. unfold constructor in H. bind_inv H. injection H as <-.
  split; storage; try done.
  intros id [v Hv]. by rewrite lookup_empty in Hv.
Qed.

Lemma Inv_frame s s' :
  _tokenIdCounter s' = _tokenIdCounter s → vms s' = vms s →
  everProvisioned s' = everProvisioned s → _owners s' = _owners s →
  Inv s → Inv s'.
Proof.
  intros Hc Hv He Ho [I1 I2 I3 I4 I5].
  split; storage; rewrite ?Hc, ?Hv, ?He, ?Ho; auto.
Qed.

Lemma Inv_update_vm id f s :
  _exists s id = true →
  (∀ v, status v ≠ PROVISIONING → status (f v) ≠ PROVISIONING) →
  Inv s → Inv (update_vm id f s).
Proof.
  intros Hex Hf [I1 I2 I3 I4 I5]. split; storage; auto.
  - intros i. rewrite lookup_insert. case_decide; subst; auto.
  - intros i Hev Hi. rewrite lookup_insert. case_decide; subst; cbn; auto.
    apply Hf. storage. auto.
Qed.

(** What a successful [purchaseVM] checked and wrote. *)
Lemma purchaseVM_Ok_inv t d e s id s' evs :
  purchaseVM t d e s = Ok (id, s', evs) →
  ∃ tr book,
    _paused s = false ∧ sender e ≠ 0 ∧ 0 ≤ t ≤ 4 ∧ 1 ≤ d ≤ 12 ∧
    Tier_of_uint t = Ok tr ∧
    safeTransferFrom (token s) (self s) (sender e) (treasury s)
      (_getTierPrice tr * d) = Ok book ∧
    id = _tokenIdCounter s ∧ _exists s id = false ∧
    s' = store_vm id
           (mkVM tr (now e) (now e + d * SECONDS_PER_MONTH) d "" "" PROVISIONING 0 (now e))
           (with_owners (<[id := sender e]> (_owners s))
              (with_counter (id + 1) (with_token book s))) ∧
    evs = [Transfer 0 (sender e) id;
           VMPurchased id (sender e) tr d (now e + d * SECONDS_PER_MONTH)
             (_getTierPrice tr * d)].
Proof.
  intros H. unfold purchaseVM in H. bind_inv H.
  match goal with
  | Hm : _safeMint _ _ _ _ = Ok _ |- _ =>
      apply safeMint_Ok_inv in Hm as (-> & Hto & Hfresh)
  end.
  injection H as <- <- <-.
  match goal with
  | Ht : Tier_of_uint _ = Ok ?tr, Hb : safeTransferFrom _ _ _ _ _ = Ok ?b |- _ =>
      exists tr, b
  end.
  bools. cbn in *. repeat split; try done; lia.
Qed.

Lemma Inv_purchaseVM t d e s r :
  Inv s → purchaseVM t d e s = Ok r → Inv (snd (fst r)).
Proof.
  intros [I1 I2 I3 I4 I5] H. destruct r as [[id s'] evs].
  apply purchaseVM_Ok_inv in H
    as (tr & book & _ & Hto & _ & _ & _ & _ & -> & Hfresh & -> & _).
  cbn [fst snd].
  split; storage.
  - lia.
  - intros id. rewrite lookup_insert. case_decide; [lia|].
    intros Hx. apply I2 in Hx. lia.
  - intros id Hx. apply I3 in Hx. lia.
  - intros id. rewrite !lookup_insert. case_decide; cbn.
    + subst id. intros _. destruct (Z.eqb_spec (sender e) 0) as [Hz|]; [|done].
      done.
    + apply I4.
  - intros id. rewrite !lookup_insert. case_decide; cbn.
    + subst id. intros Hx. apply I3 in Hx. lia.
    + apply I5.
Qed.

(** What a successful [setVMProvisioned] checked and wrote. *)
Lemma setVMProvisioned_Ok_inv id inst ip e s s' evs :
  setVMProvisioned id inst ip e s = Ok (s', evs) →
  sender e = provisioner s ∧ _exists s id = true ∧
  status (vm_at s id) = PROVISIONING ∧ now e < expiresAt (vm_at s id) ∧
  inst ≠ "" ∧ ip ≠ "" ∧
  s' = with_everProvisioned (<[id := true]> (everProvisioned s))
         (update_vm id (λ v, set_provisionedAt (now e)
              (set_status ACTIVE (set_ipAddress ip (set_instanceId inst v)))) s) ∧
  evs = [VMProvisioned id inst ip (now e)].
Proof.
  intros H. unfold setVMProvisioned in H. bind_inv H.
  injection H as <- <-.
  rewrite !update_vm_update_vm. bools.
  repeat split; try done.
  - intros ->. cbn in E4. lia.
  - intros ->. cbn in E5. lia.
Qed.

Lemma Inv_setVMProvisioned id inst ip e s s' evs :
  Inv s → setVMProvisioned id inst ip e s = Ok (s', evs) → Inv s'.
Proof.
  intros HI H.
  apply setVMProvisioned_Ok_inv in H as (_ & Hex & _ & _ & _ & _ & -> & _).
  pose proof (inv_exists _ HI id Hex) as Hlt.
  match goal with
  | |- Inv (with_everProvisioned _ ?s1) =>
      assert (Inv s1) as [I1 I2 I3 I4 I5]
        by (apply Inv_update_vm; [done | by intros v _ | done])
  end.
  split; auto.
  - intros i. storage. rewrite lookup_insert. case_decide; subst; cbn; auto.
  - intros i. storage. rewrite !lookup_insert.
    case_decide; subst; cbn; [done|].
    specialize (I5 i). by rewrite lookup_insert_ne in I5.
Qed.

(** What a successful [renewVM] checked and wrote. *)
Definition renewed (m : Z) (t : Z) (v : VM) : VM :=
  if expiresAt v <? t then
    set_lastRenewal t
      ((if status_eqb (status v) SUSPENDED then set_status ACTIVE else λ x, x)
         (set_expiresAt (t + m * SECONDS_PER_MONTH) v))
  else
    set_lastRenewal t (set_expiresAt (expiresAt v + m * SECONDS_PER_MONTH) v).

Lemma renewVM_Ok_inv id m e s s' evs :
  renewVM id m e s = Ok (s', evs) →
  ∃ book,
    _paused s = false ∧ _exists s id = true ∧ _ownerOf s id = sender e ∧
    1 ≤ m ≤ 12 ∧ status (vm_at s id) ≠ TERMINATED ∧
    now e < expiresAt (vm_at s id) + GRACE_PERIOD ∧
    safeTransferFrom (token s) (self s) (sender e) (treasury s)
      (_getTierPrice (tier (vm_at s id)) * m) = Ok book ∧
    s' = update_vm id (renewed m (now e)) (with_token book s) ∧
    In (VMRenewed id (expiresAt (vm_at s id)) (expiresAt (vm_at s' id))
          (_getTierPrice (tier (vm_at s id)) * m)) evs.
Proof.
  intros H. unfold renewVM in H. bind_inv H.
  match goal with
  | Hb : safeTransferFrom _ _ _ _ _ = Ok ?b |- _ => rename b into book
  end.
  match goal with
  | Hr : (if _ then _ else _) = Ok ?r |- _ => rename r into res; rename Hr into Hres
  end.
  injection H as <- <-. exists book.
  change (vm_at (with_token book s) id) with (vm_at s id) in *.
  assert (res.1 = update_vm id
            (λ v, if expiresAt v <? now e then
                    (if status_eqb (status v) SUSPENDED then set_status ACTIVE else λ x, x)
                      (set_expiresAt (now e + m * SECONDS_PER_MONTH) v)
                  else set_expiresAt (expiresAt v + m * SECONDS_PER_MONTH) v)
            (with_token book s)) as Hs.
  { destruct (expiresAt (vm_at s id) <? now e) eqn:Hexp.
    - bind_inv Hres. rewrite vm_at_update_vm_eq in Hres. cbn [status set_expiresAt] in Hres.
      change (vm_at (with_token book s) id) with (vm_at s id) in Hres.
      destruct (status_eqb (status (vm_at s id)) SUSPENDED) eqn:Hst;
        injection Hres as <-; cbn [fst]; rewrite ?update_vm_update_vm;
        unfold update_vm; f_equal;
        change (vm_at (with_token book s) id) with (vm_at s id);
        by rewrite Hexp, Hst.
    - bind_inv Hres. injection Hres as <-. cbn [fst].
      unfold update_vm; f_equal.
      change (vm_at (with_token book s) id) with (vm_at s id).
      by rewrite Hexp. }
  rewrite Hs, update_vm_update_vm.
  assert (update_vm id (λ v, set_lastRenewal (now e)
             (if expiresAt v <? now e then
                (if status_eqb (status v) SUSPENDED then set_status ACTIVE else λ x, x)
                  (set_expiresAt (now e + m * SECONDS_PER_MONTH) v)
              else set_expiresAt (expiresAt v + m * SECONDS_PER_MONTH) v))
            (with_token book s)
          = update_vm id (renewed m (now e)) (with_token book s)) as ->.
  { unfold update_vm, renewed. f_equal.
    by destruct (expiresAt (vm_at (with_token book s) id) <? now e). }
  bools. repeat split; try done; try lia.
  apply in_or_app. right. left. done.
Qed.

Lemma status_renewed m t v :
  status v ≠ PROVISIONING → status (renewed m t v) ≠ PROVISIONING.
Proof.
  unfold renewed. destruct (expiresAt v <? t); cbn; [|done].
  destruct (status_eqb (status v) SUSPENDED); cbn; done.
Qed.

Lemma Inv_renewVM id m e s s' evs :
  Inv s → renewVM id m e s = Ok (s', evs) → Inv s'.
Proof.
  intros HI H. apply renewVM_Ok_inv in H as (book & _ & Hex & _ & _ & _ & _ & _ & -> & _).
  apply Inv_update_vm; [done | apply status_renewed |].
  by apply (Inv_frame s).
Qed.

(** What a successful [terminateVM] checked and wrote. *)
Lemma terminateVM_Ok_inv id e s s' evs :
  terminateVM id e s = Ok (s', evs) →
  _exists s id = true ∧ _ownerOf s id = sender e ∧
  status (vm_at s id) ≠ TERMINATED ∧
  s' = with_vms (delete id (vms (_burn id (update_vm id (set_status TERMINATED) s))))
         (_burn id (update_vm id (set_status TERMINATED) s)) ∧
  evs = [VMTerminated id (sender e) (now e); Transfer (sender e) 0 id].
Proof.
  intros H. unfold terminateVM in H. bind_inv H.
  injection H as <- <-. bools. rewrite E2. done.
Qed.

Lemma terminateVM_frame id e s s' evs :
  terminateVM id e s = Ok (s', evs) →
  _tokenIdCounter s' = _tokenIdCounter s ∧
  everProvisioned s' = everProvisioned s ∧
  _owners s' = delete id (_owners s) ∧
  vms s' = delete id (vms s).
Proof.
  intros H. apply terminateVM_Ok_inv in H as (_ & _ & _ & -> & _).
  storage. repeat split; try done.
  by rewrite delete_insert_eq.
Qed.

Lemma Inv_terminateVM id e s s' evs :
  Inv s → terminateVM id e s = Ok (s', evs) → Inv s'.
Proof.
  intros [I1 I2 I3 I4 I5] H.
  apply terminateVM_frame in H as (Hc & He & Ho & Hv).
  split; storage; rewrite ?Hc, ?He, ?Ho, ?Hv; auto.
  - intros i. rewrite lookup_delete. case_decide; cbn; [done | auto].
  - intros i. rewrite !lookup_delete. case_decide; cbn; [by intros [] | auto].
  - intros i. rewrite !lookup_delete. case_decide; cbn; [done | auto].
Qed.

Lemma Inv_transferFrom from to id e s s' evs :
  Inv s → transferFrom from to id e s = Ok (s', evs) → Inv s'.
Proof.
  intros [I1 I2 I3 I4 I5] H. unfold transferFrom in H. bind_inv H.
  injection H as <- <-. bools.
  assert (∀ i, _exists (with_owners (<[id:=to]> (_owners s)) s) i = _exists s i) as Hsame.
  { intros i. storage. rewrite lookup_insert. case_decide; subst; cbn; [|done].
    rewrite E. by destruct (Z.eqb_spec to 0). }
  split; [exact I1 | ..]; intros i; rewrite ?Hsame;
    [apply I2 | apply I3 | apply I4 | apply I5].
Qed.

Lemma Inv_call c e s s' evs : Inv s → call c e s = Ok (s', evs) → Inv s'.
Proof.
  intros HI H. destruct c; cbn [call] in H.
  - apply bind_Ok_inv in H as (r & Hr & H). injection H as <- <-.
    by eapply Inv_purchaseVM.
  - by eapply Inv_setVMProvisioned.
  - by eapply Inv_renewVM.
  - by eapply Inv_terminateVM.
  - unfold suspendVM in H. bind_inv H. injection H as <- <-.
    by apply Inv_update_vm.
  - unfold reactivateVM in H. bind_inv H. injection H as <- <-.
    by apply Inv_update_vm.
  - unfold updateIPAddress in H. bind_inv H. injection H as <- <-.
    by apply Inv_update_vm.
  - unfold setTreasury in H. bind_inv H. injection H as <- <-.
    by apply (Inv_frame s).
  - unfold setProvisioner in H. bind_inv H. injection H as <- <-.
    by apply (Inv_frame s).
  - unfold pause in H. bind_inv H. injection H as <- <-. by apply (Inv_frame s).
  - unfold unpause in H. bind_inv H. injection H as <- <-. by apply (Inv_frame s).
  - unfold emergencyWithdraw in H. bind_inv H. injection H as <- <-.
    destruct (tok =? 0); [by injection E1 as <-|].
    destruct (tok =? paymentToken s); [|by injection E1 as <-].
    bind_inv E1. injection E1 as <-. by apply (Inv_frame s).
  - by eapply Inv_transferFrom.
  - unfold transferOwnership in H. bind_inv H. injection H as <- <-.
    by apply (Inv_frame s).
  - unfold renounceOwnership in H. bind_inv H. injection H as <- <-.
    by apply (Inv_frame s).
  - injection H as <- <-. by apply (Inv_frame s).
Qed.

Lemma Inv_transact c e s : Inv s → Inv (fst (transact c e s)).
Proof.
  intros HI. unfold transact. destruct (call c e s) as [[s' evs]|r] eqn:H; [|done].
  by eapply Inv_call.
Qed.

Lemma Inv_run txs s : Inv s → Inv (run txs s).
Proof.
  revert s. induction txs as [|[c e] txs IH]; intros s HI; [done|].
  cbn [run]. apply IH. by apply Inv_transact.
Qed.

Lemma reachable_Inv s : reachable s → Inv s.
Proof.
  intros (pt & tr & pr & deployer & this & book & s0 & txs & H0 & ->).
  apply Inv_run. by eapply Inv_constructor.
Qed.

Lemma reachable_run txs s : reachable s → reachable (run txs s).
Proof.
  intros (pt & tr & pr & deployer & this & book & s0 & txs0 & H0 & ->).
  exists pt, tr, pr, deployer, this, book, s0, (txs0 ++ txs)%list.
  split; [done|]. clear H0. revert s0.
  induction txs0 as [|[c e] txs0 IH]; intros s0; [done|]. cbn. apply IH.
Qed.

(** *** A terminated id stays gone *)





(** *** The provisioned flag is only ever set *)

Lemma call_everProvisioned c e s s' evs :
  call c e s = Ok (s', evs) →
  everProvisioned s' = everProvisioned s ∨
  ∃ i, everProvisioned s' = <[i := true]> (everProvisioned s).
Proof.
  intros H. destruct c; cbn [call] in H.
  - apply bind_Ok_inv in H as ([[i s1] evs1] & Hr & H). injection H as <- <-.
    apply purchaseVM_Ok_inv in Hr
      as (tr & book & _ & _ & _ & _ & _ & _ & -> & _ & -> & _).
    by left.
  - apply setVMProvisioned_Ok_inv in H as (_ & _ & _ & _ & _ & _ & -> & _).
    right. by exists tokenId.
  - apply renewVM_Ok_inv in H as (book & _ & _ & _ & _ & _ & _ & _ & -> & _). by left.
  - apply terminateVM_frame in H as (_ & He & _). by left.
  - unfold suspendVM in H. bind_inv H. injection H as <- <-. by left.
  - unfold reactivateVM in H. bind_inv H. injection H as <- <-. by left.
  - unfold updateIPAddress in H. bind_inv H. injection H as <- <-. by left.
  - unfold setTreasury in H. bind_inv H. injection H as <- <-. by left.
  - unfold setProvisioner in H. bind_inv H. injection H as <- <-. by left.
  - unfold pause in H. bind_inv H. injection H as <- <-. by left.
  - unfold unpause in H. bind_inv H. injection H as <- <-. by left.
  - unfold emergencyWithdraw in H. bind_inv H. injection H as <- <-.
    match goal with Hs : (if _ then _ else _) = Ok _ |- _ => rename Hs into Hw end.
    destruct (tok =? 0); [injection Hw as <-; by left|].
    destruct (tok =? paymentToken s); [|injection Hw as <-; by left].
    bind_inv Hw. injection Hw as <-. by left.
  - unfold transferFrom in H. bind_inv H. injection H as <- <-. by left.
  - unfold transferOwnership in H. bind_inv H. injection H as <- <-. by left.
  - unfold renounceOwnership in H. bind_inv H. injection H as <- <-. by left.
  - injection H as <- <-. by left.
Qed.

Lemma sticky_transact id c e s :
  everProvisioned_at s id = true → everProvisioned_at (fst (transact c e s)) id = true.
Proof.
  intros Hev. unfold transact.
  destruct (call c e s) as [[s' evs]|r] eqn:H; [|done]. cbn [fst].
  apply call_everProvisioned in H as [He|[i He]]; unfold everProvisioned_at in *;
    rewrite He; [done|].
  rewrite lookup_insert. by case_decide.
Qed.

Lemma sticky_run id txs s :
  everProvisioned_at s id = true → everProvisioned_at (run txs s) id = true.
Proof.
  revert s. induction txs as [|[c e] txs IH]; intros s Hev; [done|].
  cbn [run]. apply IH. by apply sticky_transact.
Qed.

(** *** Rejected calls *)

Lemma transact_rejected c e s :
  is_ok (call c e s) = false → transact c e s = (s, []).
Proof. unfold transact. by destruct (call c e s). Qed.

Lemma setVMProvisioned_rejected id inst ip e s :
  _exists s id = false ∨ status (vm_at s id) ≠ PROVISIONING →
  is_ok (setVMProvisioned id inst ip e s) = false.
Proof.
  intros Hno. destruct (setVMProvisioned id inst ip e s) as [[s' evs]|r] eqn:H; [|done].
  apply setVMProvisioned_Ok_inv in H as (_ & Hex & Hst & _).
  destruct Hno; congruence.
Qed.


(** *** Calls that go through *)

Lemma bind_Ok {A B} (f : A → Result B) (a : A) : Ok a ≫= f = f a.
Proof. reflexivity. Qed.

Lemma require_true c r : c = true → require c r = Ok tt.
Proof. by intros ->. Qed.

Lemma checked_add_fits a b : a + b ≤ MAX_UINT256 → checked_add a b = Ok (a + b).
Proof. intros H. unfold checked_add. by destruct (Z.leb_spec (a + b) MAX_UINT256); [|lia]. Qed.

Lemma checked_mul_fits a b : a * b ≤ MAX_UINT256 → checked_mul a b = Ok (a * b).
Proof. intros H. unfold checked_mul. by destruct (Z.leb_spec (a * b) MAX_UINT256); [|lia]. Qed.

Lemma tier_price_fits tr d : 1 ≤ d ≤ 12 → 0 < _getTierPrice tr * d ≤ 1200000000.
Proof.
  intros Hd.
  assert (0 < _getTierPrice tr ≤ 100000000) by (destruct tr; by vm_compute).
  nia.
Qed.

Lemma Tier_of_uint_total t : 0 ≤ t ≤ 4 → ∃ tr, Tier_of_uint t = Ok tr ∧ tier_index tr = t.
Proof.
  intros Ht. assert (t = 0 ∨ t = 1 ∨ t = 2 ∨ t = 3 ∨ t = 4) as Hc by lia.
  destruct Hc as [->|[->|[->|[->| ->]]]]; eexists; split; reflexivity.
Qed.

(** A purchase with valid arguments and a payment that can be captured goes
    through, and takes the current counter as its id. *)
Lemma purchaseVM_succeeds t d e s tr :
  reachable s → _paused s = false → 0 ≤ t ≤ 4 → 1 ≤ d ≤ 12 →
  Tier_of_uint t = Ok tr →
  is_ok (safeTransferFrom (token s) (self s) (sender e) (treasury s)
           (_getTierPrice tr * d)) = true →
  sender e ≠ 0 → accepts e = true →
  _tokenIdCounter s + 1 ≤ MAX_UINT256 → now e + d * SECONDS_PER_MONTH ≤ MAX_UINT256 →
  ∃ s' evs, purchaseVM t d e s = Ok (_tokenIdCounter s, s', evs).
Proof.
  intros Hreach Hp Ht Hd Htr Hpay Hsender Hacc Hctr Hnow.
  apply reachable_Inv in Hreach as [I1 I2 I3 I4 I5].
  assert (_exists s (_tokenIdCounter s) = false) as Hfresh.
  { destruct (_exists s (_tokenIdCounter s)) eqn:Hex; [|done]. apply I2 in Hex. lia. }
  destruct (safeTransferFrom (token s) (self s) (sender e) (treasury s)
              (_getTierPrice tr * d)) as [book|r] eqn:Hbook; [|done].
  pose proof (tier_price_fits tr d Hd) as Hprice.
  assert (1200000000 < MAX_UINT256) as Hmax by done.
  assert (4 < 2 ^ 8) as H8 by done.
  assert (1200000000 < 2 ^ 256) as H256 by done.
  unfold MAX_UINT256 in *.
  unfold purchaseVM, abi_uint, whenNotPaused.
  rewrite Hp, Htr.
  rewrite (require_true ((0 <=? t) && (t <? 2 ^ 8))), bind_Ok
    by (apply andb_true_iff; rewrite Z.leb_le, Z.ltb_lt; lia).
  rewrite (require_true ((0 <=? d) && (d <? 2 ^ 256))), bind_Ok
    by (apply andb_true_iff; rewrite Z.leb_le, Z.ltb_lt; lia).
  cbn [negb require]. rewrite bind_Ok.
  rewrite (require_true (t <=? tier_index XLARGE)), bind_Ok
    by (apply Z.leb_le; cbn; lia).
  rewrite (require_true ((0 <? d) && (d <=? 12))), !bind_Ok
    by (apply andb_true_iff; rewrite Z.ltb_lt, Z.leb_le; lia).
  rewrite (checked_mul_fits (_getTierPrice tr) d), bind_Ok
    by (unfold MAX_UINT256; lia).
  rewrite Hbook, bind_Ok. cbv zeta.
  change (_tokenIdCounter (with_token book s)) with (_tokenIdCounter s).
  rewrite (checked_add_fits (_tokenIdCounter s) 1), bind_Ok
    by (unfold MAX_UINT256; lia).
  unfold _safeMint.
  rewrite (require_true (negb (sender e =? 0))), bind_Ok
    by (apply negb_true_iff, Z.eqb_neq; done).
  rewrite (require_true (negb (_exists _ _))), bind_Ok
    by (apply negb_true_iff; exact Hfresh).
  rewrite Hacc. cbn [require]. rewrite !bind_Ok.
  rewrite checked_mul_fits, bind_Ok
    by (unfold MAX_UINT256, SECONDS_PER_MONTH; lia).
  rewrite checked_add_fits, bind_Ok by (unfold MAX_UINT256; lia).
  eauto.
Qed.

(** A renewal by the owner, inside the grace period and with a payment
    that can be captured, goes through. *)
Lemma renewVM_succeeds id m e s :
  _paused s = false → 0 ≤ id < 2 ^ 256 →
  _exists s id = true → _ownerOf s id = sender e → 1 ≤ m ≤ 12 →
  status (vm_at s id) ≠ TERMINATED →
  now e < expiresAt (vm_at s id) + GRACE_PERIOD →
  is_ok (safeTransferFrom (token s) (self s) (sender e) (treasury s)
           (_getTierPrice (tier (vm_at s id)) * m)) = true →
  now e + 12 * SECONDS_PER_MONTH ≤ MAX_UINT256 →
  expiresAt (vm_at s id) + 12 * SECONDS_PER_MONTH ≤ MAX_UINT256 →
  is_ok (renewVM id m e s) = true.
Proof.
  intros Hp Hid Hex Hown Hm Hst Hgrace Hpay Hnow Hexp.
  destruct (safeTransferFrom (token s) (self s) (sender e) (treasury s)
              (_getTierPrice (tier (vm_at s id)) * m)) as [book|r] eqn:Hbook; [|done].
  pose proof (tier_price_fits (tier (vm_at s id)) m Hm) as Hprice.
  assert (1200000000 < 2 ^ 256) as H256 by done.
  unfold renewVM, abi_uint, whenNotPaused, ownerOf.
  rewrite Hp. fold (_exists s id). rewrite Hex.
  rewrite (require_true ((0 <=? id) && (id <? 2 ^ 256))), bind_Ok
    by (apply andb_true_iff; rewrite Z.leb_le, Z.ltb_lt; lia).
  rewrite (require_true ((0 <=? m) && (m <? 2 ^ 256))), bind_Ok
    by (apply andb_true_iff; rewrite Z.leb_le, Z.ltb_lt; lia).
  cbn [negb require]. rewrite !bind_Ok.
  rewrite (require_true (_ownerOf s id =? sender e)), bind_Ok by (by apply Z.eqb_eq).
  rewrite (require_true ((0 <? m) && (m <=? 12))), bind_Ok
    by (apply andb_true_iff; rewrite Z.ltb_lt, Z.leb_le; lia).
  rewrite (require_true (negb (status_eqb (status (vm_at s id)) TERMINATED))), bind_Ok
    by (by apply negb_true_iff, status_eqb_false).
  cbv zeta.
  rewrite (checked_add_fits (expiresAt (vm_at s id)) GRACE_PERIOD), bind_Ok
    by (unfold MAX_UINT256, GRACE_PERIOD, SECONDS_PER_MONTH in *; lia).
  rewrite (require_true (now e <? _)), bind_Ok by (by apply Z.ltb_lt).
  rewrite (checked_mul_fits (_getTierPrice (tier (vm_at s id))) m), bind_Ok
    by (unfold MAX_UINT256; lia).
  rewrite Hbook, bind_Ok.
  change (vm_at (with_token book s) id) with (vm_at s id).
  rewrite !(checked_mul_fits m SECONDS_PER_MONTH)
    by (unfold MAX_UINT256, SECONDS_PER_MONTH; lia).
  rewrite !bind_Ok.
  rewrite (checked_add_fits (now e)), (checked_add_fits (expiresAt (vm_at s id)))
    by (unfold MAX_UINT256, SECONDS_PER_MONTH in *; lia).
  rewrite !bind_Ok.
  destruct (expiresAt (vm_at s id) <? now e); [|done].
  by destruct (status_eqb _ SUSPENDED).
Qed.

(** *** The claims about the ledger *)

(** C1. [setVMProvisioned] is one-shot.  After a call that succeeded for
    [id], the entitlement is [ACTIVE] with the instance id and address of
    that call; a second call for [id], with any arguments and at any time,
    is rejected and leaves the storage, so also the two instance fields,
    as the first call left it; and the same holds after any further
    transactions: the call is rejected and changes nothing. *)
Theorem setVMProvisioned_one_shot id inst ip e s s1 evs :
  reachable s →
  setVMProvisioned id inst ip e s = Ok (s1, evs) →
  (status (vm_at s1 id) = ACTIVE ∧
   instanceId (vm_at s1 id) = inst ∧ ipAddress (vm_at s1 id) = ip) ∧
  (∀ e' inst' ip',
     is_ok (setVMProvisioned id inst' ip' e' s1) = false ∧
     transact (CallSetVMProvisioned id inst' ip') e' s1 = (s1, []) ∧
     instanceId (vm_at (fst (transact (CallSetVMProvisioned id inst' ip') e' s1)) id)
       = inst ∧
     ipAddress (vm_at (fst (transact (CallSetVMProvisioned id inst' ip') e' s1)) id)
       = ip) ∧
  (∀ txs e' inst' ip',
     is_ok (setVMProvisioned id inst' ip' e' (run txs s1)) = false ∧
     transact (CallSetVMProvisioned id inst' ip') e' (run txs s1) = (run txs s1, [])).
Proof.
  intros Hreach H.
  assert (Inv s1) as HI1 by (eapply Inv_setVMProvisioned; [by apply reachable_Inv | done]).
  apply setVMProvisioned_Ok_inv in H as (_ & Hex & _ & _ & _ & _ & Hs1 & _).
  assert (vm_at s1 id = set_provisionedAt (now e)
            (set_status ACTIVE (set_ipAddress ip (set_instanceId inst (vm_at s id)))))
    as Hvm.
  { rewrite Hs1. unfold vm_at at 1; cbn. by rewrite lookup_insert_eq. }
  assert (everProvisioned_at s1 id = true) as Hev.
  { rewrite Hs1. unfold everProvisioned_at; cbn. by rewrite lookup_insert_eq. }
  assert (∀ txs e' inst' ip',
            is_ok (setVMProvisioned id inst' ip' e' (run txs s1)) = false) as Hlater.
  { intros txs e' inst' ip'.
    destruct (setVMProvisioned id inst' ip' e' (run txs s1)) as [[s' evs']|r] eqn:H2;
      [|done].
    apply setVMProvisioned_Ok_inv in H2 as (_ & Hex2 & Hst2 & _).
    exfalso. eapply (inv_once _ (Inv_run txs s1 HI1) id); [|done..].
    by apply sticky_run. }
  split; [by rewrite Hvm|]. split.
  - intros e' inst' ip'.
    pose proof (Hlater [] e' inst' ip') as Hrej. cbn [run] in Hrej.
    rewrite (transact_rejected (CallSetVMProvisioned id inst' ip') e' s1 Hrej).
    cbn [fst]. by rewrite Hvm.
  - intros txs e' inst' ip'. split; [apply Hlater|].
    apply transact_rejected. apply Hlater.
Qed.

(** C4. Pricing and expiry of a purchase.  For a tier index in [0,4] and a
    duration in [1,12] the product [price * duration] never overflows, so
    the cost is the exact integer product; a purchase that goes through
    moves exactly that amount of the payment token from the buyer to the
    treasury, reports it in the event, and stores
    [expiresAt = now + duration * 2629800].  Tier 2 for 3 months costs
    75,000,000 units. *)
Theorem purchaseVM_pricing t d e s id s' evs :
  0 ≤ t ≤ 4 → 1 ≤ d ≤ 12 →
  purchaseVM t d e s = Ok (id, s', evs) →
  ∃ tr,
    tier_index tr = t ∧
    checked_mul (_getTierPrice tr) d = Ok (_getTierPrice tr * d) ∧
    safeTransferFrom (token s) (self s) (sender e) (treasury s)
      (_getTierPrice tr * d) = Ok (token s') ∧
    (sender e ≠ treasury s →
       balanceOf (token s') (sender e) = balanceOf (token s) (sender e)
                                         - _getTierPrice tr * d ∧
       balanceOf (token s') (treasury s) = balanceOf (token s) (treasury s)
                                           + _getTierPrice tr * d) ∧
    In (VMPurchased id (sender e) tr d (now e + d * 2629800) (_getTierPrice tr * d)) evs ∧
    tier (vm_at s' id) = tr ∧
    purchasedAt (vm_at s' id) = now e ∧
    expiresAt (vm_at s' id) = now e + d * 2629800 ∧
    durationMonths (vm_at s' id) = d ∧
    status (vm_at s' id) = PROVISIONING ∧
    (t = 2 → d = 3 → _getTierPrice tr * d = 75000000).
Proof.
  intros Ht Hd H.
  apply purchaseVM_Ok_inv in H
    as (tr & book & _ & _ & _ & _ & Htr & Hpay & -> & _ & -> & ->).
  exists tr.
  assert (tier_index tr = t) as Hidx.
  { unfold Tier_of_uint in Htr.
    repeat match type of Htr with
           | (if ?c then _ else _) = _ => destruct c eqn:?
           end; try discriminate; injection Htr as <-; cbn; lia. }
  assert (_getTierPrice tr * d ≤ MAX_UINT256) as Hfit.
  { unfold MAX_UINT256. assert (_getTierPrice tr ≤ 100000000) by (by destruct tr).
    assert (0 < _getTierPrice tr) by (by destruct tr).
    assert (1200000000 < 2 ^ 256 - 1) by done. nia. }
  split; [done|]. split.
  { unfold checked_mul. by destruct (Z.leb_spec (_getTierPrice tr * d) MAX_UINT256); [|lia]. }
  split; [done|]. split.
  { intros Hne. unfold safeTransferFrom in Hpay. bind_inv Hpay. injection Hpay as <-.
    unfold balanceOf, move; cbn.
    rewrite lookup_insert_ne by done. rewrite lookup_insert_eq.
    rewrite lookup_insert_eq. rewrite lookup_insert_ne by done. done. }
  split; [right; by left|].
  unfold vm_at, store_vm; cbn. rewrite lookup_insert_eq. cbn.
  repeat split; try done.
  intros -> ->. by destruct tr.
Qed.

(** C5. Validation and atomicity of a purchase.  A tier outside [0,4] or a
    duration outside [1,12] is rejected, and so is a purchase whose payment
    capture fails; the rejected transaction leaves the whole storage as it
    was and emits nothing.  When the arguments decode and the contract is
    not paused, the rejection of a bad argument is the validation's own, and
    in a reachable storage the id that the purchase would have taken still
    has no token and no record. *)
Theorem purchaseVM_atomic t d e s :
  (t < 0 ∨ 4 < t ∨ d < 1 ∨ 12 < d ∨
   ∃ tr, Tier_of_uint t = Ok tr ∧
         is_ok (safeTransferFrom (token s) (self s) (sender e) (treasury s)
                  (_getTierPrice tr * d)) = false) →
  is_ok (purchaseVM t d e s) = false ∧
  transact (CallPurchaseVM t d) e s = (s, []) ∧
  (_paused s = false → 4 < t < 2 ^ 8 → 0 ≤ d < 2 ^ 256 →
     purchaseVM t d e s = Revert "Invalid tier") ∧
  (_paused s = false → 0 ≤ t ≤ 4 → 0 ≤ d < 2 ^ 256 → ¬ 1 ≤ d ≤ 12 →
     purchaseVM t d e s = Revert "Duration must be 1-12 months") ∧
  (reachable s →
     _exists (fst (transact (CallPurchaseVM t d) e s)) (_tokenIdCounter s) = false ∧
     vms (fst (transact (CallPurchaseVM t d) e s)) !! _tokenIdCounter s = None).
Proof.
  intros Hbad.
  assert (is_ok (purchaseVM t d e s) = false) as Hrej.
  { destruct (purchaseVM t d e s) as [[[id s'] evs]|r] eqn:H; [|done].
    apply purchaseVM_Ok_inv in H
      as (tr & book & _ & _ & Ht & Hd & Htr & Hpay & _).
    destruct Hbad as [?|[?|[?|[?|(tr' & Htr' & Hfail)]]]]; try lia.
    rewrite Htr in Htr'. injection Htr' as <-. by rewrite Hpay in Hfail. }
  assert (transact (CallPurchaseVM t d) e s = (s, [])) as Htx.
  { apply transact_rejected. cbn [call]. by destruct (purchaseVM t d e s). }
  split; [done|]. split; [done|]. split; [|split].
  - intros Hp [Ht1 Ht2] [Hd1 Hd2]. unfold purchaseVM, abi_uint, whenNotPaused.
    rewrite Hp.
    replace ((0 <=? t) && (t <? 2 ^ 8)) with true by (symmetry; apply andb_true_iff; lia).
    replace ((0 <=? d) && (d <? 2 ^ 256)) with true by (symmetry; apply andb_true_iff; lia).
    replace (t <=? tier_index XLARGE) with false by (symmetry; apply Z.leb_gt; cbn; lia).
    done.
  - intros Hp [Ht1 Ht2] [Hd1 Hd2] Hd. unfold purchaseVM, abi_uint, whenNotPaused.
    rewrite Hp.
    replace ((0 <=? t) && (t <? 2 ^ 8)) with true by (symmetry; apply andb_true_iff; lia).
    replace ((0 <=? d) && (d <? 2 ^ 256)) with true by (symmetry; apply andb_true_iff; lia).
    replace (t <=? tier_index XLARGE) with true by (symmetry; apply Z.leb_le; cbn; lia).
    replace ((0 <? d) && (d <=? 12)) with false
      by (symmetry; apply andb_false_iff; rewrite Z.ltb_ge, Z.leb_gt; lia).
    done.
  - intros Hreach. rewrite Htx. cbn [fst].
    apply reachable_Inv in Hreach as [I1 I2 I3 I4 I5].
    assert (_exists s (_tokenIdCounter s) = false) as Hno.
    { destruct (_exists s (_tokenIdCounter s)) eqn:Hex; [|done].
      apply I2 in Hex. lia. }
    split; [done|].
    destruct (vms s !! _tokenIdCounter s) eqn:Hv; [|done].
    rewrite I4 in Hno; [done | by eexists].
Qed.

(** C6. Renewal before expiry.  A renewal that goes through at a time
    strictly before [expiresAt] (so the entitlement is not [TERMINATED] and
    the payment was captured) extends the expiry from its old value:
    [newExpiresAt = oldExpiresAt + additionalMonths * SECONDS_PER_MONTH]. *)
Theorem renewVM_before_expiry id m e s s' evs :
  now e < expiresAt (vm_at s id) →
  renewVM id m e s = Ok (s', evs) →
  status (vm_at s id) ≠ TERMINATED ∧
  is_ok (safeTransferFrom (token s) (self s) (sender e) (treasury s)
           (_getTierPrice (tier (vm_at s id)) * m)) = true ∧
  expiresAt (vm_at s' id) = expiresAt (vm_at s id) + m * SECONDS_PER_MONTH ∧
  status (vm_at s' id) = status (vm_at s id) ∧
  lastRenewal (vm_at s' id) = now e ∧
  In (VMRenewed id (expiresAt (vm_at s id))
        (expiresAt (vm_at s id) + m * SECONDS_PER_MONTH)
        (_getTierPrice (tier (vm_at s id)) * m)) evs.
Proof.
  intros Hbefore H.
  apply renewVM_Ok_inv in H as (book & _ & _ & _ & _ & Hst & _ & Hpay & Hs' & Hev).
  assert (vm_at s' id
          = set_lastRenewal (now e)
              (set_expiresAt (expiresAt (vm_at s id) + m * SECONDS_PER_MONTH) (vm_at s id)))
    as Hvm.
  { rewrite Hs', vm_at_update_vm_eq.
    change (vm_at (with_token book s) id) with (vm_at s id).
    unfold renewed.
    by replace (expiresAt (vm_at s id) <? now e) with false
      by (symmetry; apply Z.ltb_ge; lia). }
  rewrite Hvm in Hev |- *. cbn in Hev |- *. by rewrite Hpay.
Qed.

(** C7. Renewal after the grace period.  At any time
    [now ≥ expiresAt + GRACE_PERIOD], with [GRACE_PERIOD] seven days (so also
    at [expiresAt] plus eight days), a renewal is rejected: the transaction
    leaves the storage, including the payment token's book, as it was and
    emits nothing. *)
Theorem renewVM_after_grace_rejected id m e s :
  expiresAt (vm_at s id) + GRACE_PERIOD ≤ now e →
  GRACE_PERIOD = 7 * 86400 ∧
  is_ok (renewVM id m e s) = false ∧
  transact (CallRenewVM id m) e s = (s, []) ∧
  token (fst (transact (CallRenewVM id m) e s)) = token s ∧
  vm_at (fst (transact (CallRenewVM id m) e s)) id = vm_at s id.
Proof.
  intros Hlate.
  assert (is_ok (renewVM id m e s) = false) as Hrej.
  { destruct (renewVM id m e s) as [[s' evs]|r] eqn:H; [|done].
    apply renewVM_Ok_inv in H as (book & _ & _ & _ & _ & _ & Hin & _). lia. }
  rewrite (transact_rejected (CallRenewVM id m) e s Hrej). done.
Qed.


(** C10. The provisioned flag is sticky.  A [setVMProvisioned] that goes
    through sets [everProvisioned[id]]; no transaction clears it, whatever
    follows; and a later [terminateVM] of [id] deletes the record and leaves
    the flag set. *)
Theorem everProvisioned_sticky id inst ip e s s1 evs :
  setVMProvisioned id inst ip e s = Ok (s1, evs) →
  everProvisioned_at s1 id = true ∧
  ∀ txs,
    everProvisioned_at (run txs s1) id = true ∧
    (∀ c e', everProvisioned_at (fst (transact c e' (run txs s1))) id = true) ∧
    (∀ e' s2 evs',
       terminateVM id e' (run txs s1) = Ok (s2, evs') →
       vms s2 !! id = None ∧ everProvisioned_at s2 id = true ∧
       ∀ txs', everProvisioned_at (run txs' s2) id = true).
Proof.
  intros H.
  apply setVMProvisioned_Ok_inv in H as (_ & _ & _ & _ & _ & _ & -> & _).
  assert (∀ s0 : State, everProvisioned_at
            (with_everProvisioned (<[id:=true]> (everProvisioned s)) s0) id = true) as Hev.
  { intros s0. unfold everProvisioned_at; cbn. by rewrite lookup_insert_eq. }
  split; [apply Hev|]. intros txs.
  match goal with
  | |- context [run txs ?s1] => pose proof (sticky_run id txs s1 (Hev _)) as Hrun
  end.
  split; [done|]. split.
  - intros c e'. by apply sticky_transact.
  - intros e' s2 evs' Ht.
    apply terminateVM_frame in Ht as (_ & He & _ & Hv).
    assert (everProvisioned_at s2 id = true) as Hev2.
    { unfold everProvisioned_at in *. by rewrite He. }
    split; [by rewrite Hv, lookup_delete_eq|]. split; [done|].
    intros txs'. by apply sticky_run.
Qed.

(** *** The claims at concrete storages *)

Lemma reachable_purchased : reachable Sim.purchased.
Proof.
  exists 55, 77, 88, 1, 999, Sim.book0, Sim.deployed,
    [(CallPurchaseVM 2 3, Sim.buyer_env 1000)].
  split; reflexivity.
Defined.

Lemma provision_purchased :
  setVMProvisioned 0 "i-0" "203.0.113.7" (Sim.provisioner_env 2000) Sim.purchased
  = Ok (Sim.provisioned, [VMProvisioned 0 "i-0" "203.0.113.7" 2000]).
Proof. vm_compute. reflexivity. Defined.

Lemma setVMProvisioned_one_shot_witness :
  reachable Sim.purchased ∧
  setVMProvisioned 0 "i-0" "203.0.113.7" (Sim.provisioner_env 2000) Sim.purchased
  = Ok (Sim.provisioned, [VMProvisioned 0 "i-0" "203.0.113.7" 2000]) ∧
  ∀ e' inst' ip',
    is_ok (setVMProvisioned 0 inst' ip' e' Sim.provisioned) = false ∧
    transact (CallSetVMProvisioned 0 inst' ip') e' Sim.provisioned
    = (Sim.provisioned, []) ∧
    instanceId (vm_at (fst (transact (CallSetVMProvisioned 0 inst' ip') e'
                              Sim.provisioned)) 0) = "i-0" ∧
    ipAddress (vm_at (fst (transact (CallSetVMProvisioned 0 inst' ip') e'
                             Sim.provisioned)) 0) = "203.0.113.7".
Proof.
  split; [exact reachable_purchased|]. split; [exact provision_purchased|].
  exact (proj1 (proj2 (setVMProvisioned_one_shot 0 "i-0" "203.0.113.7"
                         (Sim.provisioner_env 2000) Sim.purchased Sim.provisioned _
                         reachable_purchased provision_purchased))).
Defined.

Lemma purchaseVM_pricing_witness :
  0 ≤ 2 ≤ 4 ∧ 1 ≤ 3 ≤ 12 ∧
  purchaseVM 2 3 (Sim.buyer_env 1000) Sim.deployed
  = Ok (0, Sim.purchased,
        [Transfer 0 100 0; VMPurchased 0 100 MEDIUM 3 7890400 75000000]) ∧
  ∃ tr, tier_index tr = 2 ∧
        expiresAt (vm_at Sim.purchased 0) = 1000 + 3 * 2629800 ∧
        _getTierPrice tr * 3 = 75000000.
Proof.
  assert (purchaseVM 2 3 (Sim.buyer_env 1000) Sim.deployed
          = Ok (0, Sim.purchased,
                [Transfer 0 100 0; VMPurchased 0 100 MEDIUM 3 7890400 75000000])) as H
    by (vm_compute; reflexivity).
  split; [lia|]. split; [lia|]. split; [exact H|].
  destruct (purchaseVM_pricing 2 3 (Sim.buyer_env 1000) Sim.deployed 0 Sim.purchased _
              ltac:(lia) ltac:(lia) H)
    as (tr & Hi & _ & _ & _ & _ & _ & _ & Hexp & _ & _ & Hcost).
  exists tr. split; [done|]. split; [done|]. by apply Hcost.
Defined.

Lemma purchaseVM_atomic_witness :
  12 < 13 ∧
  is_ok (purchaseVM 2 13 (Sim.buyer_env 1000) Sim.deployed) = false ∧
  transact (CallPurchaseVM 2 13) (Sim.buyer_env 1000) Sim.deployed = (Sim.deployed, []).
Proof.
  split; [lia|].
  destruct (purchaseVM_atomic 2 13 (Sim.buyer_env 1000) Sim.deployed
              ltac:(right; right; right; left; lia)) as (H1 & H2 & _).
  by split.
Defined.

Lemma renewVM_before_expiry_witness :
  now (Sim.buyer_env 5000) < expiresAt (vm_at Sim.provisioned 0) ∧
  is_ok (renewVM 0 1 (Sim.buyer_env 5000) Sim.provisioned) = true ∧
  expiresAt (vm_at (fst (transact (CallRenewVM 0 1) (Sim.buyer_env 5000) Sim.provisioned)) 0)
  = 7890400 + 1 * SECONDS_PER_MONTH.
Proof.
  split; [by vm_compute|]. split; [by vm_compute|].
  destruct (renewVM 0 1 (Sim.buyer_env 5000) Sim.provisioned) as [[s' evs]|r] eqn:H;
    [|by vm_compute in H].
  assert (transact (CallRenewVM 0 1) (Sim.buyer_env 5000) Sim.provisioned = (s', evs))
    as -> by (unfold transact; cbn [call]; by rewrite H).
  apply (renewVM_before_expiry 0 1 (Sim.buyer_env 5000) Sim.provisioned s' evs
           ltac:(by vm_compute) H).
Defined.

Lemma renewVM_after_grace_rejected_witness :
  expiresAt (vm_at Sim.provisioned 0) + GRACE_PERIOD
  ≤ now (Sim.buyer_env (7890400 + 8 * 86400)) ∧
  is_ok (renewVM 0 1 (Sim.buyer_env (7890400 + 8 * 86400)) Sim.provisioned) = false ∧
  transact (CallRenewVM 0 1) (Sim.buyer_env (7890400 + 8 * 86400)) Sim.provisioned
  = (Sim.provisioned, []).
Proof.
  assert (expiresAt (vm_at Sim.provisioned 0) + GRACE_PERIOD
          ≤ now (Sim.buyer_env (7890400 + 8 * 86400))) as H by (by vm_compute).
  split; [exact H|].
  destruct (renewVM_after_grace_rejected 0 1 (Sim.buyer_env (7890400 + 8 * 86400))
              Sim.provisioned H) as (_ & H1 & H2 & _).
  by split.
Defined.

Lemma reachable_provisioned : reachable Sim.provisioned.
Proof.
  exists 55, 77, 88, 1, 999, Sim.book0, Sim.deployed,
    [(CallPurchaseVM 2 3, Sim.buyer_env 1000);
     (CallSetVMProvisioned 0 "i-0" "203.0.113.7", Sim.provisioner_env 2000)].
  split; reflexivity.
Defined.

Lemma terminate_provisioned :
  terminateVM 0 (Sim.buyer_env 4000) Sim.provisioned
  = Ok (Sim.terminated, [VMTerminated 0 100 4000; Transfer 100 0 0]).
Proof. vm_compute. reflexivity. Defined.


Lemma everProvisioned_sticky_witness :
  setVMProvisioned 0 "i-0" "203.0.113.7" (Sim.provisioner_env 2000) Sim.purchased
  = Ok (Sim.provisioned, [VMProvisioned 0 "i-0" "203.0.113.7" 2000]) ∧
  everProvisioned_at Sim.provisioned 0 = true ∧
  vms Sim.terminated !! 0 = None ∧
  everProvisioned_at Sim.terminated 0 = true.
Proof.
  split; [exact provision_purchased|].
  destruct (everProvisioned_sticky 0 "i-0" "203.0.113.7" (Sim.provisioner_env 2000)
              Sim.purchased Sim.provisioned _ provision_purchased) as (H1 & H2).
  split; [exact H1|].
  destruct (H2 []) as (_ & _ & H3).
  destruct (H3 (Sim.buyer_env 4000) Sim.terminated _ terminate_provisioned)
    as (H4 & H5 & _).
  by split.
Defined.

(** Renewal inside the grace period, in general: strictly after [expiresAt]
    the expiry restarts from [now] and a suspended entitlement is
    reactivated; at [now = expiresAt] the extending branch is taken, which
    gives the same expiry and keeps the status. *)
Lemma renewVM_in_grace id m e s s' evs :
  expiresAt (vm_at s id) ≤ now e →
  renewVM id m e s = Ok (s', evs) →
  expiresAt (vm_at s' id) = now e + m * SECONDS_PER_MONTH ∧
  (expiresAt (vm_at s id) < now e → status (vm_at s id) = SUSPENDED →
     status (vm_at s' id) = ACTIVE) ∧
  (expiresAt (vm_at s id) = now e → status (vm_at s' id) = status (vm_at s id)).
Proof.
  intros Hexp H.
  apply renewVM_Ok_inv in H as (book & _ & _ & _ & _ & _ & _ & _ & -> & _).
  rewrite vm_at_update_vm_eq.
  change (vm_at (with_token book s) id) with (vm_at s id).
  unfold renewed. destruct (Z.ltb_spec (expiresAt (vm_at s id)) (now e)) as [Hlt|Hge].
  - split; [|split; [|lia]].
    + by destruct (status_eqb (status (vm_at s id)) SUSPENDED).
    + intros _ Hst. rewrite Hst. done.
  - cbn. split; [lia|]. split; [lia|done].
Qed.

(** C3. Renewal of a suspended entitlement at exactly [now = expiresAt].
    The entitlement counts as expired ([isVMExpired] answers true,
    [isInGracePeriod] answers true, and [reactivateVM] refuses with
    "VM expired, use renewVM"), the renewal goes through and sets
    [expiresAt = now + 1 * SECONDS_PER_MONTH], but the status stays
    [SUSPENDED]; one second later the same renewal reactivates it. *)
Theorem renewVM_at_expiry_keeps_suspended :
  status (vm_at Sim.suspended 0) = SUSPENDED ∧
  expiresAt (vm_at Sim.suspended 0) = 7890400 ∧
  isVMExpired 0 (Sim.buyer_env 7890400) Sim.suspended = Ok true ∧
  isInGracePeriod 0 (Sim.buyer_env 7890400) Sim.suspended = Ok true ∧
  reactivateVM 0 (Sim.buyer_env 7890400) Sim.suspended
  = Revert "VM expired, use renewVM" ∧
  (∃ s' evs,
     renewVM 0 1 (Sim.buyer_env 7890400) Sim.suspended = Ok (s', evs) ∧
     expiresAt (vm_at s' 0) = 7890400 + 1 * SECONDS_PER_MONTH ∧
     status (vm_at s' 0) = SUSPENDED) ∧
  (∃ s' evs,
     renewVM 0 1 (Sim.buyer_env 7890401) Sim.suspended = Ok (s', evs) ∧
     expiresAt (vm_at s' 0) = 7890401 + 1 * SECONDS_PER_MONTH ∧
     status (vm_at s' 0) = ACTIVE).
Proof.
  split; [by vm_compute|]. split; [by vm_compute|].
  split; [by vm_compute|]. split; [by vm_compute|].
  split; [by vm_compute|]. split.
  - eexists _, _. split; [vm_compute; reflexivity|]. split; by vm_compute.
  - eexists _, _. split; [vm_compute; reflexivity|]. split; by vm_compute.
Qed.

End LedgerProofs.

(** ** Facts about the backend *)

Module BackendProofs.
Import Backend.

(** *** Traces *)


Lemma creations_app a b : creations (a ++ b) = (creations a + creations b)%nat.
Proof. unfold creations. by rewrite List.filter_app, length_app. Qed.




Lemma creations_rounds k i : creations (rounds k i) = 0%nat.
Proof. induction k as [|k IH]; [done|]. unfold creations in *. cbn. exact IH. Qed.

Lemma rounds_snoc k i :
  (rounds k i ++ [Sleep 2000; AwsDescribeInstances i])%list = rounds (S k) i.
Proof. induction k as [|k IH]; [done|]. cbn. by rewrite IH. Qed.





Definition creates_nothing (new : list Effect) : Prop := creations new = 0%nat.



Lemma creates_nothing_app x y :
  creates_nothing x → creates_nothing y → creates_nothing (x ++ y).
Proof. unfold creates_nothing. rewrite creations_app. lia. Qed.

Section Logic.

Context {W : Type}.
Variable svc : @Services W.

(** [emits P m]: whatever the world answers, [m] only appends to the trace,
    and what it appends satisfies [P]. *)
Definition emits {A} (P : list Effect → Prop) (m : @M W A) : Prop :=
  ∀ st, ∃ new, snd (snd (m st)) = (snd st ++ new)%list ∧ P new.

(** [fueled m]: [m] never stops for lack of fuel. *)
Definition fueled {A} (m : @M W A) : Prop := ∀ st, fst (m st) ≠ OutOfFuel.


Lemma emits_ret {A} (P : list Effect → Prop) (a : A) : P [] → emits P (ret a).
Proof. intros HP st. exists []. by rewrite app_nil_r. Qed.

Lemma emits_throw {A} (P : list Effect → Prop) msg : P [] → emits P (@throw W A msg).
Proof. intros HP st. exists []. by rewrite app_nil_r. Qed.

Lemma emits_perform {A} (P : list Effect → Prop) ev (f : W → Answer A * W) :
  P [ev] → emits P (perform ev f).
Proof. intros HP st. by exists [ev]. Qed.

Lemma emits_bind {A B} (P Q R : list Effect → Prop) (m : M A) (f : A → M B) :
  Q [] → (∀ x y, P x → Q y → R (x ++ y)%list) →
  emits P m → (∀ a, emits Q (f a)) → emits R (bind m f).
Proof.
  intros HQ HR Hm Hf st. unfold bind.
  destruct (Hm st) as (x & Hx & HPx).
  destruct (m st) as [[a|msg|] st1]; cbn [fst snd] in *.
  - destruct (Hf a st1) as (y & Hy & HQy).
    exists (x ++ y)%list. rewrite Hy, Hx, app_assoc. auto.
  - exists x. split; [done|]. rewrite <- (app_nil_r x). auto.
  - exists x. split; [done|]. rewrite <- (app_nil_r x). auto.
Qed.

Lemma emits_try_catch {A} (P Q R : list Effect → Prop) (m : M A) (h : string → M A) :
  Q [] → (∀ x y, P x → Q y → R (x ++ y)%list) →
  emits P m → (∀ msg, emits Q (h msg)) → emits R (try_catch m h).
Proof.
  intros HQ HR Hm Hh st. unfold try_catch.
  destruct (Hm st) as (x & Hx & HPx).
  destruct (m st) as [[a|msg|] st1]; cbn [fst snd] in *.
  - exists x. split; [done|]. rewrite <- (app_nil_r x). auto.
  - destruct (Hh msg st1) as (y & Hy & HQy).
    exists (x ++ y)%list. rewrite Hy, Hx, app_assoc. auto.
  - exists x. split; [done|]. rewrite <- (app_nil_r x). auto.
Qed.

Lemma fueled_ret {A} (a : A) : fueled (@ret W A a).
Proof. by intros st. Qed.

Lemma fueled_throw {A} msg : fueled (@throw W A msg).
Proof. by intros st. Qed.

Lemma fueled_perform {A} ev (f : W → Answer A * W) : fueled (perform ev f).
Proof. intros st. unfold perform. cbn. by destruct (f st.1).1. Qed.

Lemma fueled_bind {A B} (m : M A) (f : A → M B) :
  fueled m → (∀ a, fueled (f a)) → fueled (bind m f).
Proof.
  intros Hm Hf st. unfold bind. specialize (Hm st).
  destruct (m st) as [[a|msg|] st1]; cbn in *; [apply Hf | done | done].
Qed.

Lemma fueled_try_catch {A} (m : M A) (h : string → M A) :
  fueled m → (∀ msg, fueled (h msg)) → fueled (try_catch m h).
Proof.
  intros Hm Hh st. unfold try_catch. specialize (Hm st).
  destruct (m st) as [[a|msg|] st1]; cbn in *; [done | apply Hh | done].
Qed.

End Logic.

Section Handler.

Context {W : Type}.
Variable svc : @Services W.
Variable PREFERRED_PROVIDER : option string.

Create HintDb backend.
Local Hint Resolve fueled_ret fueled_throw fueled_perform : backend.






Lemma fueled_lookup_config tier : fueled (@lookup_config W tier).
Proof.
  unfold lookup_config. destruct tier as [t|]; [destruct (VM_CONFIGS t)|];
    auto with backend.
Qed.


Lemma fueled_updateVMStatus tokenId u : fueled (@updateVMStatus W tokenId u).
Proof. by intros st. Qed.

Lemma updateVMStatus_normal tokenId u st :
  fst (@updateVMStatus W tokenId u st) = Normal tt.
Proof. done. Qed.

(** The loop makes at most [30 - attempts] rounds, each a sleep of 2000 ms
    and a describe request, and with that much fuel it never stops short. *)
Lemma poll_rounds fuel instance publicIP attempts st :
  (Z.to_nat (30 - attempts) ≤ fuel)%nat →
  ∃ k, (k ≤ Z.to_nat (30 - attempts))%nat ∧
       snd (snd (poll svc fuel instance publicIP attempts st))
       = (snd st ++ rounds k instance)%list ∧
       fst (poll svc fuel instance publicIP attempts st) ≠ OutOfFuel.
Proof.
  revert publicIP attempts st.
  induction fuel as [|fuel IH]; intros publicIP attempts st Hfuel.
  - cbn [poll]. destruct (falsy publicIP && (attempts <? 30)) eqn:Hg.
    + apply andb_true_iff in Hg as [_ Hlt]. apply Z.ltb_lt in Hlt. lia.
    + exists 0%nat. unfold ret. cbn [fst snd rounds]. rewrite app_nil_r.
      split; [lia | done].
  - cbn [poll]. destruct (falsy publicIP && (attempts <? 30)) eqn:Hg.
    + apply andb_true_iff in Hg as [_ Hlt]. apply Z.ltb_lt in Hlt.
      unfold bind, perform. cbn [fst snd answered].
      destruct (ec2_DescribeInstances svc instance (setTimeout svc 2000 st.1))
        as [[ip|msg] w1] eqn:Hd; cbn [fst snd answered].
      * destruct (IH ip (attempts + 1)
                    (w1, ((st.2 ++ [Sleep 2000]) ++ [AwsDescribeInstances instance])%list))
          as (k & Hk & Htr & Hne); [lia|].
        exists (S k). split; [lia|]. split; [|done].
        rewrite Htr. cbn [snd rounds]. by rewrite <- !app_assoc.
      * exists 1%nat. split; [lia|]. split; [|done].
        cbn. by rewrite <- app_assoc.
    + exists 0%nat. unfold ret. cbn [fst snd rounds]. rewrite app_nil_r.
      split; [lia | done].
Qed.


Lemma fueled_poll fuel instance publicIP attempts :
  (Z.to_nat (30 - attempts) ≤ fuel)%nat →
  fueled (poll svc fuel instance publicIP attempts).
Proof.
  intros Hfuel st.
  by destruct (poll_rounds fuel instance publicIP attempts st Hfuel) as (k & _ & _ & ?).
Qed.


Lemma fueled_provisionGCP tokenId tier buyer :
  fueled (provisionGCP svc tokenId tier buyer).
Proof.
  unfold provisionGCP, generateSSHKeyPair.
  repeat (apply fueled_bind; [auto using fueled_lookup_config with backend | intros ?]).
  auto with backend.
Qed.


Lemma fueled_provisionAWS fuel tokenId tier buyer :
  (30 ≤ fuel)%nat → fueled (provisionAWS svc fuel tokenId tier buyer).
Proof.
  intros Hfuel. unfold provisionAWS, generateSSHKeyPair.
  apply fueled_bind; [apply fueled_lookup_config | intros c].
  apply fueled_bind; [auto with backend | intros k].
  apply fueled_bind; [auto with backend | intros instance].
  apply fueled_bind; [by apply fueled_poll | intros ip].
  destruct (falsy ip); auto with backend.
Qed.


Lemma fueled_provisionVM fuel tokenId buyer tier :
  (30 ≤ fuel)%nat →
  fueled (provisionVM svc PREFERRED_PROVIDER fuel tokenId buyer tier).
Proof.
  intros Hfuel. unfold provisionVM.
  apply fueled_try_catch; [|auto with backend].
  cbv zeta. repeat match goal with |- context [if ?c then _ else _] => destruct c end;
    auto using fueled_provisionGCP, fueled_provisionAWS with backend.
Qed.


(** The handler catches every exception, and its own handler only logs. *)
Lemma handleVMPurchased_normal fuel tokenId buyer tier st :
  (30 ≤ fuel)%nat →
  fst (handleVMPurchased svc PREFERRED_PROVIDER fuel tokenId buyer tier st) = Normal tt.
Proof.
  intros Hfuel. unfold handleVMPurchased, try_catch.
  match goal with |- context [bind ?m ?f st] => set (body := bind m f) end.
  assert (fueled body) as Hbody.
  { apply fueled_bind; [by apply fueled_provisionVM|]. intros r.
    destruct (success r); [|apply fueled_updateVMStatus].
    apply fueled_bind; [auto with backend | intros _].
    apply fueled_bind; [auto with backend | intros _].
    apply fueled_updateVMStatus. }
  specialize (Hbody st).
  destruct (body st) as [[[]|msg|] st1]; cbn in *; done.
Qed.

Lemma tier_config tier :
  0 ≤ tier ≤ 4 → ∃ name c, tier_name tier = Some name ∧ VM_CONFIGS name = Some c.
Proof.
  intros Ht.
  assert (tier = 0 ∨ tier = 1 ∨ tier = 2 ∨ tier = 3 ∨ tier = 4) as Hc by lia.
  destruct Hc as [->|[->|[->|[->| ->]]]]; eexists _, _; split; reflexivity.
Qed.


(** The provider that [PREFERRED_PROVIDER] selects. *)
Lemma provisionVM_aws fuel tokenId buyer tier :
  provisionVM svc (Some "aws") fuel tokenId buyer tier
  = try_catch (provisionAWS svc fuel tokenId tier buyer)
      (λ message, ret (mkProvisionResult false None None None None (Some message))).
Proof. reflexivity. Qed.

Lemma provisionVM_gcp fuel tokenId buyer tier provider :
  provider = None ∨ provider = Some "" ∨ provider = Some "gcp" →
  provisionVM svc provider fuel tokenId buyer tier
  = try_catch (provisionGCP svc tokenId tier buyer)
      (λ message, ret (mkProvisionResult false None None None None (Some message))).
Proof. intros [->|[->| ->]]; reflexivity. Qed.


End Handler.


(** *** Creation requests *)

Section Creations.

Context {W : Type}.
Variable svc : @Services W.

(** [counts n m]: whatever the world answers, [m] issues exactly [n]
    creation requests. *)
Definition counts {A} (n : nat) (m : @M W A) : Prop :=
  ∀ st, creations (snd (snd (m st))) = (creations (snd st) + n)%nat.

Lemma emits_counts {A} (m : @M W A) : emits creates_nothing m → counts 0 m.
Proof.
  intros Hm st. destruct (Hm st) as (new & -> & Hnew).
  rewrite creations_app, Hnew. lia.
Qed.

Lemma counts_bind {A B} n (m : @M W A) (f : A → @M W B) :
  counts n m → (∀ a, counts 0 (f a)) → counts n (bind m f).
Proof.
  intros Hm Hf st. unfold bind. specialize (Hm st).
  destruct (m st) as [[a|msg|] st1]; cbn [fst snd] in *; [|done..].
  rewrite (Hf a st1). lia.
Qed.

Lemma counts_try_catch {A} n (m : @M W A) (h : string → @M W A) :
  counts n m → (∀ msg, counts 0 (h msg)) → counts n (try_catch m h).
Proof.
  intros Hm Hh st. unfold try_catch. specialize (Hm st).
  destruct (m st) as [[a|msg|] st1]; cbn [fst snd] in *; [done| |done].
  rewrite (Hh msg st1). lia.
Qed.

Lemma counts_ret {A} (a : A) : counts 0 (@ret W A a).
Proof. intros st. cbn. lia. Qed.

Lemma counts_throw {A} msg : counts 0 (@throw W A msg).
Proof. intros st. cbn. lia. Qed.

Lemma counts_perform {A} ev (f : W → Answer A * W) :
  counts (if is_create ev then 1 else 0) (perform ev f).
Proof.
  intros st. unfold perform. cbn [fst snd]. rewrite creations_app.
  unfold creations at 2. cbn. by destruct (is_create ev).
Qed.

Lemma counts_updateVMStatus tokenId u : counts 0 (@updateVMStatus W tokenId u).
Proof. intros st. unfold updateVMStatus. cbn [fst snd]. rewrite creations_app. cbn. lia. Qed.

Lemma counts_poll fuel instance publicIP attempts :
  counts 0 (poll svc fuel instance publicIP attempts).
Proof.
  revert publicIP attempts. induction fuel as [|fuel IH]; intros publicIP attempts;
    cbn [poll]; destruct (falsy publicIP && (attempts <? 30));
    try apply counts_ret; [intros st; cbn; lia|].
  apply (counts_bind 0); [apply (counts_perform (Sleep 2000))|]. intros _.
  apply (counts_bind 0); [apply (counts_perform (AwsDescribeInstances instance))|].
  intros ip. apply IH.
Qed.

Lemma counts_provisionAWS fuel tokenId tier buyer :
  0 ≤ tier ≤ 4 → counts 1 (provisionAWS svc fuel tokenId (tier_name tier) buyer).
Proof.
  intros Ht. destruct (tier_config tier Ht) as (name & c & Hname & Hcfg).
  unfold provisionAWS, lookup_config. rewrite Hname, Hcfg.
  intros st. unfold bind at 1, ret. unfold bind at 1, generateSSHKeyPair, perform at 1.
  cbn [fst snd answered].
  match goal with
  | |- context [bind (perform (AwsRunInstances ?cmd) ?f) ?k ?st1] =>
      rewrite (counts_bind 1 (perform (AwsRunInstances cmd) f) k
                 (counts_perform (AwsRunInstances cmd) f))
  end.
  - cbn [snd]. rewrite creations_app. cbn. lia.
  - intros instance. apply (counts_bind 0); [apply counts_poll|].
    intros ip. destruct (falsy ip); [apply counts_throw | apply counts_ret].
Qed.

Lemma counts_provisionGCP tokenId tier buyer :
  0 ≤ tier ≤ 4 → counts 1 (provisionGCP svc tokenId (tier_name tier) buyer).
Proof.
  intros Ht. destruct (tier_config tier Ht) as (name & c & Hname & Hcfg).
  unfold provisionGCP, lookup_config. rewrite Hname, Hcfg.
  intros st. unfold bind at 1, ret. unfold bind at 1, generateSSHKeyPair, perform at 1.
  cbn [fst snd answered].
  match goal with
  | |- context [bind (perform (GcpCreateVM ?cmd) ?f) ?k ?st1] =>
      rewrite (counts_bind 1 (perform (GcpCreateVM cmd) f) k
                 (counts_perform (GcpCreateVM cmd) f))
  end.
  - cbn [snd]. rewrite creations_app. cbn. lia.
  - intros _. apply (counts_bind 0); [apply (counts_perform GcpOperationPromise)|].
    intros _. apply (counts_bind 0); [apply (counts_perform (GcpGetMetadata _))|].
    intros ip. apply counts_ret.
Qed.

(** One delivery of a Purchased event issues one creation request. *)
Lemma counts_handleVMPurchased provider fuel tokenId buyer tier :
  provider = None ∨ provider = Some "" ∨ provider = Some "gcp" ∨ provider = Some "aws" →
  0 ≤ tier ≤ 4 →
  counts 1 (handleVMPurchased svc provider fuel tokenId buyer tier).
Proof.
  intros Hp Ht. unfold handleVMPurchased.
  apply counts_try_catch; [|intros msg; apply counts_updateVMStatus].
  apply counts_bind.
  - destruct Hp as [Hp|[Hp|[Hp| ->]]].
    1-3: rewrite provisionVM_gcp by tauto;
         (apply counts_try_catch; [by apply counts_provisionGCP | intros; apply counts_ret]).
    rewrite provisionVM_aws.
    apply counts_try_catch; [by apply counts_provisionAWS | intros; apply counts_ret].
  - intros r. destruct (success r); [|apply counts_updateVMStatus].
    apply (counts_bind 0); [apply (counts_perform (ContractSetVMProvisioned _ _ _))|].
    intros _. apply (counts_bind 0); [apply (counts_perform TxWait)|].
    intros _. apply counts_updateVMStatus.
Qed.

End Creations.

(** C2, as the code has it.  The purchase handler reads no status before it
    provisions: with GCP or AWS as the provider and a tier index in [0,4],
    every delivery of a Purchased event issues exactly one creation request
    to the provider, whatever was logged or created before; two deliveries
    of the same event issue two. *)
Theorem handleVMPurchased_creates_each_time {W : Type} (svc : @Services W)
    (provider : option string) (fuel : nat) (tokenId : Z) (buyer : string) (tier : Z)
    (st : W * list Effect) :
  provider = None ∨ provider = Some "" ∨ provider = Some "gcp" ∨ provider = Some "aws" →
  0 ≤ tier ≤ 4 →
  creations (snd (snd (handleVMPurchased svc provider fuel tokenId buyer tier st)))
  = (creations (snd st) + 1)%nat ∧
  creations
    (snd (snd (handleVMPurchased svc provider fuel tokenId buyer tier
                 (snd (handleVMPurchased svc provider fuel tokenId buyer tier st)))))
  = (creations (snd st) + 2)%nat.
Proof.
  intros Hp Ht.
  pose proof (counts_handleVMPurchased svc provider fuel tokenId buyer tier Hp Ht) as Hc.
  split; [apply Hc|]. rewrite !Hc. lia.
Qed.

(** C2, as stated, fails: on AWS, two deliveries of the Purchased event of
    token 0 leave two instances for that token in the cloud. *)
Lemma replay_creates_second_instance :
  fst (Sim.deliver_twice Sim.cloud_ready (Some "aws")) = Normal tt ∧
  map (λ x, req_tokenId (snd x))
      (Sim.instances (fst (snd (Sim.deliver_twice Sim.cloud_ready (Some "aws")))))
  = ["0"; "0"] ∧
  ¬ (length (Sim.instances (fst (snd (Sim.deliver_twice Sim.cloud_ready (Some "aws")))))
     ≤ 1)%nat.
Proof.
  split; [by vm_compute|]. split; [by vm_compute|].
  vm_compute. lia.
Qed.

Lemma handleVMPurchased_creates_each_time_witness :
  (Some "aws" = None ∨ Some "aws" = Some "" ∨ Some "aws" = Some "gcp"
   ∨ Some "aws" = Some "aws") ∧
  0 ≤ 2 ≤ 4 ∧
  creations (snd (snd (Sim.deliver_twice Sim.cloud_ready (Some "aws")))) = 2%nat.
Proof.
  split; [tauto|]. split; [lia|].
  exact (proj2 (handleVMPurchased_creates_each_time Sim.cloud_ready (Some "aws") 30 0
                  "0x64" 2 (Sim.world0, []) ltac:(tauto) ltac:(lia))).
Defined.


End BackendProofs.

(** ** More about the ledger: what every stored record satisfies *)

Module LedgerExtra.
Import Ledger LedgerProofs.

(** A well-formed record of token [id]: it expires after it was bought, its
    duration is 1 to 12 months, it is not [TERMINATED], and its instance
    fields agree with its status and with the provisioned flag. *)
Definition good (s : State) (id : Z) (v : VM) : Prop :=
  purchasedAt v < expiresAt v ∧
  1 ≤ durationMonths v ≤ 12 ∧
  status v ≠ TERMINATED ∧
  (status v = PROVISIONING →
     instanceId v = "" ∧ provisionedAt v = 0 ∧ everProvisioned_at s id = false) ∧
  (status v ≠ PROVISIONING →
     instanceId v ≠ "" ∧ ipAddress v ≠ "" ∧ everProvisioned_at s id = true).

Record WF (s : State) : Prop := mkWF {
  wf_record : ∀ id, _exists s id = true → is_Some (vms s !! id);
  wf_good : ∀ id v, vms s !! id = Some v → good s id v
}.

(** What one transaction may do to the record of an existing token. *)
Definition edge (s : State) (e : Env) (id : Z) (v v' : VM) : Prop :=
  v' = v
  ∨ (sender e = provisioner s ∧ status v = PROVISIONING ∧ now e < expiresAt v ∧
     ∃ inst ip, inst ≠ "" ∧ ip ≠ "" ∧
       v' = set_provisionedAt (now e)
              (set_status ACTIVE (set_ipAddress ip (set_instanceId inst v))))
  ∨ (sender e = _ownerOf s id ∧ _paused s = false ∧
     now e < expiresAt v + GRACE_PERIOD ∧
     ∃ m, 1 ≤ m ≤ 12 ∧ v' = renewed m (now e) v)
  ∨ ((sender e = _ownerOf s id ∨ sender e = provisioner s) ∧
     status v = ACTIVE ∧ v' = set_status SUSPENDED v)
  ∨ (sender e = _ownerOf s id ∧ status v = SUSPENDED ∧ now e < expiresAt v ∧
     v' = set_status ACTIVE v)
  ∨ (sender e = provisioner s ∧ ∃ ip, ip ≠ "" ∧ v' = set_ipAddress ip v).

(** The purchases that went through in a sequence of transactions. *)
Fixpoint sold (txs : list (Call * Env)) (s : State) : Z :=
  match txs with
  | [] => 0
  | (c, e) :: rest =>
      (match c with
       | CallPurchaseVM t d => if is_ok (purchaseVM t d e s) then 1 else 0
       | _ => 0
       end) + sold rest (fst (transact c e s))
  end.

(** *** Inversion of the remaining entry points *)

Lemma suspendVM_Ok_inv id e s s' evs :
  suspendVM id e s = Ok (s', evs) →
  _exists s id = true ∧ (sender e = _ownerOf s id ∨ sender e = provisioner s) ∧
  status (vm_at s id) = ACTIVE ∧
  s' = update_vm id (set_status SUSPENDED) s ∧ evs = [VMSuspended id (now e)].
Proof.
  intros H. unfold suspendVM in H. bind_inv H. injection H as <- <-. bools.
  repeat split; try done.
  match goal with Ho : _ ∨ _ |- _ => destruct Ho as [Ho|Ho]; bools; auto end.
Qed.

Lemma reactivateVM_Ok_inv id e s s' evs :
  reactivateVM id e s = Ok (s', evs) →
  _exists s id = true ∧ sender e = _ownerOf s id ∧
  status (vm_at s id) = SUSPENDED ∧ now e < expiresAt (vm_at s id) ∧
  s' = update_vm id (set_status ACTIVE) s ∧ evs = [VMReactivated id (now e)].
Proof.
  intros H. unfold reactivateVM in H. bind_inv H. injection H as <- <-. by bools.
Qed.

Lemma updateIPAddress_Ok_inv id newIP e s s' evs :
  updateIPAddress id newIP e s = Ok (s', evs) →
  _exists s id = true ∧ sender e = provisioner s ∧
  status (vm_at s id) ≠ TERMINATED ∧ newIP ≠ "" ∧
  s' = update_vm id (set_ipAddress newIP) s ∧
  evs = [IPAddressUpdated id (ipAddress (vm_at s id)) newIP].
Proof.
  intros H. unfold updateIPAddress in H. bind_inv H. injection H as <- <-. bools.
  repeat split; try done.
  intros ->. match goal with Hl : 0 < Z.of_nat (String.length "") |- _ => cbn in Hl; lia end.
Qed.

Lemma transferFrom_Ok_inv from to id e s s' evs :
  transferFrom from to id e s = Ok (s', evs) →
  _exists s id = true ∧ from = _ownerOf s id ∧ to ≠ 0 ∧
  s' = with_owners (<[id := to]> (_owners s)) s.
Proof.
  intros H. unfold transferFrom in H. bind_inv H. injection H as <- <-. by bools.
Qed.

(** The calls that touch neither the records nor the tokens nor the flags. *)
Definition administrative (c : Call) : bool :=
  match c with
  | CallSetTreasury _ | CallSetProvisioner _ | CallPause | CallUnpause
  | CallEmergencyWithdraw _ _ | CallTransferOwnership _ | CallRenounceOwnership
  | TokenActivity _ => true
  | _ => false
  end.

Lemma administrative_frame c e s s' evs :
  administrative c = true → call c e s = Ok (s', evs) →
  _tokenIdCounter s' = _tokenIdCounter s ∧ vms s' = vms s ∧
  everProvisioned s' = everProvisioned s ∧ _owners s' = _owners s.
Proof.
  intros Ha H. destruct c; try discriminate Ha; cbn [call] in H.
  - unfold setTreasury in H. bind_inv H. by injection H as <- <-.
  - unfold setProvisioner in H. bind_inv H. by injection H as <- <-.
  - unfold pause in H. bind_inv H. by injection H as <- <-.
  - unfold unpause in H. bind_inv H. by injection H as <- <-.
  - unfold emergencyWithdraw in H. bind_inv H. injection H as <- <-.
    match goal with Hs : (if _ then _ else _) = Ok _ |- _ => rename Hs into Hw end.
    destruct (tok =? 0); [by injection Hw as <-|].
    destruct (tok =? paymentToken s); [|by injection Hw as <-].
    bind_inv Hw. by injection Hw as <-.
  - unfold transferOwnership in H. bind_inv H. by injection H as <- <-.
  - unfold renounceOwnership in H. bind_inv H. by injection H as <- <-.
  - by injection H as <- <-.
Qed.

Lemma exists_update_vm id i f s : _exists (update_vm i f s) id = _exists s id.
Proof. done. Qed.

(** *** What a transaction does to one entitlement *)

Lemma call_edge c e s s' evs id :
  call c e s = Ok (s', evs) → _exists s id = true →
  (_exists s' id = false ∧ sender e = _ownerOf s id ∧ vms s' !! id = None) ∨
  (_exists s' id = true ∧ edge s e id (vm_at s id) (vm_at s' id)).
Proof.
  intros H Hex.
  destruct (administrative c) eqn:Ha.
  { apply administrative_frame in H as (_ & Hv & _ & Ho); [|done].
    right. unfold _exists, _ownerOf, vm_at in *. rewrite Ho, Hv. split; [done | by left]. }
  destruct c; try discriminate Ha; cbn [call] in H.
  - apply bind_Ok_inv in H as ([[i s1] evs1] & Hr & H). injection H as <- <-.
    apply purchaseVM_Ok_inv in Hr
      as (tr & book & _ & _ & _ & _ & _ & _ & -> & Hfresh & -> & _).
    assert (_tokenIdCounter s ≠ id) by (intros Heq; rewrite Heq in Hfresh; congruence).
    right. storage. rewrite !lookup_insert_ne by done. split; [done | by left].
  - apply setVMProvisioned_Ok_inv in H as (Hs & _ & Hst & Hnow & Hi & Hp & -> & _).
    right. split; [done|]. destruct (decide (tokenId = id)) as [->|Hne].
    + change (vm_at (with_everProvisioned ?m ?s0) id) with (vm_at s0 id).
      rewrite vm_at_update_vm_eq. right. left. eauto 10.
    + change (vm_at (with_everProvisioned ?m ?s0) id) with (vm_at s0 id).
      rewrite vm_at_update_vm_ne by done. by left.
  - apply renewVM_Ok_inv in H as (book & Hp & _ & Ho & Hm & _ & Hg & _ & -> & _).
    right. split; [done|]. destruct (decide (tokenId = id)) as [->|Hne].
    + rewrite vm_at_update_vm_eq.
      change (vm_at (with_token book s) id) with (vm_at s id).
      right. right. left. eauto 10.
    + rewrite vm_at_update_vm_ne by done. by left.
  - pose proof (terminateVM_frame _ _ _ _ _ H) as (_ & _ & Ho & Hv).
    apply terminateVM_Ok_inv in H as (_ & Hown & _).
    destruct (decide (tokenId = id)) as [->|Hne].
    + left. unfold _exists, _ownerOf. rewrite Ho, Hv, !lookup_delete_eq. done.
    + right. unfold _exists, _ownerOf, vm_at in *.
      rewrite Ho, Hv, !lookup_delete_ne by done. split; [done | by left].
  - apply suspendVM_Ok_inv in H as (_ & Hwho & Hst & -> & _).
    right. split; [done|]. destruct (decide (tokenId = id)) as [->|Hne].
    + rewrite vm_at_update_vm_eq. do 3 right. left. done.
    + rewrite vm_at_update_vm_ne by done. by left.
  - apply reactivateVM_Ok_inv in H as (_ & Hwho & Hst & Hnow & -> & _).
    right. split; [done|]. destruct (decide (tokenId = id)) as [->|Hne].
    + rewrite vm_at_update_vm_eq. do 4 right. left. done.
    + rewrite vm_at_update_vm_ne by done. by left.
  - apply updateIPAddress_Ok_inv in H as (_ & Hwho & _ & Hip & -> & _).
    right. split; [done|]. destruct (decide (tokenId = id)) as [->|Hne].
    + rewrite vm_at_update_vm_eq. do 5 right. eauto.
    + rewrite vm_at_update_vm_ne by done. by left.
  - apply transferFrom_Ok_inv in H as (_ & _ & Hto & ->).
    right. split; [|by left]. storage. rewrite lookup_insert.
    case_decide; cbn; [by apply negb_true_iff, Z.eqb_neq | done].
Qed.

(** *** Well-formed records are kept *)

Lemma WF_constructor pt tr pr deployer this book s0 :
  constructor pt tr pr deployer this book = Ok s0 → WF s0.
Proof.
  intros H. unfold constructor in H. bind_inv H. injection H as <-.
  split; storage.
  - intros id. by rewrite lookup_empty.
  - intros id v. by rewrite lookup_empty.
Qed.

Lemma WF_frame s s' :
  vms s' = vms s → everProvisioned s' = everProvisioned s → _owners s' = _owners s →
  WF s → WF s'.
Proof.
  intros Hv He Ho [W1 W2]. split.
  - intros id. unfold _exists, _ownerOf. rewrite Ho, Hv. apply W1.
  - intros id v. unfold good, everProvisioned_at. rewrite Hv, He. apply W2.
Qed.

Lemma WF_update_vm id f s :
  _exists s id = true →
  (good s id (vm_at s id) → good s id (f (vm_at s id))) →
  WF s → WF (update_vm id f s).
Proof.
  intros Hex Hf [W1 W2]. split.
  - intros i Hi. storage. rewrite lookup_insert. case_decide; [done | by apply W1].
  - intros i v. storage. rewrite lookup_insert. case_decide.
    + subst i. intros [= <-]. destruct (W1 id Hex) as [v0 Hv0].
      change (good s id (f (vm_at s id))). apply Hf.
      unfold vm_at. rewrite Hv0. by apply W2.
    + apply W2.
Qed.

Lemma good_renewed s id m t v :
  1 ≤ m → good s id v → good s id (renewed m t v).
Proof.
  intros Hm (G1 & G2 & G3 & G4 & G5). unfold renewed, good.
  destruct (Z.ltb_spec (expiresAt v) t) as [Hlt|Hge].
  - destruct (status_eqb (status v) SUSPENDED) eqn:Hst; bools; cbn.
    + rewrite Hst in *. unfold SECONDS_PER_MONTH.
      repeat split; try done; try lia; apply G5; done.
    + unfold SECONDS_PER_MONTH. repeat split; try done; try lia; tauto.
  - cbn. unfold SECONDS_PER_MONTH. repeat split; try done; try lia; tauto.
Qed.

Lemma WF_call c e s s' evs : Inv s → WF s → call c e s = Ok (s', evs) → WF s'.
Proof.
  intros HI HW H.
  destruct (administrative c) eqn:Ha.
  { apply administrative_frame in H as (_ & Hv & He & Ho); [|done].
    by apply (WF_frame s). }
  destruct c; try discriminate Ha; cbn [call] in H.
  - apply bind_Ok_inv in H as ([[i s1] evs1] & Hr & H). injection H as <- <-.
    apply purchaseVM_Ok_inv in Hr
      as (tr & book & _ & Hto & _ & Hd & _ & _ & -> & Hfresh & -> & _).
    destruct HW as [W1 W2]. split.
    + intros id. storage. rewrite !lookup_insert.
      case_decide; cbn; [done | apply W1].
    + intros id v. storage. rewrite lookup_insert. case_decide.
      * subst id. intros [= <-]. unfold good. cbn. unfold SECONDS_PER_MONTH.
        repeat split; try done; try lia.
        destruct (default false (everProvisioned s !! _tokenIdCounter s)) eqn:Hev;
          [|done].
        apply (inv_ever _ HI) in Hev. lia.
      * apply W2.
  - apply setVMProvisioned_Ok_inv in H as (_ & Hex & Hst & _ & Hi & Hp & -> & _).
    destruct HW as [W1 W2]. split.
    + intros id Hid. storage. rewrite lookup_insert. case_decide; [done | by apply W1].
    + intros id v. unfold good, everProvisioned_at. storage.
      rewrite !lookup_insert. case_decide.
      * subst id. intros [= <-]. destruct (W1 tokenId Hex) as [v0 Hv0].
        rewrite Hv0 in *. cbn in *.
        destruct (W2 tokenId v0 Hv0) as (G1 & G2 & _).
        unfold vm_at. rewrite Hv0. cbn. repeat split; try done; lia.
      * intros Hv. apply (W2 id v Hv).
  - apply renewVM_Ok_inv in H as (book & _ & Hex & _ & Hm & _ & _ & _ & -> & _).
    apply WF_update_vm; [done | | by apply (WF_frame s)].
    apply good_renewed. lia.
  - apply terminateVM_frame in H as (_ & He & Ho & Hv).
    destruct HW as [W1 W2]. split.
    + intros id. unfold _exists, _ownerOf. rewrite Ho, Hv, !lookup_delete.
      case_decide; cbn; [done | apply W1].
    + intros id v. unfold good, everProvisioned_at. rewrite He, Hv, lookup_delete.
      case_decide; [done | apply W2].
  - apply suspendVM_Ok_inv in H as (Hex & _ & Hst & -> & _).
    apply WF_update_vm; [done | | done].
    intros (G1 & G2 & G3 & G4 & G5). unfold good. cbn. rewrite Hst in G5.
    destruct (G5 ltac:(done)) as (? & ? & ?). repeat split; try done; lia.
  - apply reactivateVM_Ok_inv in H as (Hex & _ & Hst & _ & -> & _).
    apply WF_update_vm; [done | | done].
    intros (G1 & G2 & G3 & G4 & G5). unfold good. cbn. rewrite Hst in G5.
    destruct (G5 ltac:(done)) as (? & ? & ?). repeat split; try done; lia.
  - apply updateIPAddress_Ok_inv in H as (Hex & _ & _ & Hip & -> & _).
    apply WF_update_vm; [done | | done].
    intros (G1 & G2 & G3 & G4 & G5). unfold good. cbn.
    split; [done|]. split; [done|]. split; [done|]. split; [done|].
    intros Hs. destruct (G5 Hs) as (? & ? & ?). done.
  - apply transferFrom_Ok_inv in H as (Hex & _ & Hto & ->).
    destruct HW as [W1 W2]. split; [|exact W2].
    intros id. storage. rewrite lookup_insert. case_decide; [|apply W1].
    subst id. intros _. by apply W1.
Qed.

Lemma WF_run txs s : Inv s → WF s → WF (run txs s).
Proof.
  revert s. induction txs as [|[c e] txs IH]; intros s HI HW; [done|].
  cbn [run]. apply IH; [by apply Inv_transact|].
  unfold transact. destruct (call c e s) as [[s' evs]|r] eqn:H; [|done].
  by eapply WF_call.
Qed.

Lemma reachable_WF s : reachable s → WF s.
Proof.
  intros (pt & tr & pr & deployer & this & book & s0 & txs & H0 & ->).
  apply WF_run; [by eapply Inv_constructor | by eapply WF_constructor].
Qed.

Lemma reachable_good s id :
  reachable s → _exists s id = true → good s id (vm_at s id).
Proof.
  intros Hr Hex. destruct (reachable_WF s Hr) as [W1 W2].
  destruct (W1 id Hex) as [v Hv]. unfold vm_at. rewrite Hv. by apply W2.
Qed.

Lemma call_counter c e s s' evs :
  call c e s = Ok (s', evs) →
  match c with
  | CallPurchaseVM _ _ =>
      _paused s = false ∧ _tokenIdCounter s' = _tokenIdCounter s + 1 ∧
      ∀ id, _exists s' id = true → _exists s id = true ∨ id = _tokenIdCounter s
  | _ =>
      _tokenIdCounter s' = _tokenIdCounter s ∧
      ∀ id, _exists s' id = true → _exists s id = true
  end.
Proof.
  intros H.
  destruct (administrative c) eqn:Ha.
  { apply administrative_frame in H as (Hc & _ & _ & Ho); [|done].
    destruct c; try discriminate Ha; (split; [done|]);
      intros id; unfold _exists, _ownerOf; by rewrite Ho. }
  destruct c; try discriminate Ha; cbn [call] in H.
  - apply bind_Ok_inv in H as ([[i s1] evs1] & Hr & H). injection H as <- <-.
    apply purchaseVM_Ok_inv in Hr
      as (tr & book & Hp & _ & _ & _ & _ & _ & -> & _ & -> & _).
    split; [done|]. split; [done|]. intros id. storage. rewrite lookup_insert.
    case_decide; [by right | by left].
  - apply setVMProvisioned_Ok_inv in H as (_ & _ & _ & _ & _ & _ & -> & _). by split.
  - apply renewVM_Ok_inv in H as (book & _ & _ & _ & _ & _ & _ & _ & -> & _). by split.
  - apply terminateVM_frame in H as (Hc & _ & Ho & _). split; [done|].
    intros id. unfold _exists, _ownerOf. rewrite Ho, lookup_delete.
    by case_decide.
  - apply suspendVM_Ok_inv in H as (_ & _ & _ & -> & _). by split.
  - apply reactivateVM_Ok_inv in H as (_ & _ & _ & _ & -> & _). by split.
  - apply updateIPAddress_Ok_inv in H as (_ & _ & _ & _ & -> & _). by split.
  - apply transferFrom_Ok_inv in H as (Hex & _ & _ & ->). split; [done|].
    intros id. storage. rewrite lookup_insert. by case_decide; subst.
Qed.

(** *** Properties of every reachable storage *)

(** X1. In every reachable storage the record of an existing token expires
    after it was purchased, and its duration is between 1 and 12 months. *)
Theorem stored_record_timing s id :
  reachable s → _exists s id = true →
  purchasedAt (vm_at s id) < expiresAt (vm_at s id) ∧
  1 ≤ durationMonths (vm_at s id) ≤ 12.
Proof.
  intros Hr Hex. destruct (reachable_good s id Hr Hex) as (G1 & G2 & _). done.
Qed.

(** X2. In every reachable storage an existing token is in [PROVISIONING]
    exactly when its provisioned flag is unset; while it is, its instance id
    is empty and [provisionedAt] is zero; once it is past [PROVISIONING], its
    instance id and its address are both non-empty. *)
Theorem stored_record_fulfilment s id :
  reachable s → _exists s id = true →
  (status (vm_at s id) = PROVISIONING ↔ everProvisioned_at s id = false) ∧
  (status (vm_at s id) = PROVISIONING →
     instanceId (vm_at s id) = "" ∧ provisionedAt (vm_at s id) = 0) ∧
  (status (vm_at s id) ≠ PROVISIONING →
     instanceId (vm_at s id) ≠ "" ∧ ipAddress (vm_at s id) ≠ "").
Proof.
  intros Hr Hex. destruct (reachable_good s id Hr Hex) as (_ & _ & _ & G4 & G5).
  split; [split|split].
  - intros Hp. by apply G4.
  - intros Hev. destruct (decide (status (vm_at s id) = PROVISIONING)) as [|Hn]; [done|].
    destruct (G5 Hn) as (_ & _ & Ht). congruence.
  - intros Hp. destruct (G4 Hp) as (? & ? & _). done.
  - intros Hn. destruct (G5 Hn) as (? & ? & _). done.
Qed.

(** X3. No reachable storage holds a record in status [TERMINATED], for any
    id: [terminateVM] deletes the record in the transaction that marks it.
    So the status checks against [TERMINATED] always pass: a termination is
    never refused as "Already terminated" and an address update is never
    refused as "VM terminated". *)
Theorem terminated_never_stored s :
  reachable s →
  (∀ id, status (vm_at s id) ≠ TERMINATED) ∧
  (∀ id e, terminateVM id e s ≠ Revert "Already terminated") ∧
  (∀ id ip e, updateIPAddress id ip e s ≠ Revert "VM terminated").
Proof.
  intros Hr.
  assert (∀ id, status (vm_at s id) ≠ TERMINATED) as Hnt.
  { intros id. destruct (reachable_WF s Hr) as [_ W2]. unfold vm_at.
    destruct (vms s !! id) as [v|] eqn:Hv; [|done].
    destruct (W2 id v Hv) as (_ & _ & G3 & _). done. }
  assert (∀ id, negb (status_eqb (status (vm_at s id)) TERMINATED) = true) as Hb.
  { intros id. by apply negb_true_iff, status_eqb_false. }
  split; [done|]. split.
  - intros id e. unfold terminateVM, abi_uint, ownerOf. rewrite Hb.
    repeat match goal with
           | |- context [require ?c ?r] =>
               lazymatch c with
               | true => fail
               | _ => destruct c; cbn [require]; rewrite ?bind_Ok; try (by intros [=])
               end
           end.
  - intros id ip e. unfold updateIPAddress, abi_uint. rewrite Hb.
    repeat match goal with
           | |- context [require ?c ?r] =>
               lazymatch c with
               | true => fail
               | _ => destruct c; cbn [require]; rewrite ?bind_Ok; try (by intros [=])
               end
           end.
Qed.

(** The moves of the status that one transaction can make. *)
Definition status_step (a b : Status) : Prop :=
  a = b ∨ (a = PROVISIONING ∧ b = ACTIVE) ∨ (a = ACTIVE ∧ b = SUSPENDED)
  ∨ (a = SUSPENDED ∧ b = ACTIVE).

Lemma status_renewed_step m t v : status_step (status v) (status (renewed m t v)).
Proof.
  unfold renewed, status_step. destruct (expiresAt v <? t); cbn; [|by left].
  destruct (status_eqb (status v) SUSPENDED) eqn:Hs; cbn; [|by left].
  apply status_eqb_true in Hs. rewrite Hs. auto.
Qed.

(** X4. The status of an entitlement moves only along the state machine:
    through any transaction that goes through, an existing token either
    ceases to exist (its record is deleted, and the caller was its owner), or
    its status stays, or goes [PROVISIONING] to [ACTIVE], [ACTIVE] to
    [SUSPENDED], or [SUSPENDED] to [ACTIVE]. *)
Theorem status_follows_state_machine c e s s' evs id :
  call c e s = Ok (s', evs) → _exists s id = true →
  (_exists s' id = false ∧ vms s' !! id = None ∧ sender e = _ownerOf s id) ∨
  (_exists s' id = true ∧ status_step (status (vm_at s id)) (status (vm_at s' id))).
Proof.
  intros H Hex. destruct (call_edge c e s s' evs id H Hex) as [(H1 & H2 & H3)|[H1 H2]];
    [by left|right]. split; [done|].
  destruct H2 as [->|[(_ & Hs & _ & inst & ip & _ & _ & ->)
                     |[(_ & _ & _ & m & _ & ->)
                      |[(_ & Hs & ->)|[(_ & Hs & _ & ->)|(_ & ip & _ & ->)]]]]];
    try apply status_renewed_step; unfold status_step; cbn;
    first [ by left | right; left; by split | right; right; left; by split
          | right; right; right; by split ].
Qed.

(** X5. Access control.  A caller who is neither the owner of a token nor
    the provisioner cannot touch it: after any transaction of such a caller
    the token exists and its record is unchanged.  The provisioner (when not
    the owner) cannot end or extend it; the owner (when not the provisioner)
    cannot change its instance id or address. *)
Theorem record_access_control c e s s' evs id :
  call c e s = Ok (s', evs) → _exists s id = true →
  (sender e ≠ _ownerOf s id → sender e ≠ provisioner s →
     _exists s' id = true ∧ vm_at s' id = vm_at s id) ∧
  (sender e ≠ _ownerOf s id →
     _exists s' id = true ∧
     expiresAt (vm_at s' id) = expiresAt (vm_at s id) ∧
     lastRenewal (vm_at s' id) = lastRenewal (vm_at s id)) ∧
  (sender e ≠ provisioner s → _exists s' id = true →
     instanceId (vm_at s' id) = instanceId (vm_at s id) ∧
     ipAddress (vm_at s' id) = ipAddress (vm_at s id) ∧
     provisionedAt (vm_at s' id) = provisionedAt (vm_at s id)).
Proof.
  intros H Hex. destruct (call_edge c e s s' evs id H Hex) as [(H1 & H2 & H3)|[H1 H2]].
  { split; [|split]; [by intros ? | by intros ? | intros _ ?; congruence]. }
  destruct H2 as [->|[(Hp & _ & _ & inst & ip & _ & _ & ->)
                     |[(Ho & _ & _ & m & _ & ->)
                      |[([Ho|Hp] & _ & ->)|[(Ho & _ & _ & ->)|(Hp & ip & _ & ->)]]]]];
    (split; [|split]); try (by intros; congruence); try (by intros; cbn).
  all: intros _ _; unfold renewed; destruct (expiresAt (vm_at s id) <? now e); cbn;
    [destruct (status_eqb (status (vm_at s id)) SUSPENDED)|]; done.
Qed.

(** X6. What a renewal writes.  A renewal that goes through sets the expiry to
    [max expiresAt now + additionalMonths * SECONDS_PER_MONTH] and
    [lastRenewal] to [now]; it keeps the tier, the purchase time, the stored
    duration and the instance fields; it leaves every other record, every
    owner, the flags and the counter as they were. *)
Theorem renewVM_writes id m e s s' evs :
  renewVM id m e s = Ok (s', evs) →
  expiresAt (vm_at s' id)
  = Z.max (expiresAt (vm_at s id)) (now e) + m * SECONDS_PER_MONTH ∧
  expiresAt (vm_at s id) + SECONDS_PER_MONTH ≤ expiresAt (vm_at s' id) ∧
  lastRenewal (vm_at s' id) = now e ∧
  tier (vm_at s' id) = tier (vm_at s id) ∧
  purchasedAt (vm_at s' id) = purchasedAt (vm_at s id) ∧
  durationMonths (vm_at s' id) = durationMonths (vm_at s id) ∧
  instanceId (vm_at s' id) = instanceId (vm_at s id) ∧
  ipAddress (vm_at s' id) = ipAddress (vm_at s id) ∧
  (∀ i, i ≠ id → vm_at s' i = vm_at s i) ∧
  _owners s' = _owners s ∧ everProvisioned s' = everProvisioned s ∧
  _tokenIdCounter s' = _tokenIdCounter s.
Proof.
  intros H. apply renewVM_Ok_inv in H as (book & _ & _ & _ & Hm & _ & _ & _ & -> & _).
  rewrite vm_at_update_vm_eq.
  change (vm_at (with_token book s) id) with (vm_at s id).
  assert (∀ i, i ≠ id →
            vm_at (update_vm id (renewed m (now e)) (with_token book s)) i = vm_at s i)
    as Hother by (intros i Hi; by rewrite vm_at_update_vm_ne).
  unfold renewed, SECONDS_PER_MONTH.
  destruct (Z.ltb_spec (expiresAt (vm_at s id)) (now e)) as [Hlt|Hge].
  - destruct (status_eqb (status (vm_at s id)) SUSPENDED); cbn;
      repeat split; try done; lia.
  - cbn. repeat split; try done; lia.
Qed.

Lemma set_status_round_trip v :
  status v = ACTIVE → set_status ACTIVE (set_status SUSPENDED v) = v.
Proof. destruct v. cbn. by intros ->. Qed.

Lemma with_vms_same s : with_vms (vms s) s = s.
Proof. by destruct s. Qed.

(** X7. Suspending and reactivating is a round trip: when a suspension that
    went through is followed by a reactivation by the owner before the
    expiry, the reactivation goes through and the storage is exactly what
    it was before the suspension. *)
Theorem suspend_reactivate_round_trip id e e' s s1 evs :
  suspendVM id e s = Ok (s1, evs) →
  sender e' = _ownerOf s id → now e' < expiresAt (vm_at s id) →
  reactivateVM id e' s1 = Ok (s, [VMReactivated id (now e')]).
Proof.
  intros H Hown Hnow.
  assert ((0 <=? id) && (id <? 2 ^ 256) = true) as Habi.
  { unfold suspendVM in H. apply bind_Ok_inv in H as (x & E & _).
    by apply require_Ok_inv in E. }
  apply suspendVM_Ok_inv in H as (Hex & _ & Hst & -> & _).
  unfold reactivateVM, abi_uint, ownerOf. rewrite Habi. cbn [require]. rewrite bind_Ok.
  rewrite exists_update_vm, Hex. cbn [require]. rewrite bind_Ok.
  change (_ownerOf (update_vm id (set_status SUSPENDED) s) id) with (_ownerOf s id).
  fold (_exists s id). rewrite Hex. cbn [require]. rewrite !bind_Ok.
  rewrite (require_true (_ownerOf s id =? sender e')), bind_Ok by (by apply Z.eqb_eq).
  rewrite vm_at_update_vm_eq. cbn [status set_status expiresAt].
  rewrite (require_true (status_eqb SUSPENDED SUSPENDED)), bind_Ok by done.
  rewrite (require_true (now e' <? _)), bind_Ok by (by apply Z.ltb_lt).
  rewrite update_vm_update_vm. do 2 f_equal.
  unfold update_vm, store_vm. rewrite set_status_round_trip by done.
  assert (vms s !! id = Some (vm_at s id)) as Hv.
  { unfold vm_at in *. destruct (vms s !! id); [done|]. by cbn in Hst. }
  rewrite insert_id by done. apply with_vms_same.
Qed.

(** X8. Nothing is sold while the contract is paused: a transaction that goes
    through in a paused storage mints no token, leaves the counter alone and
    changes no expiry.  (Provisioning, suspension, reactivation, address
    updates and termination are not gated.) *)
Theorem no_sale_while_paused c e s s' evs :
  _paused s = true → call c e s = Ok (s', evs) →
  _tokenIdCounter s' = _tokenIdCounter s ∧
  (∀ id, _exists s' id = true → _exists s id = true) ∧
  (∀ id, _exists s id = true → _exists s' id = true →
         expiresAt (vm_at s' id) = expiresAt (vm_at s id)).
Proof.
  intros Hp H. pose proof (call_counter c e s s' evs H) as Hc.
  assert (_tokenIdCounter s' = _tokenIdCounter s ∧
          ∀ id, _exists s' id = true → _exists s id = true) as [Hctr Hmint].
  { destruct c; try exact Hc. destruct Hc as (Hnp & _). congruence. }
  split; [done|]. split; [done|]. intros id Hex Hex'.
  destruct (call_edge c e s s' evs id H Hex) as [(H1 & _)|[_ H2]]; [congruence|].
  destruct H2 as [->|[(_ & _ & _ & inst & ip & _ & _ & ->)
                     |[(_ & Hnp & _)
                      |[(_ & _ & ->)|[(_ & _ & _ & ->)|(_ & ip & _ & ->)]]]]];
    try done. congruence.
Qed.

(** X9. The expiry views and the renewal agree.  For an existing token whose
    grace deadline fits a [uint256], exactly one of three holds: it is not
    expired and not in grace; it is expired and in grace; or it is expired,
    out of grace, and every renewal is rejected.  A token reported active by
    [getVMDetails] is never reported expired. *)
Theorem expiry_views_agree id e s :
  _exists s id = true →
  expiresAt (vm_at s id) + GRACE_PERIOD ≤ MAX_UINT256 →
  ((now e < expiresAt (vm_at s id) ∧
    isVMExpired id e s = Ok false ∧ isInGracePeriod id e s = Ok false) ∨
   (expiresAt (vm_at s id) ≤ now e < expiresAt (vm_at s id) + GRACE_PERIOD ∧
    isVMExpired id e s = Ok true ∧ isInGracePeriod id e s = Ok true) ∨
   (expiresAt (vm_at s id) + GRACE_PERIOD ≤ now e ∧
    isVMExpired id e s = Ok true ∧ isInGracePeriod id e s = Ok false ∧
    ∀ m, is_ok (renewVM id m e s) = false)) ∧
  (∀ d, getVMDetails id e s = Ok d →
        d_active d = true → isVMExpired id e s = Ok false).
Proof.
  intros Hex Hfit. unfold isVMExpired, isInGracePeriod, getVMDetails, ownerOf.
  fold (_exists s id). rewrite Hex. cbn [require]. rewrite !bind_Ok.
  rewrite (checked_add_fits _ _ Hfit), bind_Ok. split.
  - destruct (Z.leb_spec (expiresAt (vm_at s id)) (now e)) as [Hle|Hgt].
    + destruct (Z.ltb_spec (now e) (expiresAt (vm_at s id) + GRACE_PERIOD)) as [Hlt|Hge].
      * right. left. done.
      * right. right. repeat split; try done. intros m.
        destruct (renewVM id m e s) as [[s' evs]|r] eqn:H; [|done].
        apply renewVM_Ok_inv in H as (book & _ & _ & _ & _ & _ & Hin & _). lia.
    + left. done.
  - intros d [= <-]. cbn. intros Ha. apply andb_true_iff in Ha as [Ha _].
    apply Z.ltb_lt in Ha. f_equal. apply Z.leb_gt. lia.
Qed.

Lemma ids_nonneg_run txs s :
  Inv s → (∀ id, _exists s id = true → 0 ≤ id) →
  ∀ id, _exists (run txs s) id = true → 0 ≤ id.
Proof.
  revert s. induction txs as [|[c e] txs IH]; intros s HI Hs; [done|].
  cbn [run]. apply IH; [by apply Inv_transact|].
  unfold transact. destruct (call c e s) as [[s' evs]|r] eqn:H; [|done]. cbn [fst].
  pose proof (call_counter c e s s' evs H) as Hc. intros id Hex.
  destruct c; try (destruct Hc as [_ Hc]; by apply Hs, Hc).
  destruct Hc as (_ & _ & Hc). destruct (Hc id Hex) as [?| ->]; [by apply Hs|].
  apply (inv_counter _ HI).
Qed.

Lemma sold_step c e s :
  _tokenIdCounter (fst (transact c e s))
  = _tokenIdCounter s
    + match c with
      | CallPurchaseVM t d => if is_ok (purchaseVM t d e s) then 1 else 0
      | _ => 0
      end.
Proof.
  unfold transact. destruct (call c e s) as [[s' evs]|r] eqn:H; cbn [fst].
  - pose proof (call_counter c e s s' evs H) as Hc.
    destruct c; try (destruct Hc as [-> _]; lia).
    cbn [call] in H. destruct (purchaseVM tier0 durationMonths0 e s); [|done].
    cbn. lia.
  - destruct c; try lia. cbn [call] in H.
    destruct (purchaseVM tier0 durationMonths0 e s); [done|]. cbn. lia.
Qed.

(** X10. The counter counts the sales: after any transactions the token
    counter has grown by exactly the number of purchases that went through;
    from a fresh deployment it is that number, and every existing token id
    lies in [0, counter). *)
Theorem counter_counts_purchases pt tr pr deployer this book s0 txs :
  constructor pt tr pr deployer this book = Ok s0 →
  _tokenIdCounter (run txs s0) = sold txs s0 ∧
  (∀ s txs', _tokenIdCounter (run txs' s) = _tokenIdCounter s + sold txs' s) ∧
  (∀ id, _exists (run txs s0) id = true → 0 ≤ id < _tokenIdCounter (run txs s0)).
Proof.
  intros H0.
  assert (∀ s txs', _tokenIdCounter (run txs' s) = _tokenIdCounter s + sold txs' s)
    as Hgen.
  { intros s txs'. revert s. induction txs' as [|[c e] txs' IH]; intros s.
    - cbn. lia.
    - cbn [run sold]. rewrite IH, sold_step. lia. }
  split; [|split; [exact Hgen|]].
  - rewrite Hgen. unfold constructor in H0. bind_inv H0. injection H0 as <-. cbn. lia.
  - intros id Hex.
    assert (reachable (run txs s0)) as Hr
      by (by exists pt, tr, pr, deployer, this, book, s0, txs).
    split; [|by apply (inv_exists _ (reachable_Inv _ Hr))].
    apply (ids_nonneg_run txs s0); [by eapply Inv_constructor | | done].
    intros i. unfold constructor in H0. bind_inv H0. injection H0 as <-.
    unfold _exists, _ownerOf. cbn. by rewrite lookup_empty.
Qed.

(** X11. A purchase can be read back: after a purchase that went through,
    [getVMDetails] of the new id, at any time, returns the buyer as owner,
    the tier, the purchase time, the expiry and the duration of the purchase,
    empty instance fields, status [PROVISIONING] and [active = false]. *)
Theorem purchase_then_details t d e s id s' evs e' :
  purchaseVM t d e s = Ok (id, s', evs) →
  ∃ tr, tier_index tr = t ∧
    getVMDetails id e' s'
    = Ok (mkDetails (sender e) tr (now e) (now e + d * SECONDS_PER_MONTH) d
            "" "" PROVISIONING false).
Proof.
  intros H. apply purchaseVM_Ok_inv in H
    as (tr & book & _ & Hto & Ht & _ & Htr & _ & -> & _ & -> & _).
  exists tr. split.
  { destruct (Tier_of_uint_total t Ht) as (tr' & Htr' & Hi). congruence. }
  unfold getVMDetails, ownerOf, _exists, _ownerOf, vm_at, store_vm. cbn.
  rewrite !lookup_insert_eq. cbn.
  replace (negb (sender e =? 0)) with true
    by (symmetry; by apply negb_true_iff, Z.eqb_neq).
  cbn. by rewrite andb_false_r.
Qed.

(** X12. A write-back can be read back: after a [setVMProvisioned] that went
    through, [getVMDetails] in the same block returns the instance id and the
    address that were written, status [ACTIVE] and [active = true], and the
    owner, tier and times unchanged. *)
Theorem provision_then_details id inst ip e s s1 evs :
  setVMProvisioned id inst ip e s = Ok (s1, evs) →
  getVMDetails id e s1
  = Ok (mkDetails (_ownerOf s id) (tier (vm_at s id)) (purchasedAt (vm_at s id))
          (expiresAt (vm_at s id)) (durationMonths (vm_at s id))
          inst ip ACTIVE true).
Proof.
  intros H. apply setVMProvisioned_Ok_inv in H as (_ & Hex & _ & Hnow & _ & _ & -> & _).
  unfold getVMDetails, ownerOf.
  change (_exists (with_everProvisioned ?m (update_vm ?i ?f s)) id) with (_exists s id).
  change (_ownerOf (with_everProvisioned ?m (update_vm ?i ?f s)) id)
    with (_ownerOf s id).
  change (vm_at (with_everProvisioned ?m ?s0) id) with (vm_at s0 id).
  rewrite vm_at_update_vm_eq. fold (_exists s id). rewrite Hex. cbn.
  by replace (now e <? expiresAt (vm_at s id)) with true
    by (symmetry; by apply Z.ltb_lt).
Qed.

(** X13. An address update that goes through changes the address and
    nothing else that [getVMDetails] reports, read at any one time before and
    after: owner, tier, times, duration, instance id, status and [active]
    stay.  Its event carries the old address and the new one. *)
Theorem updateIPAddress_then_details id newIP e s s1 evs e' d :
  updateIPAddress id newIP e s = Ok (s1, evs) →
  getVMDetails id e' s = Ok d →
  getVMDetails id e' s1
  = Ok (mkDetails (d_currentOwner d) (d_tier d) (d_purchasedAt d) (d_expiresAt d)
          (d_durationMonths d) (d_instanceId d) newIP (d_status d) (d_active d)) ∧
  evs = [IPAddressUpdated id (d_ipAddress d) newIP].
Proof.
  intros H Hd. apply updateIPAddress_Ok_inv in H as (Hex & _ & _ & _ & -> & ->).
  unfold getVMDetails, ownerOf in *.
  change (_exists (update_vm ?i ?f s) id) with (_exists s id).
  change (_ownerOf (update_vm ?i ?f s) id) with (_ownerOf s id).
  rewrite vm_at_update_vm_eq.
  fold (_exists s id) in Hd |- *. rewrite Hex in Hd |- *. cbn in Hd |- *.
  by injection Hd as <-.
Qed.

(** X14. A purchase with valid arguments goes through.  In a reachable,
    unpaused storage, for a tier index in [0,4] and a duration in [1,12], when
    the buyer holds and has approved the price, accepts the token, and
    neither the counter nor the expiry overflows, [purchaseVM] returns the
    current counter as the new id. *)
Theorem purchaseVM_goes_through t d e s tr :
  reachable s → _paused s = false → 0 ≤ t ≤ 4 → 1 ≤ d ≤ 12 →
  Tier_of_uint t = Ok tr →
  _getTierPrice tr * d ≤ allowance (token s) (sender e) (self s) →
  _getTierPrice tr * d ≤ balanceOf (token s) (sender e) →
  sender e ≠ 0 → accepts e = true →
  _tokenIdCounter s + 1 ≤ MAX_UINT256 → now e + d * SECONDS_PER_MONTH ≤ MAX_UINT256 →
  ∃ s' evs, purchaseVM t d e s = Ok (_tokenIdCounter s, s', evs) ∧
            _exists s' (_tokenIdCounter s) = true ∧
            _ownerOf s' (_tokenIdCounter s) = sender e.
Proof.
  intros Hr Hp Ht Hd Htr Hal Hbal Hs Hacc Hc Hn.
  destruct (purchaseVM_succeeds t d e s tr Hr Hp Ht Hd Htr) as (s' & evs & H); try done.
  { unfold safeTransferFrom.
    rewrite (require_true (_ <=? allowance _ _ _)), bind_Ok by (by apply Z.leb_le).
    by rewrite (require_true (_ <=? balanceOf _ _)), bind_Ok by (by apply Z.leb_le). }
  exists s', evs. split; [done|].
  apply purchaseVM_Ok_inv in H as (tr' & book & _ & _ & _ & _ & _ & _ & _ & _ & -> & _).
  unfold _exists, _ownerOf, store_vm. cbn. rewrite lookup_insert_eq. cbn.
  split; [by apply negb_true_iff, Z.eqb_neq | done].
Qed.

Lemma renewVM_Ok_expiry id m e s s' evs :
  renewVM id m e s = Ok (s', evs) →
  expiresAt (vm_at s' id)
  = Z.max (expiresAt (vm_at s id)) (now e) + m * SECONDS_PER_MONTH.
Proof.
  intros H. apply renewVM_Ok_inv in H as (book & _ & _ & _ & _ & _ & _ & _ & -> & _).
  rewrite vm_at_update_vm_eq.
  change (vm_at (with_token book s) id) with (vm_at s id).
  unfold renewed.
  destruct (Z.ltb_spec (expiresAt (vm_at s id)) (now e)) as [Hlt|Hge].
  - destruct (status_eqb (status (vm_at s id)) SUSPENDED); cbn; f_equal; lia.
  - cbn. f_equal. lia.
Qed.

(** X15. A renewal by the owner goes through.  In an unpaused storage, for
    an existing token and 1 to 12 months, before the end of the grace period,
    when the owner holds and has approved the price and the new expiry does
    not overflow, [renewVM] succeeds, and the new expiry is at least the
    paid months from now. *)
Theorem renewVM_goes_through id m e s :
  _paused s = false → 0 ≤ id < 2 ^ 256 →
  _exists s id = true → _ownerOf s id = sender e → 1 ≤ m ≤ 12 →
  status (vm_at s id) ≠ TERMINATED →
  now e < expiresAt (vm_at s id) + GRACE_PERIOD →
  _getTierPrice (tier (vm_at s id)) * m ≤ allowance (token s) (sender e) (self s) →
  _getTierPrice (tier (vm_at s id)) * m ≤ balanceOf (token s) (sender e) →
  now e + 12 * SECONDS_PER_MONTH ≤ MAX_UINT256 →
  expiresAt (vm_at s id) + 12 * SECONDS_PER_MONTH ≤ MAX_UINT256 →
  ∃ s' evs, renewVM id m e s = Ok (s', evs) ∧
            now e + m * SECONDS_PER_MONTH ≤ expiresAt (vm_at s' id).
Proof.
  intros Hp Hid Hex Ho Hm Hst Hg Hal Hbal Hn Hx.
  assert (is_ok (renewVM id m e s) = true) as Hok.
  { apply renewVM_succeeds; try done. unfold safeTransferFrom.
    rewrite (require_true (_ <=? allowance _ _ _)), bind_Ok by (by apply Z.leb_le).
    by rewrite (require_true (_ <=? balanceOf _ _)), bind_Ok by (by apply Z.leb_le). }
  destruct (renewVM id m e s) as [[s' evs]|r] eqn:H; [|done].
  exists s', evs. split; [done|].
  rewrite (renewVM_Ok_expiry id m e s s' evs H). lia.
Qed.

(** *** The properties at concrete storages *)

Definition admin_env (t : Z) : Env := mkEnv 1 t true.

Definition outsider_env (t : Z) : Env := mkEnv 4242 t true.

(** The deployment after one purchase and the write-back, then paused. *)
Definition paused_shop : State :=
  run [(CallPause, admin_env 2500)] Sim.provisioned.

Lemma provisioned_exists : _exists Sim.provisioned 0 = true.
Proof. by vm_compute. Defined.

Lemma purchased_exists : _exists Sim.purchased 0 = true.
Proof. by vm_compute. Defined.

Lemma stored_record_timing_witness :
  reachable Sim.provisioned ∧ _exists Sim.provisioned 0 = true ∧
  purchasedAt (vm_at Sim.provisioned 0) < expiresAt (vm_at Sim.provisioned 0).
Proof.
  split; [exact reachable_provisioned|]. split; [exact provisioned_exists|].
  exact (proj1 (stored_record_timing Sim.provisioned 0 reachable_provisioned
                  provisioned_exists)).
Defined.

Lemma stored_record_fulfilment_witness :
  reachable Sim.provisioned ∧ _exists Sim.provisioned 0 = true ∧
  (status (vm_at Sim.provisioned 0) ≠ PROVISIONING →
     instanceId (vm_at Sim.provisioned 0) ≠ "" ∧ ipAddress (vm_at Sim.provisioned 0) ≠ "").
Proof.
  split; [exact reachable_provisioned|]. split; [exact provisioned_exists|].
  exact (proj2 (proj2 (stored_record_fulfilment Sim.provisioned 0 reachable_provisioned
                         provisioned_exists))).
Defined.

Lemma terminated_never_stored_witness :
  reachable Sim.provisioned ∧
  ∀ id e, terminateVM id e Sim.provisioned ≠ Revert "Already terminated".
Proof.
  split; [exact reachable_provisioned|].
  exact (proj1 (proj2 (terminated_never_stored Sim.provisioned reachable_provisioned))).
Defined.

Lemma suspend_provisioned :
  call (CallSuspendVM 0) (Sim.buyer_env 3000) Sim.provisioned
  = Ok (Sim.suspended, [VMSuspended 0 3000]).
Proof. vm_compute. reflexivity. Defined.

Lemma status_follows_state_machine_witness :
  call (CallSuspendVM 0) (Sim.buyer_env 3000) Sim.provisioned
  = Ok (Sim.suspended, [VMSuspended 0 3000]) ∧
  _exists Sim.provisioned 0 = true ∧
  ((_exists Sim.suspended 0 = false ∧ vms Sim.suspended !! 0 = None ∧
    sender (Sim.buyer_env 3000) = _ownerOf Sim.provisioned 0) ∨
   (_exists Sim.suspended 0 = true ∧
    status_step (status (vm_at Sim.provisioned 0)) (status (vm_at Sim.suspended 0)))).
Proof.
  split; [exact suspend_provisioned|]. split; [exact provisioned_exists|].
  exact (status_follows_state_machine _ _ _ _ _ 0 suspend_provisioned provisioned_exists).
Defined.

Lemma outsider_transfer :
  call (CallTransferFrom 100 4242 0) (outsider_env 3000) Sim.provisioned
  = Ok (with_owners (<[0 := 4242]> (_owners Sim.provisioned)) Sim.provisioned,
        [Transfer 100 4242 0]).
Proof. vm_compute. reflexivity. Defined.

Lemma record_access_control_witness :
  _exists Sim.provisioned 0 = true ∧
  sender (outsider_env 3000) ≠ _ownerOf Sim.provisioned 0 ∧
  sender (outsider_env 3000) ≠ provisioner Sim.provisioned ∧
  vm_at (with_owners (<[0 := 4242]> (_owners Sim.provisioned)) Sim.provisioned) 0
  = vm_at Sim.provisioned 0.
Proof.
  split; [exact provisioned_exists|].
  assert (sender (outsider_env 3000) ≠ _ownerOf Sim.provisioned 0) as H1
    by (by vm_compute).
  assert (sender (outsider_env 3000) ≠ provisioner Sim.provisioned) as H2
    by (by vm_compute).
  split; [exact H1|]. split; [exact H2|].
  exact (proj2 (proj1 (record_access_control _ _ _ _ _ 0 outsider_transfer
                         provisioned_exists) H1 H2)).
Defined.

Lemma renew_provisioned :
  is_ok (renewVM 0 2 (Sim.buyer_env 5000) Sim.provisioned) = true.
Proof. by vm_compute. Defined.

Lemma renewVM_writes_witness :
  is_ok (renewVM 0 2 (Sim.buyer_env 5000) Sim.provisioned) = true ∧
  expiresAt (vm_at (fst (transact (CallRenewVM 0 2) (Sim.buyer_env 5000)
                           Sim.provisioned)) 0)
  = Z.max 7890400 5000 + 2 * SECONDS_PER_MONTH.
Proof.
  split; [exact renew_provisioned|].
  destruct (renewVM 0 2 (Sim.buyer_env 5000) Sim.provisioned) as [[s' evs]|r] eqn:H;
    [|by vm_compute in H].
  assert (transact (CallRenewVM 0 2) (Sim.buyer_env 5000) Sim.provisioned = (s', evs))
    as -> by (unfold transact; cbn [call]; by rewrite H).
  exact (proj1 (renewVM_writes 0 2 (Sim.buyer_env 5000) Sim.provisioned s' evs H)).
Defined.

Lemma suspendVM_provisioned :
  suspendVM 0 (Sim.buyer_env 3000) Sim.provisioned
  = Ok (Sim.suspended, [VMSuspended 0 3000]).
Proof. vm_compute. reflexivity. Defined.

Lemma suspend_reactivate_round_trip_witness :
  suspendVM 0 (Sim.buyer_env 3000) Sim.provisioned
  = Ok (Sim.suspended, [VMSuspended 0 3000]) ∧
  sender (Sim.buyer_env 3500) = _ownerOf Sim.provisioned 0 ∧
  now (Sim.buyer_env 3500) < expiresAt (vm_at Sim.provisioned 0) ∧
  reactivateVM 0 (Sim.buyer_env 3500) Sim.suspended
  = Ok (Sim.provisioned, [VMReactivated 0 3500]).
Proof.
  assert (sender (Sim.buyer_env 3500) = _ownerOf Sim.provisioned 0) as H1
    by (by vm_compute).
  assert (now (Sim.buyer_env 3500) < expiresAt (vm_at Sim.provisioned 0)) as H2
    by (by vm_compute).
  split; [exact suspendVM_provisioned|]. split; [exact H1|]. split; [exact H2|].
  exact (suspend_reactivate_round_trip 0 _ (Sim.buyer_env 3500) _ _ _
           suspendVM_provisioned H1 H2).
Defined.

Lemma paused_shop_paused : _paused paused_shop = true.
Proof. by vm_compute. Defined.

Lemma suspend_paused_shop :
  is_ok (call (CallSuspendVM 0) (Sim.buyer_env 3000) paused_shop) = true.
Proof. by vm_compute. Defined.

Lemma no_sale_while_paused_witness :
  _paused paused_shop = true ∧
  is_ok (call (CallSuspendVM 0) (Sim.buyer_env 3000) paused_shop) = true ∧
  _tokenIdCounter (fst (transact (CallSuspendVM 0) (Sim.buyer_env 3000) paused_shop))
  = _tokenIdCounter paused_shop.
Proof.
  split; [exact paused_shop_paused|]. split; [exact suspend_paused_shop|].
  destruct (call (CallSuspendVM 0) (Sim.buyer_env 3000) paused_shop)
    as [[s' evs]|r] eqn:H; [|by vm_compute in H].
  assert (transact (CallSuspendVM 0) (Sim.buyer_env 3000) paused_shop = (s', evs))
    as -> by (unfold transact; by rewrite H).
  exact (proj1 (no_sale_while_paused _ _ _ _ _ paused_shop_paused H)).
Defined.

Lemma expiry_views_agree_witness :
  _exists Sim.provisioned 0 = true ∧
  expiresAt (vm_at Sim.provisioned 0) + GRACE_PERIOD ≤ MAX_UINT256 ∧
  ∀ d, getVMDetails 0 (Sim.buyer_env 5000) Sim.provisioned = Ok d →
       d_active d = true → isVMExpired 0 (Sim.buyer_env 5000) Sim.provisioned = Ok false.
Proof.
  assert (expiresAt (vm_at Sim.provisioned 0) + GRACE_PERIOD ≤ MAX_UINT256) as H
    by (by vm_compute).
  split; [exact provisioned_exists|]. split; [exact H|].
  exact (proj2 (expiry_views_agree 0 (Sim.buyer_env 5000) Sim.provisioned
                  provisioned_exists H)).
Defined.

Lemma deploy_shop : constructor 55 77 88 1 999 Sim.book0 = Ok Sim.deployed.
Proof. reflexivity. Defined.

Lemma counter_counts_purchases_witness :
  constructor 55 77 88 1 999 Sim.book0 = Ok Sim.deployed ∧
  _tokenIdCounter Sim.terminated
  = sold [(CallPurchaseVM 2 3, Sim.buyer_env 1000);
          (CallSetVMProvisioned 0 "i-0" "203.0.113.7", Sim.provisioner_env 2000);
          (CallTerminateVM 0, Sim.buyer_env 4000)] Sim.deployed.
Proof.
  split; [exact deploy_shop|].
  exact (proj1 (counter_counts_purchases 55 77 88 1 999 Sim.book0 Sim.deployed
                  [(CallPurchaseVM 2 3, Sim.buyer_env 1000);
                   (CallSetVMProvisioned 0 "i-0" "203.0.113.7", Sim.provisioner_env 2000);
                   (CallTerminateVM 0, Sim.buyer_env 4000)] deploy_shop)).
Defined.

Lemma purchase_deployed :
  purchaseVM 2 3 (Sim.buyer_env 1000) Sim.deployed
  = Ok (0, Sim.purchased,
        [Transfer 0 100 0; VMPurchased 0 100 MEDIUM 3 7890400 75000000]).
Proof. vm_compute. reflexivity. Defined.

Lemma purchase_then_details_witness :
  purchaseVM 2 3 (Sim.buyer_env 1000) Sim.deployed
  = Ok (0, Sim.purchased,
        [Transfer 0 100 0; VMPurchased 0 100 MEDIUM 3 7890400 75000000]) ∧
  ∃ tr, tier_index tr = 2 ∧
    getVMDetails 0 (outsider_env 9999) Sim.purchased
    = Ok (mkDetails 100 tr 1000 (1000 + 3 * SECONDS_PER_MONTH) 3
            "" "" PROVISIONING false).
Proof.
  split; [exact purchase_deployed|].
  exact (purchase_then_details 2 3 _ _ 0 _ _ (outsider_env 9999) purchase_deployed).
Defined.

Lemma provision_then_details_witness :
  setVMProvisioned 0 "i-0" "203.0.113.7" (Sim.provisioner_env 2000) Sim.purchased
  = Ok (Sim.provisioned, [VMProvisioned 0 "i-0" "203.0.113.7" 2000]) ∧
  getVMDetails 0 (Sim.provisioner_env 2000) Sim.provisioned
  = Ok (mkDetails (_ownerOf Sim.purchased 0) (tier (vm_at Sim.purchased 0))
          (purchasedAt (vm_at Sim.purchased 0)) (expiresAt (vm_at Sim.purchased 0))
          (durationMonths (vm_at Sim.purchased 0)) "i-0" "203.0.113.7" ACTIVE true).
Proof.
  split; [exact provision_purchased|].
  exact (provision_then_details 0 _ _ _ _ _ _ provision_purchased).
Defined.

Lemma updateIP_purchased :
  updateIPAddress 0 "198.51.100.9" (Sim.provisioner_env 1200) Sim.purchased
  = Ok (update_vm 0 (set_ipAddress "198.51.100.9") Sim.purchased,
        [IPAddressUpdated 0 "" "198.51.100.9"]).
Proof. vm_compute. reflexivity. Defined.

Lemma details_purchased :
  getVMDetails 0 (outsider_env 1300) Sim.purchased
  = Ok (mkDetails 100 MEDIUM 1000 7890400 3 "" "" PROVISIONING false).
Proof. vm_compute. reflexivity. Defined.

Lemma updateIPAddress_then_details_witness :
  updateIPAddress 0 "198.51.100.9" (Sim.provisioner_env 1200) Sim.purchased
  = Ok (update_vm 0 (set_ipAddress "198.51.100.9") Sim.purchased,
        [IPAddressUpdated 0 "" "198.51.100.9"]) ∧
  getVMDetails 0 (outsider_env 1300) Sim.purchased
  = Ok (mkDetails 100 MEDIUM 1000 7890400 3 "" "" PROVISIONING false) ∧
  getVMDetails 0 (outsider_env 1300)
    (update_vm 0 (set_ipAddress "198.51.100.9") Sim.purchased)
  = Ok (mkDetails 100 MEDIUM 1000 7890400 3 "" "198.51.100.9" PROVISIONING false).
Proof.
  split; [exact updateIP_purchased|]. split; [exact details_purchased|].
  exact (proj1 (updateIPAddress_then_details 0 _ _ _ _ _ (outsider_env 1300) _
                  updateIP_purchased details_purchased)).
Defined.

Lemma reachable_deployed : reachable Sim.deployed.
Proof.
  exists 55, 77, 88, 1, 999, Sim.book0, Sim.deployed, []. split; reflexivity.
Defined.

Lemma purchaseVM_goes_through_witness :
  reachable Sim.deployed ∧ _paused Sim.deployed = false ∧ 0 ≤ 2 ≤ 4 ∧ 1 ≤ 3 ≤ 12 ∧
  Tier_of_uint 2 = Ok MEDIUM ∧
  _getTierPrice MEDIUM * 3
  ≤ allowance (token Sim.deployed) (sender (Sim.buyer_env 1000)) (self Sim.deployed) ∧
  _getTierPrice MEDIUM * 3
  ≤ balanceOf (token Sim.deployed) (sender (Sim.buyer_env 1000)) ∧
  sender (Sim.buyer_env 1000) ≠ 0 ∧ accepts (Sim.buyer_env 1000) = true ∧
  _tokenIdCounter Sim.deployed + 1 ≤ MAX_UINT256 ∧
  now (Sim.buyer_env 1000) + 3 * SECONDS_PER_MONTH ≤ MAX_UINT256 ∧
  ∃ s' evs, purchaseVM 2 3 (Sim.buyer_env 1000) Sim.deployed = Ok (0, s', evs).
Proof.
  assert (_getTierPrice MEDIUM * 3
          ≤ allowance (token Sim.deployed) (sender (Sim.buyer_env 1000))
              (self Sim.deployed)) as Hal by (by vm_compute).
  assert (_getTierPrice MEDIUM * 3
          ≤ balanceOf (token Sim.deployed) (sender (Sim.buyer_env 1000))) as Hbal
    by (by vm_compute).
  assert (_tokenIdCounter Sim.deployed + 1 ≤ MAX_UINT256) as Hc by (by vm_compute).
  assert (now (Sim.buyer_env 1000) + 3 * SECONDS_PER_MONTH ≤ MAX_UINT256) as Hn
    by (by vm_compute).
  assert (sender (Sim.buyer_env 1000) ≠ 0) as Hs by (by vm_compute).
  repeat (split; [first [exact reachable_deployed | done | lia]|]).
  destruct (purchaseVM_goes_through 2 3 (Sim.buyer_env 1000) Sim.deployed MEDIUM
              reachable_deployed eq_refl ltac:(lia) ltac:(lia) eq_refl Hal Hbal Hs
              eq_refl Hc Hn) as (s' & evs & H & _).
  by exists s', evs.
Defined.

Lemma renewVM_goes_through_witness :
  _paused Sim.provisioned = false ∧ 0 ≤ 0 < 2 ^ 256 ∧
  _exists Sim.provisioned 0 = true ∧
  ∃ s' evs, renewVM 0 1 (Sim.buyer_env 5000) Sim.provisioned = Ok (s', evs) ∧
            now (Sim.buyer_env 5000) + 1 * SECONDS_PER_MONTH ≤ expiresAt (vm_at s' 0).
Proof.
  split; [by vm_compute|]. split; [by vm_compute|]. split; [exact provisioned_exists|].
  apply (renewVM_goes_through 0 1 (Sim.buyer_env 5000) Sim.provisioned);
    first [exact provisioned_exists | lia | by vm_compute].
Defined.

End LedgerExtra.

(** ** More about the backend *)

Module BackendExtra.
Import Backend BackendProofs.

(** A trace all of whose effects satisfy [p]. *)
Definition only (p : Effect → bool) (new : list Effect) : Prop := forallb p new = true.

Lemma only_app p x y : only p x → only p y → only p (x ++ y).
Proof. unfold only. rewrite forallb_app. by intros -> ->. Qed.

Definition is_status (ev : Effect) : bool :=
  match ev with
  | StatusLogged _ _ => true
  | _ => false
  end.

(** Effects of the cloud provider and of the chain, as opposed to the log. *)
Definition is_request (ev : Effect) : bool :=
  match ev with
  | GcpCreateVM _ | GcpOperationPromise | GcpGetMetadata _ | AwsRunInstances _
  | AwsDescribeInstances _ | ContractSetVMProvisioned _ _ _ | TxWait => true
  | _ => false
  end.

(** A result object as [provisionVM] can return it. *)
Definition well_shaped (r : ProvisionResult) : Prop :=
  (success r = true →
     is_Some (instanceId r) ∧ is_Some (provider r) ∧ is_Some (sshPrivateKey r) ∧
     error r = None) ∧
  (success r = false →
     is_Some (error r) ∧ instanceId r = None ∧ ipAddress r = None ∧
     provider r = None ∧ sshPrivateKey r = None).

Section More.

Context {W : Type}.
Variable svc : @Services W.

(** [returns P m]: when [m] completes normally, its value satisfies [P]. *)
Definition returns {A} (P : A → Prop) (m : @M W A) : Prop :=
  ∀ st a, fst (m st) = Normal a → P a.

Lemma returns_ret {A} (P : A → Prop) a : P a → returns P (@ret W A a).
Proof. intros HP st a' [= <-]. done. Qed.

Lemma returns_throw {A} (P : A → Prop) msg : returns P (@throw W A msg).
Proof. intros st a. discriminate. Qed.

Lemma returns_bind {A B} (P : B → Prop) (m : @M W A) (f : A → @M W B) :
  (∀ a, returns P (f a)) → returns P (bind m f).
Proof.
  intros Hf st b. unfold bind. destruct (m st) as [[a|msg|] st1]; cbn; [|done..].
  apply Hf.
Qed.

Lemma emits_only_bind {A B} p (m : @M W A) (f : A → @M W B) :
  emits (only p) m → (∀ a, emits (only p) (f a)) → emits (only p) (bind m f).
Proof. apply emits_bind; [done | apply only_app]. Qed.

Lemma emits_only_try_catch {A} p (m : @M W A) (h : string → @M W A) :
  emits (only p) m → (∀ msg, emits (only p) (h msg)) → emits (only p) (try_catch m h).
Proof. apply emits_try_catch; [done | apply only_app]. Qed.

Lemma emits_only_perform {A} p ev (f : W → Answer A * W) :
  p ev = true → emits (only p) (perform ev f).
Proof. intros Hp. apply emits_perform. unfold only. cbn. by rewrite Hp. Qed.

Lemma emits_only_updateVMStatus p tokenId u :
  p (StatusLogged tokenId u) = true → emits (only p) (@updateVMStatus W tokenId u).
Proof.
  intros Hp st. exists [StatusLogged tokenId u]. split; [done|].
  unfold only. cbn. by rewrite Hp.
Qed.

Lemma emits_only_lookup_config p tier : emits (only p) (@lookup_config W tier).
Proof.
  unfold lookup_config. destruct tier as [t|]; [destruct (VM_CONFIGS t)|];
    first [by apply emits_ret | by apply emits_throw].
Qed.

Lemma emits_only_poll p fuel instance publicIP attempts :
  p (Sleep 2000) = true → p (AwsDescribeInstances instance) = true →
  emits (only p) (poll svc fuel instance publicIP attempts).
Proof.
  intros Hs Hd. revert publicIP attempts.
  induction fuel as [|fuel IH]; intros publicIP attempts; cbn [poll];
    destruct (falsy publicIP && (attempts <? 30)); try (by apply emits_ret).
  - intros st. exists []. by rewrite app_nil_r.
  - apply emits_only_bind; [by apply emits_only_perform|]. intros _.
    apply emits_only_bind; [by apply emits_only_perform|]. intros ip. apply IH.
Qed.

(** *** The shape of provisioning results *)

Lemma returns_provisionGCP tokenId tier buyer :
  returns well_shaped (provisionGCP svc tokenId tier buyer).
Proof.
  unfold provisionGCP. repeat (apply returns_bind; intros ?).
  apply returns_ret. split; cbn; [eauto 10 | done].
Qed.

Lemma returns_provisionAWS fuel tokenId tier buyer :
  returns (λ r, well_shaped r ∧ falsy (ipAddress r) = false)
          (provisionAWS svc fuel tokenId tier buyer).
Proof.
  unfold provisionAWS. repeat (apply returns_bind; intros ?).
  destruct (falsy _) eqn:Hf; [apply returns_throw | apply returns_ret].
  split; [|done]. split; cbn; [eauto 10 | done].
Qed.

Lemma provisionVM_cases P fuel tokenId buyer tier :
  (provisionVM svc P fuel tokenId buyer tier
   = try_catch (provisionGCP svc tokenId tier buyer)
       (λ message, ret (mkProvisionResult false None None None None (Some message))))
  ∨ (provisionVM svc P fuel tokenId buyer tier
     = try_catch (provisionAWS svc fuel tokenId tier buyer)
         (λ message, ret (mkProvisionResult false None None None None (Some message))))
  ∨ (∃ p, P = Some p ∧ p ≠ "" ∧ p ≠ "gcp" ∧ p ≠ "aws" ∧
       provisionVM svc P fuel tokenId buyer tier
       = try_catch (throw ("Unsupported provider: " +:+ p))
           (λ message, ret (mkProvisionResult false None None None None (Some message)))).
Proof.
  unfold provisionVM. cbv zeta. destruct P as [p|]; [|left; reflexivity].
  cbn [falsy]. change (default "" (Some p)) with p.
  destruct (String.eqb_spec p "") as [->|Hne]; [left; reflexivity|].
  destruct (String.eqb_spec p "gcp") as [->|Hng]; [left; reflexivity|].
  destruct (String.eqb_spec p "aws") as [->|Hna]; [right; left; reflexivity|].
  right. right. exists p. repeat split; done.
Qed.

Lemma provisionVM_normal P fuel tokenId buyer tier st :
  (30 ≤ fuel)%nat →
  ∃ r, fst (provisionVM svc P fuel tokenId buyer tier st) = Normal r ∧ well_shaped r.
Proof.
  intros Hfuel.
  pose proof (fueled_provisionVM svc P fuel tokenId buyer tier Hfuel st) as Hne.
  assert (∀ msg, well_shaped (mkProvisionResult false None None None None (Some msg)))
    as Hfail by (intros msg; split; cbn; [done | eauto 10]).
  destruct (provisionVM_cases P fuel tokenId buyer tier) as [E|[E|(p & _ & _ & _ & _ & E)]];
    rewrite E in Hne |- *; unfold try_catch in *.
  - pose proof (returns_provisionGCP tokenId tier buyer st) as Hr.
    destruct (provisionGCP svc tokenId tier buyer st) as [[r|msg|] st1]; cbn in *;
      [exists r; split; [done | by apply Hr] | eauto | done].
  - pose proof (returns_provisionAWS fuel tokenId tier buyer st) as Hr.
    destruct (provisionAWS svc fuel tokenId tier buyer st) as [[r|msg|] st1]; cbn in *;
      [exists r; split; [done | by apply Hr] | eauto | done].
  - cbn. eauto.
Qed.

Lemma emits_only_provisionVM p P fuel tokenId buyer tier :
  (∀ ev, is_status ev = false → p ev = true) →
  emits (only p) (provisionVM svc P fuel tokenId buyer tier).
Proof.
  intros Hp.
  destruct (provisionVM_cases P fuel tokenId buyer tier) as [E|[E|(q & _ & _ & _ & _ & E)]];
    rewrite E; apply emits_only_try_catch; try (intros msg; by apply emits_ret).
  - unfold provisionGCP, generateSSHKeyPair.
    apply emits_only_bind; [apply emits_only_lookup_config | intros c].
    repeat (apply emits_only_bind; [by apply emits_only_perform, Hp | intros ?]).
    by apply emits_ret.
  - unfold provisionAWS, generateSSHKeyPair.
    apply emits_only_bind; [apply emits_only_lookup_config | intros c].
    repeat (apply emits_only_bind; [by apply emits_only_perform, Hp | intros ?]).
    apply emits_only_bind; [apply emits_only_poll; by apply Hp | intros ip].
    destruct (falsy ip); [by apply emits_throw | by apply emits_ret].
  - by apply emits_throw.
Qed.

End More.

(** X16. [provisionVM] always returns a result object: with fuel from 30 on
    and whatever the cloud answers, it completes normally, never with an
    exception.  A result with [success] carries an instance id, a provider
    and a private key and no error; a result without [success] carries an
    error message and nothing else. *)
Theorem provisionVM_always_returns {W : Type} (svc : @Services W)
    (P : option string) (fuel : nat) (tokenId buyer : string) (tier : option string)
    (st : W * list Effect) :
  (30 ≤ fuel)%nat →
  ∃ r, fst (provisionVM svc P fuel tokenId buyer tier st) = Normal r ∧
       (success r = true →
          is_Some (instanceId r) ∧ is_Some (provider r) ∧ is_Some (sshPrivateKey r) ∧
          error r = None) ∧
       (success r = false →
          is_Some (error r) ∧ instanceId r = None ∧ ipAddress r = None ∧
          provider r = None ∧ sshPrivateKey r = None).
Proof. intros Hfuel. by apply provisionVM_normal. Qed.

(** X17. One status per delivery.  With fuel from 30 on and whatever the
    cloud and the chain answer, a run of the purchase handler completes
    normally and logs exactly one status for the token, as its last effect:
    "running", "failed" or "error".  It logs "running" only when the last two
    effects before it are the write-back of that same instance id and
    address and the wait for its confirmation, and then without an error;
    "failed" and "error" always come with an error message. *)
Theorem handleVMPurchased_logs_one_status {W : Type} (svc : @Services W)
    (P : option string) (fuel : nat) (tokenId : Z) (buyer : string) (tier : Z)
    (st : W * list Effect) :
  (30 ≤ fuel)%nat →
  fst (handleVMPurchased svc P fuel tokenId buyer tier st) = Normal tt ∧
  ∃ pre u,
    snd (snd (handleVMPurchased svc P fuel tokenId buyer tier st))
    = (snd st ++ pre ++ [StatusLogged (pretty tokenId) u])%list ∧
    only (λ ev, negb (is_status ev)) pre ∧
    (su_status u = "running" ∨ su_status u = "failed" ∨ su_status u = "error") ∧
    (su_status u = "running" →
       su_error u = None ∧
       ∃ pre', pre = (pre' ++ [ContractSetVMProvisioned tokenId
                                 (default "" (su_instanceId u)) (su_ipAddress u);
                               TxWait])%list) ∧
    (su_status u ≠ "running" → is_Some (su_error u)).
Proof.
  intros Hfuel. split; [by apply handleVMPurchased_normal|].
  unfold handleVMPurchased, try_catch, bind.
  destruct (provisionVM_normal svc P fuel (pretty tokenId) buyer (tier_name tier) st Hfuel)
    as (r & Hr & Hshape).
  destruct (emits_only_provisionVM svc (λ ev, negb (is_status ev)) P fuel
              (pretty tokenId) buyer (tier_name tier)
              ltac:(intros ev Hev; cbn; by rewrite Hev) st) as (new & Hnew & Honly).
  destruct (provisionVM svc P fuel (pretty tokenId) buyer (tier_name tier) st)
    as [c st1]. cbn [fst snd] in Hr, Hnew. subst c.
  destruct (success r) eqn:Hs.
  - unfold perform. cbn [fst snd].
    destruct (contract_setVMProvisioned svc tokenId (default "" (instanceId r))
                (ipAddress r) st1.1) as [[[]|msg] w1]; cbn [fst snd answered].
    + destruct (tx_wait svc w1) as [[[]|msg] w2]; cbn [fst snd answered updateVMStatus].
      * eexists (new ++ [_; _])%list, _. rewrite Hnew, <- !app_assoc. cbn [app].
        split; [reflexivity|]. split; [by apply only_app|].
        split; [by left|]. split; [|by intros []]. intros _. split; [done|].
        by exists new.
      * eexists (new ++ [_; _])%list, _. rewrite Hnew, <- !app_assoc. cbn [app].
        split; [reflexivity|]. split; [by apply only_app|].
        split; [by right; right|]. split; [by intros [=]|]. intros _. by eexists.
    + unfold updateVMStatus. cbn [fst snd].
      eexists (new ++ [_])%list, _. rewrite Hnew, <- !app_assoc. cbn [app].
      split; [reflexivity|]. split; [by apply only_app|].
      split; [by right; right|]. split; [by intros [=]|]. intros _. by eexists.
  - unfold updateVMStatus. cbn [fst snd].
    exists new, (mkStatusUpdate "failed" None None None None (error r)).
    rewrite Hnew. split; [by rewrite <- app_assoc|]. split; [done|].
    split; [by right; left|]. split; [by intros [=]|]. intros _. cbn.
    by apply (proj2 Hshape).
Qed.

(** What the GCP path may do for a token: no sleep, no request to EC2, and
    creation requests only under the name derived from the token id. *)
Definition gcp_effect (tokenId : string) (ev : Effect) : bool :=
  match ev with
  | Sleep _ | AwsDescribeInstances _ | AwsRunInstances _ => false
  | GcpCreateVM r => String.eqb (req_name r) ("clawcloud-" +:+ tokenId)
  | _ => true
  end.

(** X18. The GCP path never polls.  With GCP as the provider (the default
    when [PREFERRED_PROVIDER] is unset or empty), whatever the fuel and the
    answers, a run of the purchase handler performs no sleep and no request
    to EC2, and every creation request it sends is named
    ["clawcloud-" + tokenId]: a redelivered event asks for the same name. *)
Theorem gcp_path_never_polls {W : Type} (svc : @Services W)
    (P : option string) (fuel : nat) (tokenId : Z) (buyer : string) (tier : Z)
    (st : W * list Effect) :
  P = None ∨ P = Some "" ∨ P = Some "gcp" →
  ∃ new,
    snd (snd (handleVMPurchased svc P fuel tokenId buyer tier st))
    = (snd st ++ new)%list ∧
    describes new = 0%nat ∧
    (∀ ev, In ev new →
       match ev with
       | Sleep _ | AwsDescribeInstances _ | AwsRunInstances _ => False
       | GcpCreateVM r => req_name r = "clawcloud-" +:+ pretty tokenId
       | _ => True
       end).
Proof.
  intros HP.
  assert (emits (only (gcp_effect (pretty tokenId)))
            (handleVMPurchased svc P fuel tokenId buyer tier)) as Hem.
  { unfold handleVMPurchased.
    apply emits_only_try_catch; [|intros msg; by apply emits_only_updateVMStatus].
    apply emits_only_bind.
    - rewrite provisionVM_gcp by done.
      apply emits_only_try_catch; [|intros msg; by apply emits_ret].
      unfold provisionGCP, generateSSHKeyPair.
      apply emits_only_bind; [apply emits_only_lookup_config | intros c].
      apply emits_only_bind; [by apply emits_only_perform | intros k].
      apply emits_only_bind;
        [apply emits_only_perform; cbn; by apply String.eqb_refl | intros _].
      apply emits_only_bind; [by apply emits_only_perform | intros _].
      apply emits_only_bind; [by apply emits_only_perform | intros ip].
      by apply emits_ret.
    - intros r. destruct (success r); [|by apply emits_only_updateVMStatus].
      apply emits_only_bind; [by apply emits_only_perform | intros _].
      apply emits_only_bind; [by apply emits_only_perform | intros _].
      by apply emits_only_updateVMStatus. }
  destruct (Hem st) as (new & Hnew & Honly). exists new. split; [done|].
  unfold only in Honly. rewrite forallb_forall in Honly. split.
  - clear Hnew. unfold describes. revert Honly.
    induction new as [|ev new IH]; intros Honly; [done|].
    pose proof (Honly ev (or_introl eq_refl)) as Hev.
    destruct ev; cbn in Hev |- *; try discriminate;
      apply IH; intros x Hx; apply Honly; by right.
  - intros ev Hin. specialize (Honly ev Hin). destruct ev; cbn in Honly; try done.
    by apply String.eqb_eq.
Qed.

(** X19. A tier index outside [0,4] reaches no one: with GCP or AWS as the
    provider the handler sends nothing to the cloud or to the chain, leaves
    the world as it was, logs the status "failed" with an error, and
    completes normally. *)
Theorem bad_tier_reaches_no_one {W : Type} (svc : @Services W)
    (P : option string) (fuel : nat) (tokenId : Z) (buyer : string) (tier : Z)
    (st : W * list Effect) :
  P = None ∨ P = Some "" ∨ P = Some "gcp" ∨ P = Some "aws" →
  tier < 0 ∨ 4 < tier →
  ∃ msg,
    handleVMPurchased svc P fuel tokenId buyer tier st
    = (Normal tt,
       (fst st,
        (snd st ++ [StatusLogged (pretty tokenId)
                      (mkStatusUpdate "failed" None None None None (Some msg))])%list)).
Proof.
  intros HP Ht.
  assert (tier_name tier = None) as Hname.
  { unfold tier_name. destruct (Z.ltb_spec tier 0) as [|Hge]; [done|].
    apply lookup_ge_None_2. cbn. lia. }
  exists "Cannot read properties of undefined".
  unfold handleVMPurchased. rewrite Hname.
  destruct HP as [HP|[HP|[HP| ->]]].
  1-3: rewrite provisionVM_gcp by tauto; destruct st; reflexivity.
  rewrite provisionVM_aws. destruct st. reflexivity.
Qed.

(** X20. An unsupported provider reaches no one: when [PREFERRED_PROVIDER]
    is set to anything but "gcp" or "aws", the handler sends nothing, leaves
    the world as it was, and logs the status "failed" with the error
    "Unsupported provider: " followed by the name. *)
Theorem unsupported_provider_reaches_no_one {W : Type} (svc : @Services W)
    (p : string) (fuel : nat) (tokenId : Z) (buyer : string) (tier : Z)
    (st : W * list Effect) :
  p ≠ "" → p ≠ "gcp" → p ≠ "aws" →
  handleVMPurchased svc (Some p) fuel tokenId buyer tier st
  = (Normal tt,
     (fst st,
      (snd st ++ [StatusLogged (pretty tokenId)
                    (mkStatusUpdate "failed" None None None None
                       (Some ("Unsupported provider: " +:+ p)))])%list)).
Proof.
  intros H1 H2 H3. unfold handleVMPurchased, provisionVM. cbv zeta. cbn [falsy].
  change (default "" (Some p)) with p.
  rewrite (proj2 (String.eqb_neq p "")), (proj2 (String.eqb_neq p "gcp")),
    (proj2 (String.eqb_neq p "aws")) by done.
  destruct st. reflexivity.
Qed.

(** X21. The polling loop gives up only after all its rounds.  Started
    without an address and with fuel from 30 on, [poll] makes between 1 and
    30 rounds of one sleep and one describe request, whatever the cloud
    answers; if it returns without an address it has made exactly 30, and if
    it returns with one, that address is not empty. *)
Theorem poll_gives_up_after_30 {W : Type} (svc : @Services W)
    (fuel : nat) (instance : string) (st : W * list Effect) :
  (30 ≤ fuel)%nat →
  ∃ k, (1 ≤ k ≤ 30)%nat ∧
       snd (snd (poll svc fuel instance None 0 st)) = (snd st ++ rounds k instance)%list ∧
       fst (poll svc fuel instance None 0 st) ≠ OutOfFuel ∧
       ∀ ip, fst (poll svc fuel instance None 0 st) = Normal ip →
             (falsy ip = true → k = 30%nat) ∧ (k < 30 → falsy ip = false)%nat.
Proof.
  intros Hfuel.
  assert (∀ fuel attempts publicIP (st : W * list Effect),
            0 ≤ attempts ≤ 30 → (Z.to_nat (30 - attempts) ≤ fuel)%nat →
            ∃ k, (k ≤ Z.to_nat (30 - attempts))%nat ∧
                 (falsy publicIP = true → attempts < 30 → (1 ≤ k)%nat) ∧
                 snd (snd (poll svc fuel instance publicIP attempts st))
                 = (snd st ++ rounds k instance)%list ∧
                 fst (poll svc fuel instance publicIP attempts st) ≠ OutOfFuel ∧
                 ∀ ip, fst (poll svc fuel instance publicIP attempts st) = Normal ip →
                       falsy ip = true → k = Z.to_nat (30 - attempts)) as Hgen.
  { clear. intros fuel. induction fuel as [|fuel IH]; intros attempts publicIP st Ha Hf.
    - assert (attempts = 30) as -> by lia. exists 0%nat. cbn.
      rewrite andb_false_r, app_nil_r. cbn. repeat split; try done; lia.
    - cbn [poll]. destruct (falsy publicIP) eqn:Hfal; cbn [andb].
      + destruct (Z.ltb_spec attempts 30) as [Hlt|Hge].
        * unfold bind, perform. cbn [fst snd answered].
          destruct (ec2_DescribeInstances svc instance (setTimeout svc 2000 st.1))
            as [[ip|msg] w1]; cbn [fst snd answered].
          -- destruct (IH (attempts + 1) ip
                         (w1, ((st.2 ++ [Sleep 2000])
                               ++ [AwsDescribeInstances instance])%list)
                         ltac:(lia) ltac:(lia)) as (k & Hk & _ & Htr & Hne & Hres).
             exists (S k). split; [lia|]. split; [lia|]. split.
             { rewrite Htr. cbn [snd rounds]. by rewrite <- !app_assoc. }
             split; [done|]. intros ip' Hip' Hf'. rewrite (Hres ip' Hip' Hf'). lia.
          -- exists 1%nat. split; [lia|]. split; [lia|]. split.
             { cbn. by rewrite <- app_assoc. }
             split; [done|]. intros ip' [=].
        * assert (attempts = 30) as -> by lia. exists 0%nat. cbn.
          rewrite app_nil_r. repeat split; try done; lia.
      + exists 0%nat. cbn. rewrite app_nil_r. split; [lia|]. split; [done|].
        split; [done|]. split; [done|]. intros ip [= <-]. congruence. }
  destruct (Hgen fuel 0 None st ltac:(lia) ltac:(lia)) as (k & Hk & H1 & Htr & Hne & Hres).
  change (Z.to_nat (30 - 0)) with 30%nat in *.
  exists k. split; [split; [by apply H1 | done]|]. split; [done|]. split; [done|].
  intros ip Hip. split; [by apply Hres|].
  intros Hlt. destruct (falsy ip) eqn:Hf; [|done].
  specialize (Hres ip Hip Hf). lia.
Qed.

(** X22. On AWS a result with [success] always carries a non-empty address:
    whatever the cloud answers, when [provisionVM] with AWS as the provider
    reports success, the address in the result is a non-empty string. *)
Theorem aws_success_has_address {W : Type} (svc : @Services W)
    (fuel : nat) (tokenId buyer : string) (tier : option string)
    (st : W * list Effect) (r : ProvisionResult) :
  fst (provisionVM svc (Some "aws") fuel tokenId buyer tier st) = Normal r →
  success r = true →
  ∃ ip, ipAddress r = Some ip ∧ ip ≠ "" ∧ provider r = Some "aws".
Proof.
  intros Hr Hs. rewrite provisionVM_aws in Hr. unfold try_catch in Hr.
  assert (returns (λ r, success r = true →
                        ∃ ip, ipAddress r = Some ip ∧ ip ≠ "" ∧ provider r = Some "aws")
            (provisionAWS svc fuel tokenId tier buyer)) as Hret.
  { unfold provisionAWS. repeat (apply returns_bind; intros ?).
    destruct (falsy _) eqn:Hf; [apply returns_throw | apply returns_ret].
    intros _. cbn.
    match goal with Hf : falsy ?x = false |- _ => destruct x as [ip|]; [|done] end.
    exists ip. split; [done|]. split; [|done]. intros ->. done. }
  specialize (Hret st).
  destruct (provisionAWS svc fuel tokenId tier buyer st) as [[r'|msg|] st1];
    cbn in Hr; [|by injection Hr as <-|done].
  injection Hr as <-. by apply Hret.
Qed.

(** X23. On GCP a missing external address goes unnoticed.  With GCP as the
    provider and a tier index in [0,4], when the instance is created and its
    metadata carries no address, [provisionVM] still reports success, with no
    address, and the handler goes on to the write-back of the instance
    ["clawcloud-" + tokenId] without an address. *)
Theorem gcp_missing_address_unnoticed {W : Type} (svc : @Services W)
    (P : option string) (fuel : nat) (tokenId : Z) (buyer : string) (tier : Z)
    (st : W * list Effect) :
  P = None ∨ P = Some "" ∨ P = Some "gcp" → 0 ≤ tier ≤ 4 →
  (∀ r w0, ∃ w1, gcp_createVM svc r w0 = (Returns tt, w1)) →
  (∀ w0, ∃ w1, gcp_operation_promise svc w0 = (Returns tt, w1)) →
  (∀ n w0, ∃ w1, gcp_getMetadata svc n w0 = (Returns None, w1)) →
  (∃ r, fst (provisionVM svc P fuel (pretty tokenId) buyer (tier_name tier) st)
        = Normal r ∧
        success r = true ∧ ipAddress r = None ∧
        instanceId r = Some ("clawcloud-" +:+ pretty tokenId)) ∧
  In (ContractSetVMProvisioned tokenId ("clawcloud-" +:+ pretty tokenId) None)
     (snd (snd (handleVMPurchased svc P fuel tokenId buyer tier st))).
Proof.
  intros HP Ht Hcreate Hwait Hmeta.
  destruct (tier_config tier Ht) as (name & c & Hname & Hcfg).
  assert (∃ k st1,
            provisionVM svc P fuel (pretty tokenId) buyer (tier_name tier) st
            = (Normal (mkProvisionResult true (Some ("clawcloud-" +:+ pretty tokenId))
                         None (Some "gcp") (Some k) None), st1)) as (k & st1 & Hrun).
  { rewrite provisionVM_gcp by done.
    unfold try_catch, provisionGCP, bind at 1, lookup_config. rewrite Hname, Hcfg.
    unfold ret. unfold bind at 1, generateSSHKeyPair, perform at 1.
    cbn [fst snd answered]. unfold bind at 1, perform at 1. cbn [fst snd].
    match goal with
    | |- context [gcp_createVM svc ?cmd ?w0] =>
        destruct (Hcreate cmd w0) as (w1 & ->)
    end.
    cbn [fst snd answered]. unfold bind at 1, perform at 1. cbn [fst snd].
    destruct (Hwait w1) as (w2 & ->). cbn [fst snd answered].
    unfold bind, perform. cbn [fst snd].
    match goal with
    | |- context [gcp_getMetadata svc ?n ?w0] => destruct (Hmeta n w0) as (w3 & ->)
    end.
    cbn [fst snd answered]. eauto. }
  split; [rewrite Hrun; eauto 10|].
  unfold handleVMPurchased, try_catch, bind at 1. rewrite Hrun.
  cbn [success instanceId ipAddress]. change (default "" (Some ?x)) with x.
  unfold bind, perform, updateVMStatus. cbn [fst snd].
  destruct (contract_setVMProvisioned svc tokenId ("clawcloud-" +:+ pretty tokenId)
              None st1.1) as [[[]|msg] w1]; cbn [fst snd answered].
  - destruct (tx_wait svc w1) as [[[]|msg] w2]; cbn [fst snd answered];
      rewrite !in_app_iff; cbn; auto 10.
  - rewrite !in_app_iff; cbn; auto 10.
Qed.

(** *** The properties on the simulated clouds *)

Lemma provisionVM_always_returns_witness :
  (30 ≤ 30)%nat ∧
  ∃ r, fst (provisionVM Sim.cloud_no_address (Some "aws") 30 "0" "0x64" (Some "MEDIUM")
              (Sim.world0, [])) = Normal r ∧
       (success r = false → is_Some (error r)).
Proof.
  split; [lia|].
  destruct (provisionVM_always_returns Sim.cloud_no_address (Some "aws") 30 "0" "0x64"
              (Some "MEDIUM") (Sim.world0, []) ltac:(lia)) as (r & Hr & _ & Hf).
  exists r. split; [exact Hr|]. intros Hs. exact (proj1 (Hf Hs)).
Defined.

Lemma handleVMPurchased_logs_one_status_witness :
  (30 ≤ 30)%nat ∧
  fst (handleVMPurchased Sim.cloud_ready (Some "aws") 30 0 "0x64" 2 (Sim.world0, []))
  = Normal tt.
Proof.
  split; [lia|].
  exact (proj1 (handleVMPurchased_logs_one_status Sim.cloud_ready (Some "aws") 30 0
                  "0x64" 2 (Sim.world0, []) ltac:(lia))).
Defined.

Lemma gcp_path_never_polls_witness :
  (@None string = None ∨ @None string = Some "" ∨ @None string = Some "gcp") ∧
  ∃ new,
    snd (snd (handleVMPurchased Sim.cloud_ready None 30 0 "0x64" 2 (Sim.world0, [])))
    = ([] ++ new)%list ∧ describes new = 0%nat.
Proof.
  split; [by left|].
  destruct (gcp_path_never_polls Sim.cloud_ready None 30 0 "0x64" 2 (Sim.world0, [])
              ltac:(by left)) as (new & H1 & H2 & _).
  by exists new.
Defined.

Lemma bad_tier_reaches_no_one_witness :
  (Some "aws" = None ∨ Some "aws" = Some "" ∨ Some "aws" = Some "gcp"
   ∨ Some "aws" = Some "aws") ∧
  (7 < 0 ∨ 4 < 7) ∧
  ∃ msg,
    handleVMPurchased Sim.cloud_ready (Some "aws") 30 0 "0x64" 7 (Sim.world0, [])
    = (Normal tt,
       (Sim.world0,
        [StatusLogged (pretty 0)
           (mkStatusUpdate "failed" None None None None (Some msg))])).
Proof.
  split; [tauto|]. split; [lia|].
  exact (bad_tier_reaches_no_one Sim.cloud_ready (Some "aws") 30 0 "0x64" 7
           (Sim.world0, []) ltac:(tauto) ltac:(lia)).
Defined.

Lemma unsupported_provider_reaches_no_one_witness :
  "azure" ≠ "" ∧ "azure" ≠ "gcp" ∧ "azure" ≠ "aws" ∧
  handleVMPurchased Sim.cloud_ready (Some "azure") 30 0 "0x64" 2 (Sim.world0, [])
  = (Normal tt,
     (Sim.world0,
      [StatusLogged (pretty 0)
         (mkStatusUpdate "failed" None None None None
            (Some "Unsupported provider: azure"))])).
Proof.
  split; [done|]. split; [done|]. split; [done|].
  exact (unsupported_provider_reaches_no_one Sim.cloud_ready "azure" 30 0 "0x64" 2
           (Sim.world0, []) ltac:(done) ltac:(done) ltac:(done)).
Defined.

Lemma poll_gives_up_after_30_witness :
  (30 ≤ 30)%nat ∧
  ∃ k, (1 ≤ k ≤ 30)%nat ∧
       snd (snd (poll Sim.cloud_no_address 30 "i-0" None 0 (Sim.world0, [])))
       = ([] ++ rounds k "i-0")%list.
Proof.
  split; [lia|].
  destruct (poll_gives_up_after_30 Sim.cloud_no_address 30 "i-0" (Sim.world0, [])
              ltac:(lia)) as (k & Hk & Htr & _).
  exists k. split; [exact Hk | exact Htr].
Defined.

Definition ready_result : ProvisionResult :=
  mkProvisionResult true (Some "i-0") (Some "203.0.113.7") (Some "aws")
    (Some "private-0") None.

Lemma provision_ready :
  fst (provisionVM Sim.cloud_ready (Some "aws") 30 "0" "0x64" (Some "MEDIUM")
         (Sim.world0, [])) = Normal ready_result.
Proof. vm_compute. reflexivity. Defined.

Lemma aws_success_has_address_witness :
  fst (provisionVM Sim.cloud_ready (Some "aws") 30 "0" "0x64" (Some "MEDIUM")
         (Sim.world0, [])) = Normal ready_result ∧
  success ready_result = true ∧
  ∃ ip, ipAddress ready_result = Some ip ∧ ip ≠ "" ∧ provider ready_result = Some "aws".
Proof.
  split; [exact provision_ready|]. split; [reflexivity|].
  exact (aws_success_has_address Sim.cloud_ready 30 "0" "0x64" (Some "MEDIUM")
           (Sim.world0, []) ready_result provision_ready eq_refl).
Defined.

Lemma gcp_missing_address_unnoticed_witness :
  (@None string = None ∨ @None string = Some "" ∨ @None string = Some "gcp") ∧
  0 ≤ 2 ≤ 4 ∧
  In (ContractSetVMProvisioned 0 ("clawcloud-" +:+ pretty 0) None)
     (snd (snd (handleVMPurchased
                  (mkServices Sim.next_key (λ _ w, (Returns tt, w))
                     (λ w, (Returns tt, w)) (λ _ w, (Returns None, w))
                     Sim.run_instances (λ _ w, (Returns None, w))
                     Sim.sleep Sim.write_back (λ w, (Returns tt, w)))
                  None 30 0 "0x64" 2 (Sim.world0, [])))).
Proof.
  split; [by left|]. split; [lia|].
  apply gcp_missing_address_unnoticed; [by left | lia | | |].
  - intros r w0. by exists w0.
  - intros w0. by exists w0.
  - intros n w0. by exists w0.
Defined.

End BackendExtra.

(** ** Tearing an instance down: [destroyVM]

    [destroyVM] of [backend/provisioner.js].  On GCP it asks the zone for the
    deletion of the instance and waits for the operation; the branch for AWS
    is empty (its request is commented out in the source).  Every exception
    is caught and turned into a result without [success]. *)

Module Teardown.
Import Backend.

Inductive Request :=
| VmDelete (zone instance : string)
| OperationPromise.

Record DestroyResult := mkDestroyResult {
  destroy_success : bool;
  destroy_error : option string
}.

Section Code.

Context {W : Type}.

Record DestroyServices := mkDestroyServices {
  gcp_vm_delete : string → string → W → Answer unit * W;
  gcp_delete_promise : W → Answer unit * W
}.

Variable svc : DestroyServices.

(** [process.env.GCP_ZONE] *)
Variable GCP_ZONE : option string.

Definition destroyVM (tokenId provider instance : string) (st : W * list Request)
  : DestroyResult * (W * list Request) :=
  if String.eqb provider "gcp" then
    let zone := if falsy GCP_ZONE then "us-central1-a" else default "" GCP_ZONE in
    let st1 := (snd (gcp_vm_delete svc zone instance (fst st)),
                (snd st ++ [VmDelete zone instance])%list) in
    match fst (gcp_vm_delete svc zone instance (fst st)) with
    | Throws message => (mkDestroyResult false (Some message), st1)
    | Returns _ =>
        let st2 := (snd (gcp_delete_promise svc (fst st1)),
                    (snd st1 ++ [OperationPromise])%list) in
        match fst (gcp_delete_promise svc (fst st1)) with
        | Throws message => (mkDestroyResult false (Some message), st2)
        | Returns _ => (mkDestroyResult true None, st2)
        end
    end
  else if String.eqb provider "aws" then (mkDestroyResult true None, st)
  else (mkDestroyResult true None, st).

End Code.

(** X24. [destroyVM] reports success for AWS without destroying anything: for
    every provider other than "gcp" (so for "aws") it sends no request,
    leaves the world as it was and returns [success].  On GCP it sends the
    deletion of that instance in the configured zone (["us-central1-a"] when
    none is set), then at most the wait for the operation, and returns
    [success] exactly when both were answered; otherwise it returns the
    error of the one that threw. *)
Theorem destroyVM_reports {W : Type} (svc : @DestroyServices W)
    (GCP_ZONE : option string) (tokenId provider instance : string)
    (st : W * list Request) :
  (provider ≠ "gcp" →
     destroyVM svc GCP_ZONE tokenId provider instance st
     = (mkDestroyResult true None, st)) ∧
  (provider = "gcp" →
     ∃ zone,
       zone = (if falsy GCP_ZONE then "us-central1-a" else default "" GCP_ZONE) ∧
       (snd (snd (destroyVM svc GCP_ZONE tokenId provider instance st))
        = (snd st ++ [VmDelete zone instance])%list ∨
        snd (snd (destroyVM svc GCP_ZONE tokenId provider instance st))
        = (snd st ++ [VmDelete zone instance; OperationPromise])%list) ∧
       (destroy_success (fst (destroyVM svc GCP_ZONE tokenId provider instance st))
        = true →
          snd (snd (destroyVM svc GCP_ZONE tokenId provider instance st))
          = (snd st ++ [VmDelete zone instance; OperationPromise])%list ∧
          destroy_error (fst (destroyVM svc GCP_ZONE tokenId provider instance st))
          = None) ∧
       (destroy_success (fst (destroyVM svc GCP_ZONE tokenId provider instance st))
        = false →
          is_Some (destroy_error
                     (fst (destroyVM svc GCP_ZONE tokenId provider instance st))))).
Proof.
  split.
  - intros Hp. unfold destroyVM. rewrite (proj2 (String.eqb_neq provider "gcp") Hp).
    by destruct (String.eqb provider "aws").
  - intros ->. eexists. split; [reflexivity|]. unfold destroyVM. cbn [String.eqb].
    change (("gcp" =? "gcp")%string) with true. cbv zeta. cbn [fst snd].
    destruct (gcp_vm_delete svc _ instance st.1) as [[[]|msg] w1]; cbn [fst snd].
    + destruct (gcp_delete_promise svc w1) as [[[]|msg] w2]; cbn [fst snd];
        rewrite <- !app_assoc; cbn [app]; (split; [by right|]);
        (split; [done|]); intros; by eauto.
    + split; [by left|]. split; [done|]. intros; by eauto.
Qed.

Definition no_cloud : @DestroyServices unit :=
  mkDestroyServices (λ _ _ w, (Throws "unreachable", w)) (λ w, (Throws "unreachable", w)).

Lemma destroyVM_reports_witness :
  "aws" ≠ "gcp" ∧
  destroyVM no_cloud None "0" "aws" "i-0" (tt, []) = (mkDestroyResult true None, (tt, [])).
Proof.
  split; [done|].
  exact (proj1 (destroyVM_reports no_cloud None "0" "aws" "i-0" (tt, [])) ltac:(done)).
Defined.

End Teardown.

(** ** The read-only API

    The tables and the id handling of the REST server that sits beside the
    provisioner: the packages it advertises, and the [vm_] prefix of the ids
    it hands out and takes back. *)

Module Api.

(** The monthly price is in whole dollars; the hourly price, a decimal
    literal in the source, is kept in thousandths of a dollar. *)
Record Price := mkPrice {
  monthly : Z;
  hourly_thousandths : Z
}.

Record Spec := mkSpec {
  vcpu : Z;
  ram : string;
  storage : string
}.

(** Objects, as the lists of their entries in insertion order. *)
Definition TIER_NAMES : list string := ["MICRO"; "SMALL"; "MEDIUM"; "LARGE"; "XLARGE"].

Definition TIER_PRICES : list (string * Price) :=
  [("MICRO", mkPrice 5 7); ("SMALL", mkPrice 10 14); ("MEDIUM", mkPrice 25 35);
   ("LARGE", mkPrice 50 69); ("XLARGE", mkPrice 100 139)].

Definition TIER_SPECS : list (string * Spec) :=
  [("MICRO", mkSpec 1 "1GB" "20GB"); ("SMALL", mkSpec 2 "2GB" "40GB");
   ("MEDIUM", mkSpec 4 "4GB" "80GB"); ("LARGE", mkSpec 8 "8GB" "160GB");
   ("XLARGE", mkSpec 16 "16GB" "320GB")].

Fixpoint property {A} (key : string) (object : list (string * A)) : option A :=
  match object with
  | [] => None
  | (k, v) :: rest => if String.eqb k key then Some v else property key rest
  end.

Record Package := mkPackage {
  pkg_tier : string;
  pkg_tier_index : Z;
  pkg_price_monthly : Z;
  pkg_price_hourly_thousandths : Z;
  pkg_vcpu : Z;
  pkg_ram : string;
  pkg_storage : string
}.

(** [Object.keys(TIER_PRICES).map((tier, index) => ...)]; reading a field of
    a missing entry throws, here [None]. *)
Fixpoint packages_from (index : Z) (keys : list string) : option (list Package) :=
  match keys with
  | [] => Some []
  | tier :: rest =>
      p ← property tier TIER_PRICES;
      s ← property tier TIER_SPECS;
      ps ← packages_from (index + 1) rest;
      Some (mkPackage tier index (monthly p) (hourly_thousandths p)
              (vcpu s) (ram s) (storage s) :: ps)
  end.

Definition packages : option (list Package) :=
  packages_from 0 (map fst TIER_PRICES).

(** [s.replace(pattern, replacement)] for a string pattern: the first
    occurrence is replaced.  (The replacement used here is the empty string,
    so the dollar patterns of the replacement play no part.) *)
Fixpoint strip_prefix (pattern s : string) : option string :=
  match pattern, s with
  | EmptyString, _ => Some s
  | String a p, String b s' => if Ascii.eqb a b then strip_prefix p s' else None
  | String _ _, EmptyString => None
  end.

Fixpoint replace (pattern replacement s : string) : string :=
  match strip_prefix pattern s with
  | Some rest => replacement +:+ rest
  | None =>
      match s with
      | EmptyString => EmptyString
      | String c s' => String c (replace pattern replacement s')
      end
  end.

Fixpoint occurs (pattern s : string) : bool :=
  match strip_prefix pattern s with
  | Some _ => true
  | None =>
      match s with
      | EmptyString => false
      | String _ s' => occurs pattern s'
      end
  end.

(** [`vm_${tokenId.toString()}`] and [vmId.replace('vm_', '')] *)
Definition vm_id (tokenId : string) : string := "vm_" +:+ tokenId.

Definition token_of (vmId : string) : string := replace "vm_" "" vmId.

Lemma strip_prefix_app pattern s : strip_prefix pattern (pattern +:+ s) = Some s.
Proof.
  induction pattern as [|a p IH]; [by destruct s|].
  change (String a p +:+ s) with (String a (p +:+ s)).
  cbn [strip_prefix]. by rewrite Ascii.eqb_refl.
Qed.

(** X25. The packages the API advertises match the contract and the
    provisioner: there are five, in the order of the tier indices, and for
    every tier the package at its index carries that index, the tier's name,
    a monthly price that times 10^6 is the price the contract charges, and a
    storage that is the disk size the provisioner requests on either
    cloud. *)
Theorem packages_match_contract :
  ∃ ps, packages = Some ps ∧ length ps = 5%nat ∧
    ∀ t : Ledger.Tier, ∃ p c,
      ps !! Z.to_nat (Ledger.tier_index t) = Some p ∧
      pkg_tier_index p = Ledger.tier_index t ∧
      Backend.tier_name (Ledger.tier_index t) = Some (pkg_tier p) ∧
      pkg_price_monthly p * 10 ^ 6 = Ledger._getTierPrice t ∧
      Backend.VM_CONFIGS (pkg_tier p) = Some c ∧
      pkg_storage p = pretty (Backend.diskSizeGb (Backend.gcp c)) +:+ "GB" ∧
      pkg_storage p = pretty (Backend.diskSizeGb (Backend.aws c)) +:+ "GB".
Proof.
  eexists. split; [reflexivity|]. split; [reflexivity|].
  intros t. destruct t; eexists _, _; repeat split; reflexivity.
Qed.

(** X26. The id of the API is a round trip: taking the token id back out of
    [vm_id tokenId] gives [tokenId], whatever the token id is.  An id that
    does not contain ["vm_"] at all is passed on unchanged. *)
Theorem vm_id_round_trip (tokenId : string) :
  token_of (vm_id tokenId) = tokenId ∧
  (occurs "vm_" tokenId = false → token_of tokenId = tokenId).
Proof.
  split.
  - unfold token_of, vm_id.
    assert (∀ s, replace "vm_" "" s
                 = match strip_prefix "vm_" s with
                   | Some rest => "" +:+ rest
                   | None => match s with
                             | EmptyString => EmptyString
                             | String c s' => String c (replace "vm_" "" s')
                             end
                   end) as Heq by (by intros []).
    rewrite Heq, strip_prefix_app. done.
  - unfold token_of. induction tokenId as [|c s IH]; [done|].
    intros Hocc.
    assert (strip_prefix "vm_" (String c s) = None ∧ occurs "vm_" s = false)
      as [Hs Ho].
    { cbn [occurs] in Hocc. destruct (strip_prefix "vm_" (String c s)); [done|].
      by split. }
    cbn [replace]. rewrite Hs. by rewrite IH.
Qed.

End Api.
